(** * GEARP model components (src/modules.py): a shallow embedding

    The module assembles TensorFlow 1.14 graphs.  Each Python function is a
    graph builder: it may raise while the graph is being constructed (shape
    or type errors) and otherwise yields symbolic tensors.  A tensor is
    embedded as its static shape together with the value it takes at every
    index; values are real numbers, i.e. the float32 kernels are read in
    exact arithmetic (rounding, overflow and NaN are not modelled).

    Graph construction is a state-and-error computation over the variable
    store of the graph. *)

From Stdlib Require Import String Ascii Bool Arith ZArith QArith Lia List.
From Stdlib Require Import Reals Lra Qreals DecimalString DecimalNat.
Import ListNotations.

Local Open Scope string_scope.
Local Open Scope list_scope.
Local Open Scope nat_scope.

(** ** Shapes, indices, tensors *)

Definition Shape := list nat.
Definition Index := list nat.

(** A float32 tensor: static shape and value at each index. *)
Record tensor := Tensor { shape : Shape; val : Index -> R }.

(** An integer tensor (indices, adjacency). *)
Record itensor := ITensor { ishape : Shape; ival : Index -> Z }.

Definition rank (t : tensor) : nat := length (shape t).

(** [valid_index s idx]: [idx] addresses an element of a tensor of shape [s]. *)
Definition valid_index (s : Shape) (idx : Index) : Prop := Forall2 lt idx s.

Fixpoint shape_eqb (s1 s2 : Shape) : bool :=
  match s1, s2 with
  | [], [] => true
  | a :: s1', b :: s2' => (a =? b) && shape_eqb s1' s2'
  | _, _ => false
  end.


Definition insert_at {A} (n : nat) (x : A) (l : list A) : list A :=
  firstn n l ++ x :: skipn n l.
Definition remove_at {A} (n : nat) (l : list A) : list A :=
  firstn n l ++ skipn (S n) l.
Definition set_at {A} (n : nat) (x : A) (l : list A) : list A :=
  firstn n l ++ x :: skipn (S n) l.
Definition set_last {A} (l : list A) (x : A) : list A := removelast l ++ [x].

Definition prod_shape (s : Shape) : nat := fold_right Nat.mul 1 s.

(** Finite sums of reals: [sumR n f = f 0 + ... + f (n-1)]. *)
Fixpoint sumR (n : nat) (f : nat -> R) : R :=
  match n with
  | O => 0%R
  | S m => (sumR m f + f m)%R
  end.

(** Sum of [f] over every index of a shape. *)
Fixpoint sum_all (s : Shape) (f : Index -> R) : R :=
  match s with
  | [] => f []
  | d :: s' => sumR d (fun i => sum_all s' (fun idx => f (i :: idx)))
  end.

(** Row-major offset of an index and its inverse (used by reshape). *)
Fixpoint ravel (s : Shape) (idx : Index) : nat :=
  match s, idx with
  | _ :: s', i :: idx' => i * prod_shape s' + ravel s' idx'
  | _, _ => 0
  end.

Fixpoint unravel (s : Shape) (n : nat) : Index :=
  match s with
  | [] => []
  | _ :: s' => (n / prod_shape s') :: unravel s' (n mod prod_shape s')
  end.

(** ** Errors raised while the graph is built *)

Inductive error : Type :=
| ValueError (op : string)
| TypeError (op : string)
| IndexError (op : string).

Inductive result (A : Type) : Type :=
| Ok (a : A)
| Err (e : error).
Arguments Ok {A} a.
Arguments Err {A} e.

(** The graph under construction: variable store (by full name), the
    counters that make default scope names unique, and the number of random
    ops created so far. *)
Record graph := Graph {
  variables : list (string * tensor);
  scope_counts : list (string * nat);
  n_random : nat
}.

Definition empty_graph : graph := Graph [] [] 0.

(** Graph-building computations. *)
Definition tf (A : Type) : Type := graph -> result (A * graph).

Definition ret {A} (a : A) : tf A := fun g => Ok (a, g).

Definition bind {A B} (m : tf A) (f : A -> tf B) : tf B :=
  fun g => match m g with
           | Ok (a, g') => f a g'
           | Err e => Err e
           end.

Definition lift {A} (r : result A) : tf A :=
  fun g => match r with Ok a => Ok (a, g) | Err e => Err e end.

Definition raise {A} (e : error) : tf A := fun _ => Err e.

Declare Scope tf_scope.
Delimit Scope tf_scope with tf.
Notation "x <- m ;; k" := (bind m (fun x => k))
  (at level 61, m at next level, right associativity) : tf_scope.
Notation "' p <- m ;; k" := (bind m (fun x => match x with p => k end))
  (at level 61, p pattern, m at next level, right associativity) : tf_scope.

Fixpoint lookup {A} (k : string) (l : list (string * A)) : option A :=
  match l with
  | [] => None
  | (k', v) :: l' => if String.eqb k k' then Some v else lookup k l'
  end.

Definition string_of_nat (n : nat) : string :=
  NilEmpty.string_of_uint (Nat.to_uint n).

(** Python numbers as they reach [tf.reshape]: ints and floats. *)
Inductive pynum : Type :=
| PyInt (z : Z)
| PyFloat (q : Q).

(** The interpreter decides what [/] does on two ints. *)
Inductive interpreter : Type := Python2 | Python3.

Definition py_div (py : interpreter) (a b : Z) : pynum :=
  match py with
  | Python2 => PyInt (a / b)
  | Python3 => PyFloat (Qmake a 1 / Qmake b 1)
  end.

(** [range(lo, hi)] *)
Definition py_range (lo hi : Z) : list Z :=
  map (fun i => (lo + Z.of_nat i)%Z) (seq 0 (Z.to_nat (hi - lo))).

(** ** Tensor operations (pure part of the TensorFlow API used by the module) *)

(** A negative axis counts from the end. *)
Definition norm_axis (axis : Z) (r : nat) : option nat :=
  if (0 <=? axis)%Z then
    (if Z.to_nat axis <? r then Some (Z.to_nat axis) else None)
  else
    (if (- Z.of_nat r <=? axis)%Z then Some (Z.to_nat (Z.of_nat r + axis)) else None).

(** NumPy-style broadcasting, computed on the reversed shapes. *)
Fixpoint broadcast_rev (r1 r2 : Shape) : option Shape :=
  match r1, r2 with
  | [], r => Some r
  | r, [] => Some r
  | a :: r1', b :: r2' =>
      match broadcast_rev r1' r2' with
      | Some r =>
          if a =? b then Some (a :: r)
          else if a =? 1 then Some (b :: r)
          else if b =? 1 then Some (a :: r)
          else None
      | None => None
      end
  end.

Definition broadcast_shape (s1 s2 : Shape) : option Shape :=
  option_map (@rev nat) (broadcast_rev (rev s1) (rev s2)).

(** Index into an operand of shape [s] for an index of the broadcast result:
    keep the trailing [length s] positions, and read position 0 along every
    axis of size 1. *)
Fixpoint bidx_rev (r ridx : list nat) : list nat :=
  match r, ridx with
  | d :: r', i :: ridx' => (if d =? 1 then 0 else i) :: bidx_rev r' ridx'
  | _, _ => []
  end.

Definition bidx (s : Shape) (idx : Index) : Index :=
  rev (bidx_rev (rev s) (rev idx)).

Definition scalar (r : R) : tensor := Tensor [] (fun _ => r).

Definition tf_zeros (s : Shape) : tensor := Tensor s (fun _ => 0%R).

Definition tf_cast (t : itensor) : tensor :=
  Tensor (ishape t) (fun idx => IZR (ival t idx)).

Definition tf_map (f : R -> R) (t : tensor) : tensor :=
  Tensor (shape t) (fun idx => f (val t idx)).

Definition tf_binop (op : string) (f : R -> R -> R) (a b : tensor) : result tensor :=
  match broadcast_shape (shape a) (shape b) with
  | Some s =>
      Ok (Tensor s (fun idx => f (val a (bidx (shape a) idx)) (val b (bidx (shape b) idx))))
  | None => Err (ValueError op)
  end.

Definition tf_add := tf_binop "add" Rplus.
Definition tf_subtract := tf_binop "sub" Rminus.
Definition tf_multiply := tf_binop "mul" Rmult.
Definition tf_truediv := tf_binop "truediv" Rdiv.

Definition tf_square : tensor -> tensor := tf_map (fun x => (x * x)%R).
Definition tf_sqrt : tensor -> tensor := tf_map sqrt.
Definition tf_nn_relu : tensor -> tensor := tf_map (fun x => Rmax x 0).
(** [tf.nn.leaky_relu], default [alpha = 0.2]: [max(alpha * x, x)]. *)
Definition tf_nn_leaky_relu : tensor -> tensor :=
  tf_map (fun x => Rmax (2 / 10 * x) x).

(** [tf.reduce_sum(t, axis, keepdims)] *)
Definition tf_reduce_sum (t : tensor) (axis : Z) (keepdims : bool) : result tensor :=
  match norm_axis axis (rank t) with
  | Some k =>
      let n := nth k (shape t) 0 in
      if keepdims then
        Ok (Tensor (set_at k 1 (shape t))
                   (fun idx => sumR n (fun j => val t (set_at k j idx))))
      else
        Ok (Tensor (remove_at k (shape t))
                   (fun idx => sumR n (fun j => val t (insert_at k j idx))))
  | None => Err (ValueError "reduce_sum")
  end.

(** [tf.nn.softmax(t, axis)]: [exp(t) / reduce_sum(exp(t), axis)]. *)
Definition tf_nn_softmax (t : tensor) (axis : Z) : result tensor :=
  match norm_axis axis (rank t) with
  | Some k =>
      let n := nth k (shape t) 0 in
      Ok (Tensor (shape t)
                 (fun idx => (exp (val t idx)
                              / sumR n (fun j => exp (val t (set_at k j idx))))%R))
  | None => Err (ValueError "softmax")
  end.

(** [tf.nn.l2_loss(t)]: [sum(t ** 2) / 2], a scalar. *)
Definition tf_nn_l2_loss (t : tensor) : tensor :=
  scalar (sum_all (shape t) (fun idx => (val t idx * val t idx)%R) / 2).

(** [tf.matmul(a, b, transpose_b)]: matrices in the last two axes, leading
    (batch) axes broadcast against each other. *)
Definition tf_matmul (a b : tensor) (transpose_b : bool) : result tensor :=
  let ra := rank a in
  let rb := rank b in
  if (2 <=? ra) && (2 <=? rb) then
    let ba := firstn (ra - 2) (shape a) in
    let bb := firstn (rb - 2) (shape b) in
    let m := nth (ra - 2) (shape a) 0 in
    let ka := nth (ra - 1) (shape a) 0 in
    let kb := nth (if transpose_b then rb - 1 else rb - 2) (shape b) 0 in
    let n := nth (if transpose_b then rb - 2 else rb - 1) (shape b) 0 in
    if ka =? kb then
      match broadcast_shape ba bb with
      | Some bs =>
          Ok (Tensor (bs ++ [m; n])
                (fun idx =>
                   let bi := firstn (length bs) idx in
                   let i := nth (length bs) idx 0 in
                   let j := nth (S (length bs)) idx 0 in
                   sumR ka (fun k =>
                     (val a (bidx ba bi ++ [i; k])
                      * val b (bidx bb bi ++ (if transpose_b then [j; k] else [k; j])))%R)))
      | None => Err (ValueError "matmul")
      end
    else Err (ValueError "matmul")
  else Err (ValueError "matmul").

(** [tf.transpose(t, perm)]: [perm] must be a permutation of the axes of [t];
    a permutation of the wrong length is rejected when the op is created. *)
Definition is_permutation (perm : list nat) (n : nat) : bool :=
  (length perm =? n) && forallb (fun k => existsb (Nat.eqb k) perm) (seq 0 n).

Fixpoint index_of (k : nat) (l : list nat) : nat :=
  match l with
  | [] => 0
  | x :: l' => if x =? k then 0 else S (index_of k l')
  end.

Definition tf_transpose (t : tensor) (perm : list nat) : result tensor :=
  if is_permutation perm (rank t) then
    Ok (Tensor (map (fun p => nth p (shape t) 0) perm)
               (fun idx => val t (map (fun k => nth (index_of k perm) idx 0)
                                      (seq 0 (rank t)))))
  else Err (ValueError "transpose").

(** [tf.reshape(t, dims)]: every entry of [dims] must be an int, at most one
    of them -1. *)
Fixpoint int_dims (dims : list pynum) : option (list Z) :=
  match dims with
  | [] => Some []
  | PyInt z :: ds => option_map (cons z) (int_dims ds)
  | PyFloat _ :: _ => None
  end.

Definition known_prod (dims : list Z) : Z :=
  fold_right (fun d acc => if (d =? -1)%Z then acc else (d * acc)%Z) 1%Z dims.

Definition resolve_shape (total : nat) (dims : list Z) : option Shape :=
  if forallb (fun d => (-1 <=? d)%Z) dims
     && (count_occ Z.eq_dec dims (-1)%Z <=? 1)
     && ((count_occ Z.eq_dec dims (-1)%Z =? 0) || negb (known_prod dims =? 0)%Z)
  then
    let p := Z.to_nat (known_prod dims) in
    let s := map (fun d => if (d =? -1)%Z then total / p else Z.to_nat d) dims in
    if prod_shape s =? total then Some s else None
  else None.

Definition tf_reshape (t : tensor) (dims : list pynum) : result tensor :=
  match int_dims dims with
  | None => Err (TypeError "reshape")
  | Some zs =>
      match resolve_shape (prod_shape (shape t)) zs with
      | Some s => Ok (Tensor s (fun idx => val t (unravel (shape t) (ravel s idx))))
      | None => Err (ValueError "reshape")
      end
  end.

(** [tf.stack(values, axis)].  With [axis = 0] the list is first tried as a
    constant; otherwise [values[0]] is inspected, which raises on []. *)
Definition tf_stack (values : list tensor) (axis : nat) : result tensor :=
  match values with
  | [] => if axis =? 0 then Ok (tf_zeros [0]) else Err (IndexError "stack")
  | v0 :: _ =>
      if (axis <=? rank v0)
         && forallb (fun v => shape_eqb (shape v) (shape v0)) values
      then
        Ok (Tensor (insert_at axis (length values) (shape v0))
                   (fun idx => val (nth (nth axis idx 0) values v0) (remove_at axis idx)))
      else Err (ValueError "stack")
  end.

(** [t[:, i, :]] *)
Definition slice_axis1 (t : tensor) (i : Z) : result tensor :=
  if 3 <=? rank t then
    let d := Z.of_nat (nth 1 (shape t) 0) in
    if ((- d <=? i) && (i <? d))%Z then
      let i' := Z.to_nat (if (i <? 0)%Z then i + d else i)%Z in
      Ok (Tensor (remove_at 1 (shape t)) (fun idx => val t (insert_at 1 i' idx)))
    else Err (ValueError "strided_slice")
  else Err (ValueError "strided_slice").

(** [t[1:, :]] *)
Definition slice_from1 (t : tensor) : result tensor :=
  match shape t with
  | d :: (_ :: _) as s' =>
      Ok (Tensor ((d - 1) :: s')
                 (fun idx => match idx with
                             | i :: r => val t (S i :: r)
                             | [] => 0%R
                             end))
  | _ => Err (ValueError "strided_slice")
  end.

(** [tf.concat(values, axis)] *)
Fixpoint concat_val (k : nat) (values : list tensor) (idx : Index) : R :=
  match values with
  | [] => 0%R
  | v :: vs =>
      let d := nth k (shape v) 0 in
      let i := nth k idx 0 in
      if i <? d then val v idx else concat_val k vs (set_at k (i - d) idx)
  end.

Definition tf_concat (values : list tensor) (axis : Z) : result tensor :=
  match values with
  | [] => Err (ValueError "concat")
  | v0 :: _ =>
      match norm_axis axis (rank v0) with
      | Some k =>
          if forallb (fun v => shape_eqb (remove_at k (shape v)) (remove_at k (shape v0))
                               && (rank v =? rank v0)) values
          then
            Ok (Tensor (set_at k (list_sum (map (fun v => nth k (shape v) 0) values))
                               (shape v0))
                       (concat_val k values))
          else Err (ValueError "concat")
      | None => Err (ValueError "concat")
      end
  end.

(** [tf.squeeze(t)]: drop every axis of size 1. *)
Fixpoint unsqueeze_idx (s : Shape) (idx : Index) : Index :=
  match s with
  | [] => []
  | d :: s' =>
      if d =? 1 then 0 :: unsqueeze_idx s' idx
      else match idx with
           | i :: idx' => i :: unsqueeze_idx s' idx'
           | [] => 0 :: unsqueeze_idx s' []
           end
  end.

Definition tf_squeeze (t : tensor) : tensor :=
  Tensor (filter (fun d => negb (d =? 1)) (shape t))
         (fun idx => val t (unsqueeze_idx (shape t) idx)).

(** [tf.nn.embedding_lookup(params, ids)]: gather rows of [params].  The
    shape is known when the op is created; an id outside the table is only
    met when the graph runs (the GPU kernel yields zeros, which is what the
    value below does). *)
Definition tf_nn_embedding_lookup (params : tensor) (ids : itensor) : result tensor :=
  match shape params with
  | d :: s' =>
      Ok (Tensor (ishape ids ++ s')
            (fun idx =>
               let i := ival ids (firstn (length (ishape ids)) idx) in
               if ((0 <=? i) && (i <? Z.of_nat d))%Z
               then val params (Z.to_nat i :: skipn (length (ishape ids)) idx)
               else 0%R))
  | [] => Err (ValueError "embedding_lookup")
  end.

(** ** Stateful part of the API: variables, layers, dropout *)

Local Open Scope tf_scope.

Definition with_variables (g : graph) (vs : list (string * tensor)) : graph :=
  Graph vs (scope_counts g) (n_random g).

(** Default layer scopes are made unique per graph: [dense], [dense_1], ... *)
Definition unique_scope (base : string) : tf string :=
  fun g =>
    let c := match lookup base (scope_counts g) with Some c => c | None => 0 end in
    let name := if c =? 0 then base
                else String.append base (String.append "_" (string_of_nat c)) in
    Ok (name, Graph (variables g) ((base, S c) :: scope_counts g) (n_random g)).

(** Python truthiness of an optional float / optional string argument. *)
Definition truthy_float (x : option Q) : bool :=
  match x with
  | Some q => negb (Qeq_bool q 0)
  | None => false
  end.

Definition truthy_string (x : option string) : bool :=
  match x with
  | Some EmptyString => false
  | Some _ => true
  | None => false
  end.

(** [x != 0.0] on a Python float *)
Definition float_nonzero (q : Q) : bool := negb (Qeq_bool q 0).

Section Builders.

(** Values held by a variable when it is first created (drawn by its
    initializer) and the keep-mask drawn by the n-th dropout op: both are
    arbitrary. *)
Variable initial_value : string -> Shape -> Index -> R.
Variable keep_mask : nat -> Index -> bool.

(** [utils.get_activation_func] is not part of the module: it maps an
    activation name to a tensor function, or raises. *)
Variable get_activation_func : string -> result (tensor -> result tensor).

(** The interpreter running the module. *)
Variable python : interpreter.

(** [tf.get_variable(name, shape)] under a variable scope whose reuse flag
    is [reuse] ([true] stands for [tf.AUTO_REUSE], [false] for a scope that
    does not reuse). *)
Definition get_variable (name : string) (shp : Shape) (reuse : bool) : tf tensor :=
  fun g =>
    match lookup name (variables g) with
    | Some v =>
        if reuse then
          if shape_eqb (shape v) shp then Ok (v, g)
          else Err (ValueError "get_variable")
        else Err (ValueError "get_variable")
    | None =>
        let v := Tensor shp (initial_value name shp) in
        Ok (v, with_variables g ((name, v) :: variables g))
    end.

(** [tf.layers.dropout(x, rate, training)] with [training] a boolean
    placeholder: both branches are built, so the rate is checked when the
    op is created; at run time the input is masked and rescaled only when
    training. *)
Definition tf_layers_dropout (x : tensor) (rate : Q) (training : bool) : tf tensor :=
  fun g =>
    if Qle_bool 0 rate && negb (Qle_bool 1 rate) then
      if Qeq_bool rate 0 then Ok (x, g)
      else
        let mask := keep_mask (n_random g) in
        let g' := Graph (variables g) (scope_counts g) (S (n_random g)) in
        Ok (if training then
              Tensor (shape x)
                (fun idx => (val x idx * (1 / (1 - Q2R rate))
                             * (if mask idx then 1 else 0))%R)
            else x, g')
    else Err (ValueError "dropout").

(** [tf.layers.dense(inputs, units, activation, use_bias, name)]: a kernel
    [(last_dim, units)] contracted with the last axis of the input. *)
Definition tf_layers_dense (inputs : tensor) (units : nat)
    (activation : option (tensor -> tensor)) (use_bias : bool)
    (name : option string) : tf tensor :=
  if 2 <=? rank inputs then
    scope <- match name with
             | Some n => ret n
             | None => unique_scope "dense"
             end ;;
    let d := last (shape inputs) 0 in
    kernel <- get_variable (String.append scope "/kernel") [d; units] false ;;
    bias <- (if use_bias
             then get_variable (String.append scope "/bias") [units] false
             else ret (tf_zeros [units])) ;;
    let outputs :=
      Tensor (set_last (shape inputs) units)
        (fun idx =>
           let j := last idx 0 in
           (sumR d (fun k => val inputs (set_last idx k) * val kernel [k; j])
            + val bias [j])%R) in
    ret (match activation with
         | Some f => f outputs
         | None => outputs
         end)
  else raise (ValueError "dense").

(** [tf.layers.conv1d(inputs, filters, 1, use_bias=False)]: a width-1
    convolution over a [(batch, length, channels)] input. *)
Definition tf_layers_conv1d_k1 (inputs : tensor) (filters : nat) : tf tensor :=
  match shape inputs with
  | [b; l; c] =>
      scope <- unique_scope "conv1d" ;;
      kernel <- get_variable (String.append scope "/kernel") [1; c; filters] false ;;
      ret (Tensor [b; l; filters]
             (fun idx =>
                let j := last idx 0 in
                sumR c (fun k => (val inputs (set_last idx k)
                                  * val kernel [0%nat; k; j])%R)))
  | _ => raise (ValueError "conv1d")
  end.

(** [tf.contrib.layers.bias_add(inputs)] *)
Definition tf_contrib_layers_bias_add (inputs : tensor) : tf tensor :=
  if 2 <=? rank inputs then
    scope <- unique_scope "BiasAdd" ;;
    biases <- get_variable (String.append scope "/biases")
                           [last (shape inputs) 0] false ;;
    lift (tf_add inputs biases)
  else raise (ValueError "bias_add").

(** ** The module *)

(** [get_embeddings(vocab_size, num_units, name_scope, zero_pad)] *)
Definition get_embeddings (vocab_size num_units : nat) (name_scope : string)
    (zero_pad : bool) : tf tensor :=
  embeddings <- get_variable (String.append name_scope "/embedding_matrix")
                             [vocab_size; num_units] true ;;
  if zero_pad then
    rest <- lift (slice_from1 embeddings) ;;
    lift (tf_concat [tf_zeros [1; num_units]; rest] 0)
  else ret embeddings.

(** A run of dense ReLU layers named [prefix ++ i], [prefix ++ (i+1)], ... *)
Fixpoint dense_layers (prefix : string) (i : nat) (units : list nat)
    (features : tensor) : tf tensor :=
  match units with
  | [] => ret features
  | u :: us =>
      features' <- tf_layers_dense features u (Some tf_nn_relu) true
                     (Some (String.append prefix (string_of_nat i))) ;;
      dense_layers prefix (S i) us features'
  end.

(** [autoencoder(input_features, layers, name_scope)] *)
Definition autoencoder (input_features : tensor) (layers : list nat)
    (name_scope : string) : tf (tensor * tensor) :=
  let features := input_features in
  restore_dim <- match shape features with
                 | _ :: d :: _ => ret d
                 | _ => raise (IndexError "shape")
                 end ;;
  (* encoder *)
  features <- dense_layers "usc_enc_" 0 layers features ;;
  let hidden_feature := features in
  (* decoder *)
  let rev_layers := rev layers in
  features <- dense_layers "usc_dec_" 1 (tl rev_layers) features ;;
  (* last layer to reconstruct *)
  restore <- tf_layers_dense features restore_dim None true
               (Some "usc_reconstruct_layer") ;;
  (* reconstruction loss *)
  diff <- lift (tf_subtract input_features restore) ;;
  let recon_loss := tf_nn_l2_loss diff in
  ret (hidden_feature, recon_loss).

(** The list built by the double loop of [attentional_fm]. *)
Fixpoint collect {A B} (f : A -> result B) (l : list A) : result (list B) :=
  match l with
  | [] => Ok []
  | a :: l' =>
      match f a with
      | Ok b => match collect f l' with
                | Ok bs => Ok (b :: bs)
                | Err e => Err e
                end
      | Err e => Err e
      end
  end.

Definition field_pairs (attr_size : Z) : list (Z * Z) :=
  flat_map (fun i => map (fun j => (i, j)) (py_range (i + 1) attr_size))
           (py_range 0 attr_size).

Definition element_wise_prod_list (uattr_emb : tensor) (attr_size : Z)
    : result (list tensor) :=
  collect (fun '(i, j) =>
             match slice_axis1 uattr_emb i, slice_axis1 uattr_emb j with
             | Ok a, Ok b => tf_multiply a b
             | Err e, _ => Err e
             | _, Err e => Err e
             end)
          (field_pairs attr_size).

(** [attentional_fm(name_scope, input_features, emb_dim, feat_size,
    hid_rep_dim, attr_size, is_training, dropout_keep)] *)
Definition attentional_fm (name_scope : string) (input_features : itensor)
    (emb_dim feat_size hid_rep_dim : nat) (attr_size : Z)
    (is_training : bool) (dropout_keep : option Q) : tf (tensor * tensor) :=
  embedding_mat <- get_embeddings feat_size emb_dim name_scope true ;;
  uattr_emb <- lift (tf_nn_embedding_lookup embedding_mat input_features) ;;
  attn_W <- get_variable (String.append name_scope "/attention_W")
                         [emb_dim; hid_rep_dim] false ;;
  attn_p <- get_variable (String.append name_scope "/attention_p")
                         [hid_rep_dim] false ;;
  attn_b <- get_variable (String.append name_scope "/attention_b")
                         [hid_rep_dim] false ;;
  prods <- lift (element_wise_prod_list uattr_emb attr_size) ;;
  element_wise_prod <- lift (tf_stack prods 1) ;;
  interactions <- lift (tf_reduce_sum element_wise_prod 2 false) ;;
  let num_interactions := py_div python (attr_size * (attr_size - 1)) 2 in
  (* attentional part *)
  flat <- lift (tf_reshape element_wise_prod [PyInt (-1); PyInt (Z.of_nat emb_dim)]) ;;
  prod_W <- lift (tf_matmul flat attn_W false) ;;
  attn_mul <- lift (tf_reshape prod_W
                      [PyInt (-1); num_interactions; PyInt (Z.of_nat hid_rep_dim)]) ;;
  pre <- lift (tf_add attn_mul attn_b) ;;
  weighted <- lift (tf_multiply attn_p (tf_nn_relu pre)) ;;
  attn_relu <- lift (tf_reduce_sum weighted 2 true) ;;
  attn_out <- lift (tf_nn_softmax attn_relu (-1)) ;;
  scaled <- lift (tf_multiply attn_out element_wise_prod) ;;
  afm <- lift (tf_reduce_sum scaled 1 false) ;;
  afm <- (if truthy_float dropout_keep
          then tf_layers_dropout afm (match dropout_keep with
                                      | Some q => q
                                      | None => 0
                                      end) is_training
          else ret afm) ;;
  let attn_out := tf_squeeze attn_out in
  ret (afm, attn_out).

(** [centroid(input_features, n_centroid, emb_size, tao, name_scope,
    var_name, activation)] *)
Definition centroid (input_features : tensor) (n_centroid emb_size : nat)
    (tao : Q) (name_scope var_name : string) (activation : option string)
    : tf (tensor * tensor) :=
  centroids <- get_variable (String.append name_scope (String.append "/" var_name))
                            [n_centroid; emb_size] true ;;
  ft_mul <- lift (tf_matmul input_features centroids true) ;;
  ft_mul <- (if truthy_string activation then
               activation_func <- lift (get_activation_func
                                          (match activation with
                                           | Some a => a
                                           | None => EmptyString
                                           end)) ;;
               lift (activation_func ft_mul)
             else ret ft_mul) ;;
  scaled <- lift (tf_truediv ft_mul (scalar (Q2R tao))) ;;
  logits <- lift (tf_nn_softmax scaled (-1)) ;;
  output <- lift (tf_matmul logits centroids false) ;;
  ret (output, logits).

(** [gat_attn_head(input_indices, emb_lookup, output_size, bias_mat,
    activation, is_training, head_id, ft_drop, coef_drop)] *)
Definition gat_attn_head (input_indices : itensor) (emb_lookup : tensor)
    (output_size : nat) (bias_mat : tensor) (activation : tensor -> tensor)
    (is_training : bool) (head_id : nat) (ft_drop coef_drop : Q)
    : tf (tensor * tensor) :=
  emb_lookup <- (if float_nonzero ft_drop
                 then tf_layers_dropout emb_lookup ft_drop is_training
                 else ret emb_lookup) ;;
  hid_emb_lookup <- tf_layers_dense emb_lookup output_size None false None ;;
  b_hid_emb <- lift (tf_nn_embedding_lookup hid_emb_lookup input_indices) ;;
  f_1 <- tf_layers_dense b_hid_emb 1 None true None ;;
  f_2 <- tf_layers_dense hid_emb_lookup 1 None true None ;;
  f_2t <- lift (tf_transpose f_2 [0; 2; 1]) ;;
  logits <- lift (tf_add f_1 f_2t) ;;
  masked <- lift (tf_add (tf_nn_leaky_relu logits) bias_mat) ;;
  coefs <- lift (tf_nn_softmax masked (-1)) ;;
  coefs <- (if float_nonzero coef_drop
            then tf_layers_dropout coefs coef_drop is_training
            else ret coefs) ;;
  hid_emb_lookup <- (if float_nonzero ft_drop
                     then tf_layers_dropout hid_emb_lookup ft_drop is_training
                     else ret hid_emb_lookup) ;;
  vals <- lift (tf_matmul coefs hid_emb_lookup false) ;;
  biased <- tf_contrib_layers_bias_add vals ;;
  let ret_ := activation biased in
  ret (ret_, coefs).

(** First statement of [gatnet]: the additive mask
    [-1e9 * (1 - tf.cast(adj_mat, tf.float32))]. *)
Definition gatnet_bias_mat (adj_mat : itensor) : tf tensor :=
  one_minus <- lift (tf_subtract (scalar 1) (tf_cast adj_mat)) ;;
  lift (tf_multiply (scalar (-1000000000)) one_minus).

Fixpoint gatnet_heads (input_indices : itensor) (embedding_mat bias_mat : tensor)
    (hid_rep_dim : nat) (is_training : bool) (ft_drop attn_drop : Q)
    (heads : list nat) : tf (list tensor * list tensor) :=
  match heads with
  | [] => ret ([], [])
  | i :: rest =>
      '(hid_feature, attn) <-
         gat_attn_head input_indices embedding_mat hid_rep_dim bias_mat
           tf_nn_relu is_training i ft_drop attn_drop ;;
      '(hidden_features, attns) <-
         gatnet_heads input_indices embedding_mat bias_mat hid_rep_dim
           is_training ft_drop attn_drop rest ;;
      ret (hid_feature :: hidden_features, attn :: attns)
  end.

(** [gatnet(name_scope, embedding_mat, adj_mat, input_indices, hid_rep_dim,
    is_training, n_heads, ft_drop, attn_drop)] *)
Definition gatnet (name_scope : string) (embedding_mat : tensor)
    (adj_mat input_indices : itensor) (hid_rep_dim : nat) (is_training : bool)
    (n_heads : nat) (ft_drop attn_drop : Q) : tf (tensor * list tensor) :=
  bias_mat <- gatnet_bias_mat adj_mat ;;
  '(hidden_features, attns) <-
     gatnet_heads input_indices embedding_mat bias_mat hid_rep_dim
       is_training ft_drop attn_drop (seq 0 n_heads) ;;
  h_1 <- lift (tf_concat hidden_features (-1)) ;;
  logits <- tf_layers_conv1d_k1 h_1 hid_rep_dim ;;
  ret (logits, attns).

(** [centroid_corr(centroid_mat, name_scope)] *)
Definition centroid_corr (centroid_mat : tensor) (name_scope : string) : tf tensor :=
  prod <- lift (tf_matmul centroid_mat centroid_mat true) ;;
  let numerator := tf_square prod in
  row_sqr_sum <- lift (tf_reduce_sum (tf_square centroid_mat) 1 true) ;;
  let rss_sqrt := tf_sqrt row_sqr_sum in
  denominator <- lift (tf_matmul rss_sqrt rss_sqrt true) ;;
  corr_cost <- lift (tf_truediv numerator denominator) ;;
  ret corr_cost.

End Builders.

(** ** Vocabulary of the statements *)

Definition is_ok {A} (r : result A) : bool :=
  match r with
  | Ok _ => true
  | Err _ => false
  end.

(** An activation choice is admissible when it is absent or empty (no
    activation is applied), or when [get_activation_func] knows it and the
    function it returns maps a tensor to a tensor of the same shape. *)
Definition admissible_activation
    (get_activation_func : string -> result (tensor -> result tensor))
    (activation : option string) : Prop :=
  truthy_string activation = true ->
  exists f,
    get_activation_func (match activation with Some a => a | None => EmptyString end)
    = Ok f /\
    forall t, exists t', f t = Ok t' /\ shape t' = shape t.

(** Last character of a string ([d] when empty). *)
Fixpoint last_char (s : string) (d : ascii) : ascii :=
  match s with
  | EmptyString => d
  | String c s' => last_char s' c
  end.

(** Names of the variables owned by the dense layers [prefix ++ j]. *)
Definition layer_suffix (sfx : string) : Prop := sfx = "/kernel" \/ sfx = "/bias".

Definition layer_variable (prefix name : string) : Prop :=
  exists j sfx, layer_suffix sfx /\
    name = String.append (String.append prefix (string_of_nat j)) sfx.

(** Number of unordered pairs among [k] fields. *)
Fixpoint n_pairs (k : nat) : nat :=
  match k with
  | O => 0
  | S k' => k' + n_pairs k'
  end.


(** The variables that layers create under default (uniquified) scopes:
    [dense/kernel], [dense_1/bias], [BiasAdd_2/biases], [conv1d/kernel], ... *)
Inductive default_var : Type :=
| DenseKernel
| DenseBias
| BiasAddBiases
| Conv1dKernel.

Definition var_base (v : default_var) : string :=
  match v with
  | DenseKernel | DenseBias => "dense"
  | BiasAddBiases => "BiasAdd"
  | Conv1dKernel => "conv1d"
  end.

Definition var_suffix (v : default_var) : string :=
  match v with
  | DenseKernel | Conv1dKernel => "/kernel"
  | DenseBias => "/bias"
  | BiasAddBiases => "/biases"
  end.

(** The c-th default scope name for [base]: [base], [base_1], [base_2], ... *)
Definition scope_name (base : string) (c : nat) : string :=
  if c =? 0 then base
  else String.append base (String.append "_" (string_of_nat c)).

Definition default_var_name (v : default_var) (c : nat) : string :=
  String.append (scope_name (var_base v) c) (var_suffix v).

Definition scope_count (g : graph) (base : string) : nat :=
  match lookup base (scope_counts g) with
  | Some c => c
  | None => 0
  end.

(** No variable of a default scope that is still to be handed out is in the
    store. *)
Definition fresh_above (g : graph) : Prop :=
  forall v j, scope_count g (var_base v) <= j ->
    lookup (default_var_name v j) (variables g) = None.

(** ** Sample inputs *)

(** Every variable initialised to ones; a dropout mask that keeps every
    entry; an activation table that resolves every name to ReLU. *)
Definition ones_init : string -> Shape -> Index -> R := fun _ _ _ => 1%R.
Definition keep_all : nat -> Index -> bool := fun _ _ => true.
Definition relu_table : string -> result (tensor -> result tensor) :=
  fun _ => Ok (fun t => Ok (tf_nn_relu t)).

Definition ones (s : Shape) : tensor := Tensor s (fun _ => 1%R).
Definition iconst (s : Shape) (z : Z) : itensor := ITensor s (fun _ => z).

(** A tensor whose entries spell their own index in decimal digits:
    entry (1, 2, 3) is 123. *)
Fixpoint index_code (idx : Index) : Z :=
  match idx with
  | [] => 0%Z
  | i :: r => (Z.of_nat i * 10 ^ Z.of_nat (length r) + index_code r)%Z
  end.

Definition index_tensor (s : Shape) : tensor :=
  Tensor s (fun idx => IZR (index_code idx)).

Definition shape_of (r : result tensor) : option Shape :=
  match r with
  | Ok t => Some (shape t)
  | Err _ => None
  end.

Definition value_of (r : result tensor) (idx : Index) : option R :=
  match r with
  | Ok t => Some (val t idx)
  | Err _ => None
  end.

(** The adjacency matrix [[1, 0, 1], [0, 1, 1]]: two queries, three nodes. *)
Definition adj_2x3 : itensor :=
  ITensor [2; 3] (fun idx => match idx with
                             | [0; 1] => 0%Z
                             | [1; 0] => 0%Z
                             | _ => 1%Z
                             end).

(** The single centroid (2, 0). *)
Definition centroid_2_0 : tensor :=
  Tensor [1; 2] (fun idx => match idx with
                            | [0; 0] => 2%R
                            | _ => 0%R
                            end).



(** * Properties *)

(** ** The operations on small inputs *)

Example tf_transpose_021 :
  shape_of (tf_transpose (index_tensor [2; 3; 4]) [0; 2; 1]) = Some [2; 4; 3] /\
  value_of (tf_transpose (index_tensor [2; 3; 4]) [0; 2; 1]) [1; 3; 2] = Some (IZR 123).
Proof. split; reflexivity. Qed.

Example tf_transpose_rank_mismatch :
  tf_transpose (index_tensor [3; 1]) [0; 2; 1] = Err (ValueError "transpose").
Proof. reflexivity. Qed.

Example tf_reshape_rows :
  shape_of (tf_reshape (index_tensor [2; 3; 4]) [PyInt (-1); PyInt 4]) = Some [6; 4] /\
  value_of (tf_reshape (index_tensor [2; 3; 4]) [PyInt (-1); PyInt 4]) [5; 2]
  = Some (IZR 122).
Proof. split; reflexivity. Qed.

Example tf_reshape_float_dim :
  tf_reshape (index_tensor [6; 4]) [PyInt (-1); py_div Python3 6 2; PyInt 4]
  = Err (TypeError "reshape").
Proof. reflexivity. Qed.

Example tf_stack_axis1 :
  shape_of (tf_stack [index_tensor [2; 4]; tf_zeros [2; 4]; index_tensor [2; 4]] 1)
  = Some [2; 3; 4] /\
  value_of (tf_stack [index_tensor [2; 4]; tf_zeros [2; 4]; index_tensor [2; 4]] 1)
           [1; 2; 3] = Some (IZR 13) /\
  tf_stack [] 1 = Err (IndexError "stack").
Proof. repeat split; reflexivity. Qed.

Example tf_squeeze_units :
  shape (tf_squeeze (index_tensor [2; 1; 3; 1])) = [2; 3] /\
  val (tf_squeeze (index_tensor [2; 1; 3; 1])) [1; 2] = IZR 1020.
Proof. split; reflexivity. Qed.

Example broadcast_shape_examples :
  broadcast_shape [2; 3; 1] [1; 1; 4] = Some [2; 3; 4] /\
  broadcast_shape [2; 3; 4] [4] = Some [2; 3; 4] /\
  broadcast_shape [2; 3; 4] [3] = None /\
  bidx [2; 3; 1] [1; 2; 3] = [1; 2; 0].
Proof. repeat split; reflexivity. Qed.

Example tf_matmul_transpose_b :
  value_of (tf_matmul (index_tensor [2; 2]) (index_tensor [3; 2]) true) [1; 2]
  = Some (0 + IZR 10 * IZR 20 + IZR 11 * IZR 21)%R.
Proof. reflexivity. Qed.

Example field_pairs_4 :
  field_pairs 4 = [(0, 1); (0, 2); (0, 3); (1, 2); (1, 3); (2, 3)]%Z.
Proof. reflexivity. Qed.

(** ** Running graph-building computations *)

Lemma bind_Ok {A B} (m : tf A) (f : A -> tf B) g r :
  bind m f g = Ok r -> exists a g1, m g = Ok (a, g1) /\ f a g1 = Ok r.
Proof.
  unfold bind. destruct (m g) as [[a g1]|e]; [|discriminate].
  intros H. exists a, g1. split; [reflexivity|exact H].
Qed.

Lemma bind_Ok_intro {A B} (m : tf A) (f : A -> tf B) g a g1 :
  m g = Ok (a, g1) -> bind m f g = f a g1.
Proof. unfold bind. intros ->. reflexivity. Qed.

Lemma lift_Ok {A} (r : result A) g a g' :
  lift r g = Ok (a, g') -> r = Ok a /\ g' = g.
Proof.
  unfold lift. destruct r; [|discriminate].
  intros H. inversion H. split; reflexivity.
Qed.

Lemma ret_Ok {A} (a b : A) g g' :
  ret a g = Ok (b, g') -> b = a /\ g' = g.
Proof. unfold ret. intros H. inversion H. split; reflexivity. Qed.

(** Peel one step off a successful run. *)
Ltac tf_step H :=
  let a := fresh "t" in
  let g1 := fresh "g" in
  let H1 := fresh "Hstep" in
  apply bind_Ok in H; destruct H as (a & g1 & H1 & H).

Tactic Notation "tf_inv" hyp(H) "as" ident(a) ident(g1) ident(H1) :=
  apply bind_Ok in H; destruct H as (a & g1 & H1 & H).


(** A closed run that evaluates to [Ok] is not an error. *)
Ltac run_is_ok Hrun :=
  exfalso;
  match type of Hrun with
  | ?run = Err _ =>
      let Hok := fresh "Hok" in
      assert (Hok : is_ok run = true) by (vm_compute; reflexivity);
      rewrite Hrun in Hok; discriminate Hok
  end.

Tactic Notation "lift_inv" hyp(H) :=
  apply lift_Ok in H; destruct H as [H ->].

(** ** Sums *)

Lemma sumR_ext n f g :
  (forall j, j < n -> f j = g j) -> sumR n f = sumR n g.
Proof.
  induction n as [|n IH]; intros H; simpl; [reflexivity|].
  rewrite IH by (intros; apply H; lia). rewrite H by lia. reflexivity.
Qed.

Lemma sumR_one f : sumR 1 f = f 0.
Proof. simpl. lra. Qed.

Lemma sumR_div n f c : sumR n (fun j => (f j / c)%R) = (sumR n f / c)%R.
Proof.
  induction n as [|n IH]; simpl.
  - unfold Rdiv. lra.
  - rewrite IH. unfold Rdiv. lra.
Qed.

Lemma sumR_nonneg n f : (forall j, j < n -> (0 <= f j)%R) -> (0 <= sumR n f)%R.
Proof.
  induction n as [|n IH]; intros H; simpl; [lra|].
  assert (0 <= sumR n f)%R by (apply IH; intros; apply H; lia).
  assert (0 <= f n)%R by (apply H; lia). lra.
Qed.

Lemma sumR_pos n f :
  0 < n -> (forall j, j < n -> (0 < f j)%R) -> (0 < sumR n f)%R.
Proof.
  intros Hn H. destruct n as [|n]; [lia|]. simpl.
  assert (0 <= sumR n f)%R.
  { apply sumR_nonneg. intros j Hj. apply Rlt_le, H. lia. }
  assert (0 < f n)%R by (apply H; lia). lra.
Qed.

Lemma sumR_zero_iff n f :
  (forall j, j < n -> (0 <= f j)%R) ->
  sumR n f = 0%R <-> (forall j, j < n -> f j = 0%R).
Proof.
  induction n as [|n IH]; intros Hpos; simpl.
  - split; [intros _ j Hj; lia | reflexivity].
  - assert (Hs : (0 <= sumR n f)%R) by (apply sumR_nonneg; intros; apply Hpos; lia).
    assert (Hn : (0 <= f n)%R) by (apply Hpos; lia).
    split.
    + intros H j Hj.
      assert (Hz : sumR n f = 0%R) by lra.
      destruct (Nat.eq_dec j n) as [->|Hne]; [lra|].
      apply IH; [intros; apply Hpos; lia | exact Hz | lia].
    + intros H. rewrite (proj2 (IH (fun j Hj => Hpos j (Nat.lt_lt_succ_r _ _ Hj)))).
      * rewrite H by lia. lra.
      * intros j Hj. apply H. lia.
Qed.



(** ** Indices and broadcasting *)

Lemma valid_index_length s idx : valid_index s idx -> length idx = length s.
Proof. intros H. induction H; simpl; congruence. Qed.

Lemma valid_index_app s1 s2 i1 i2 :
  valid_index s1 i1 -> valid_index s2 i2 -> valid_index (s1 ++ s2) (i1 ++ i2).
Proof. intros H1 H2. induction H1; simpl; [assumption|constructor; assumption]. Qed.

Lemma valid_index_rev s idx : valid_index s idx -> valid_index (rev s) (rev idx).
Proof.
  intros H. induction H; simpl; [constructor|].
  apply valid_index_app; [assumption|]. constructor; [assumption|constructor].
Qed.

Lemma set_at_set_at {A} k (x y : A) l :
  k <= length l -> set_at k x (set_at k y l) = set_at k x l.
Proof.
  intros Hk. unfold set_at.
  assert (Hlen : length (firstn k l) = k) by (rewrite length_firstn; lia).
  rewrite firstn_app, Hlen, Nat.sub_diag, firstn_O, app_nil_r.
  rewrite firstn_all2 by lia.
  rewrite skipn_app, Hlen.
  replace (S k - k) with 1 by lia.
  rewrite skipn_all2 by lia. reflexivity.
Qed.

Lemma set_at_nth {A} k (l : list A) d :
  k < length l -> set_at k (nth k l d) l = l.
Proof.
  revert l. induction k as [|k IH]; intros [|a l] Hk; simpl in *; try lia.
  - reflexivity.
  - unfold set_at in *. simpl. f_equal. apply IH. lia.
Qed.

Lemma bidx_rev_valid r ridx : valid_index r ridx -> bidx_rev r ridx = ridx.
Proof.
  intros H. induction H as [|i d ridx r Hi _ IH]; simpl; [reflexivity|].
  rewrite IH. destruct (Nat.eqb_spec d 1) as [->|_]; [|reflexivity].
  f_equal. lia.
Qed.

(** An operand that already has the result's shape is read in place. *)
Lemma bidx_valid s idx : valid_index s idx -> bidx s idx = idx.
Proof.
  intros H. unfold bidx.
  rewrite bidx_rev_valid by (apply valid_index_rev; exact H).
  apply rev_involutive.
Qed.

Lemma broadcast_rev_nil_r r : broadcast_rev r [] = Some r.
Proof. destruct r; reflexivity. Qed.

Lemma broadcast_shape_nil_l s : broadcast_shape [] s = Some s.
Proof. unfold broadcast_shape. simpl. rewrite rev_involutive. reflexivity. Qed.

Lemma broadcast_shape_nil_r s : broadcast_shape s [] = Some s.
Proof.
  unfold broadcast_shape. simpl. rewrite broadcast_rev_nil_r. simpl.
  rewrite rev_involutive. reflexivity.
Qed.

Lemma broadcast_rev_same r : broadcast_rev r r = Some r.
Proof.
  induction r as [|a r IH]; simpl; [reflexivity|].
  rewrite IH, Nat.eqb_refl. reflexivity.
Qed.

Lemma broadcast_shape_same s : broadcast_shape s s = Some s.
Proof.
  unfold broadcast_shape. rewrite broadcast_rev_same. simpl.
  rewrite rev_involutive. reflexivity.
Qed.

Lemma broadcast_rev_length r1 r2 r :
  broadcast_rev r1 r2 = Some r -> length r = Nat.max (length r1) (length r2).
Proof.
  revert r2 r. induction r1 as [|a r1 IH]; intros r2 r H.
  - simpl in H. inversion H. reflexivity.
  - destruct r2 as [|b r2].
    + simpl in H. inversion H. reflexivity.
    + simpl in H. destruct (broadcast_rev r1 r2) as [r'|] eqn:E; [|discriminate].
      specialize (IH _ _ E).
      destruct (a =? b); [inversion H; simpl; lia|].
      destruct (a =? 1); [inversion H; simpl; lia|].
      destruct (b =? 1); [inversion H; simpl; lia|discriminate].
Qed.

Lemma broadcast_shape_length s1 s2 s :
  broadcast_shape s1 s2 = Some s -> length s = Nat.max (length s1) (length s2).
Proof.
  unfold broadcast_shape. intros H.
  destruct (broadcast_rev (rev s1) (rev s2)) as [r|] eqn:E; [|discriminate].
  simpl in H. inversion H. rewrite length_rev.
  rewrite (broadcast_rev_length _ _ _ E), !length_rev. reflexivity.
Qed.

Lemma tf_binop_Ok op f a b t :
  tf_binop op f a b = Ok t ->
  broadcast_shape (shape a) (shape b) = Some (shape t) /\
  forall idx, val t idx = f (val a (bidx (shape a) idx)) (val b (bidx (shape b) idx)).
Proof.
  unfold tf_binop. destruct (broadcast_shape (shape a) (shape b)); [|discriminate].
  intros H. inversion H. simpl. split; reflexivity.
Qed.

Lemma tf_binop_same_shape op f a b :
  shape a = shape b ->
  exists t, tf_binop op f a b = Ok t /\ shape t = shape a /\
            forall idx, valid_index (shape a) idx ->
                        val t idx = f (val a idx) (val b idx).
Proof.
  intros Hs. unfold tf_binop. rewrite <- Hs, broadcast_shape_same.
  eexists. split; [reflexivity|]. split; [reflexivity|].
  intros idx Hv. simpl. rewrite bidx_valid by exact Hv. reflexivity.
Qed.

(** ** Normalisation by softmax *)

Lemma norm_axis_lt axis r k : norm_axis axis r = Some k -> k < r.
Proof.
  unfold norm_axis. destruct (Z.leb_spec 0 axis).
  - destruct (Nat.ltb_spec (Z.to_nat axis) r); [|discriminate].
    intros H'. inversion H'. subst. assumption.
  - destruct (Z.leb_spec (- Z.of_nat r) axis); [|discriminate].
    intros H'. inversion H'. lia.
Qed.

Lemma norm_axis_last r : 0 < r -> norm_axis (-1) r = Some (r - 1).
Proof.
  intros Hr. unfold norm_axis. simpl.
  destruct (Z.leb_spec (- Z.of_nat r) (-1)); [|lia].
  f_equal. lia.
Qed.

(** Along the normalised axis the entries of a softmax add up to one. *)
Lemma softmax_sums_to_one t axis s k idx :
  tf_nn_softmax t axis = Ok s ->
  norm_axis axis (rank t) = Some k ->
  k <= length idx ->
  0 < nth k (shape t) 0 ->
  sumR (nth k (shape t) 0) (fun j => val s (set_at k j idx)) = 1%R.
Proof.
  unfold tf_nn_softmax. intros H Hk Hlen Hn. rewrite Hk in H.
  inversion H; subst; clear H. simpl.
  set (n := nth k (shape t) 0) in *.
  rewrite (sumR_ext n _
    (fun j => (exp (val t (set_at k j idx))
               / sumR n (fun j' => exp (val t (set_at k j' idx))))%R)).
  - rewrite sumR_div. apply Rdiv_diag.
    apply Rgt_not_eq, Rlt_gt, sumR_pos; [exact Hn|].
    intros j _. apply exp_pos.
  - intros j _. f_equal. apply sumR_ext. intros j' _.
    rewrite set_at_set_at by exact Hlen. reflexivity.
Qed.

Lemma softmax_shape t axis s : tf_nn_softmax t axis = Ok s -> shape s = shape t.
Proof.
  unfold tf_nn_softmax. destruct (norm_axis axis (rank t)); [|discriminate].
  intros H. inversion H. reflexivity.
Qed.

(** ** The adjacency mask of [gatnet] *)

(** C9: the additive bias mask that [gatnet] hands to every attention head is
    [-1e9 * (1 - adj)], computed entry by entry from the adjacency matrix: a
    non-edge (0) becomes -1e9 and an edge (1) becomes 0. *)
Theorem gatnet_bias_mat_from_adjacency (adj_mat : itensor) (g : graph) :
  exists bias_mat,
    gatnet_bias_mat adj_mat g = Ok (bias_mat, g) /\
    shape bias_mat = ishape adj_mat /\
    (forall idx, valid_index (ishape adj_mat) idx ->
       val bias_mat idx = (-1000000000 * (1 - IZR (ival adj_mat idx)))%R /\
       (ival adj_mat idx = 0%Z -> val bias_mat idx = (-1000000000)%R) /\
       (ival adj_mat idx = 1%Z -> val bias_mat idx = 0%R)) /\
    (forall initial_value keep_mask name_scope embedding_mat input_indices
            hid_rep_dim is_training n_heads ft_drop attn_drop,
       gatnet initial_value keep_mask name_scope embedding_mat adj_mat
              input_indices hid_rep_dim is_training n_heads ft_drop attn_drop g
       = ('(hidden_features, attns) <-
             gatnet_heads initial_value keep_mask input_indices embedding_mat
               bias_mat hid_rep_dim is_training ft_drop attn_drop (seq 0 n_heads) ;;
          h_1 <- lift (tf_concat hidden_features (-1)) ;;
          logits <- tf_layers_conv1d_k1 initial_value h_1 hid_rep_dim ;;
          ret (logits, attns)) g).
Proof.
  assert (Hrun : exists b, gatnet_bias_mat adj_mat g = Ok (b, g) /\
            shape b = ishape adj_mat /\
            forall idx, valid_index (ishape adj_mat) idx ->
              val b idx = (-1000000000 * (1 - IZR (ival adj_mat idx)))%R).
  { unfold gatnet_bias_mat, bind, lift, tf_subtract, tf_multiply, tf_binop.
    cbn [shape scalar tf_cast]. rewrite broadcast_shape_nil_l.
    cbn [shape]. rewrite broadcast_shape_nil_l.
    eexists. split; [reflexivity|]. split; [reflexivity|].
    intros idx Hv. cbn [val shape scalar tf_cast].
    rewrite !(bidx_valid _ _ Hv). reflexivity. }
  destruct Hrun as (b & Hb & Hs & Hval).
  exists b. split; [exact Hb|]. split; [exact Hs|]. split.
  - intros idx Hv. rewrite (Hval idx Hv). split; [reflexivity|]. split.
    + intros ->. lra.
    + intros ->. lra.
  - intros. unfold gatnet. rewrite (bind_Ok_intro _ _ _ _ _ Hb). reflexivity.
Qed.

(** On [[1, 0, 1], [0, 1, 1]] the mask is [[0, -1e9, 0], [-1e9, 0, 0]]. *)
Lemma gatnet_bias_mat_from_adjacency_witness :
  exists bias_mat,
    gatnet_bias_mat adj_2x3 empty_graph = Ok (bias_mat, empty_graph) /\
    shape bias_mat = [2; 3] /\
    val bias_mat [0; 0] = 0%R /\ val bias_mat [0; 1] = (-1000000000)%R /\
    val bias_mat [1; 0] = (-1000000000)%R /\ val bias_mat [1; 2] = 0%R.
Proof.
  destruct (gatnet_bias_mat_from_adjacency adj_2x3 empty_graph)
    as (bias & Hrun & Hs & Hval & _).
  exists bias. split; [exact Hrun|]. split; [exact Hs|].
  assert (Hv : forall i j, i < 2 -> j < 3 -> valid_index (ishape adj_2x3) [i; j]).
  { intros i j Hi Hj. constructor; [exact Hi|].
    constructor; [exact Hj|constructor]. }
  repeat split.
  - apply (Hval [0; 0]); [apply Hv; lia|reflexivity].
  - apply (Hval [0; 1]); [apply Hv; lia|reflexivity].
  - apply (Hval [1; 0]); [apply Hv; lia|reflexivity].
  - apply (Hval [1; 2]); [apply Hv; lia|reflexivity].
Defined.

(** ** The embedding table *)

Lemma shape_eqb_eq s1 s2 : shape_eqb s1 s2 = true <-> s1 = s2.
Proof.
  revert s2. induction s1 as [|a s1 IH]; intros [|b s2]; simpl;
    try (split; [discriminate|congruence]); [tauto|].
  rewrite andb_true_iff, Nat.eqb_eq, IH.
  split; [intros [-> ->]; reflexivity | intros H; inversion H; auto].
Qed.

Lemma shape_eqb_refl s : shape_eqb s s = true.
Proof. apply shape_eqb_eq. reflexivity. Qed.

Lemma get_variable_Ok iv name shp reuse g v g' :
  get_variable iv name shp reuse g = Ok (v, g') -> shape v = shp.
Proof.
  unfold get_variable. destruct (lookup name (variables g)) as [w|].
  - destruct reuse; [|discriminate].
    destruct (shape_eqb (shape w) shp) eqn:E; [|discriminate].
    intros H. inversion H; subst. apply shape_eqb_eq. exact E.
  - intros H. inversion H. reflexivity.
Qed.

(** Once a variable is in the store, an auto-reusing scope hands it back and
    leaves the store alone. *)
Lemma get_variable_reuse_again iv name shp g v g' :
  get_variable iv name shp true g = Ok (v, g') ->
  get_variable iv name shp true g' = Ok (v, g').
Proof.
  unfold get_variable. destruct (lookup name (variables g)) as [w|] eqn:L.
  - destruct (shape_eqb (shape w) shp) eqn:E; [|discriminate].
    intros H. inversion H; subst. rewrite L, E. reflexivity.
  - intros H. inversion H; subst. cbn [variables with_variables lookup].
    rewrite String.eqb_refl. cbn [shape]. rewrite shape_eqb_refl. reflexivity.
Qed.

(** What the zero-padding branch builds from a [(V, d)] variable. *)
Lemma zero_pad_table (embeddings : tensor) V d :
  shape embeddings = [V; d] ->
  exists t,
    (rest <- lift (slice_from1 embeddings) ;;
     lift (tf_concat [tf_zeros [1; d]; rest] 0)) =
    (fun g => Ok (t, g)) /\
    shape t = [1 + (V - 1); d] /\
    (forall j, val t [0; j] = 0%R).
Proof.
  intros Hs. unfold slice_from1. rewrite Hs.
  unfold bind, lift, tf_concat. cbn [rank shape tf_zeros length norm_axis].
  cbn -[Nat.eqb].
  rewrite !Nat.eqb_refl. cbn.
  eexists. split; [reflexivity|]. split; [cbn; f_equal; lia|].
  intros j. reflexivity.
Qed.

(** The rows of a returned table. *)
Lemma get_embeddings_shape_of_run initial_value V d name_scope zero_pad g t g' :
  get_embeddings initial_value V d name_scope zero_pad g = Ok (t, g') ->
  shape t = [if zero_pad then 1 + (V - 1) else V; d].
Proof.
  intros H. unfold get_embeddings in H. tf_step H.
  apply get_variable_Ok in Hstep.
  destruct zero_pad.
  - destruct (zero_pad_table t0 V d Hstep) as (u & Hu & Hsu & _).
    rewrite Hu in H. inversion H; subst. exact Hsu.
  - apply ret_Ok in H. destruct H; subst. exact Hstep.
Qed.

Lemma get_embeddings_returns initial_value V d name_scope zero_pad g :
  (forall v, lookup (String.append name_scope "/embedding_matrix") (variables g)
             = Some v -> shape v = [V; d]) ->
  exists t g', get_embeddings initial_value V d name_scope zero_pad g = Ok (t, g').
Proof.
  intros Hstore. unfold get_embeddings, bind at 1, get_variable.
  destruct (lookup (String.append name_scope "/embedding_matrix") (variables g))
    as [w|] eqn:L.
  - rewrite (Hstore w eq_refl), shape_eqb_refl.
    destruct zero_pad; [|eexists; eexists; reflexivity].
    destruct (zero_pad_table w V d (Hstore w eq_refl)) as (u & Hu & _).
    rewrite Hu. eauto.
  - destruct zero_pad; [|eexists; eexists; reflexivity].
    destruct (zero_pad_table
                (Tensor [V; d]
                   (initial_value (String.append name_scope "/embedding_matrix") [V; d]))
                V d eq_refl) as (u & Hu & _).
    rewrite Hu. eauto.
Qed.

(** C5, on the code: for vocabulary size V (at least 1) and dimension d,
    [get_embeddings] returns (whenever its variable is absent from the store
    or present with shape (V, d)) a table with V rows and d columns, with or
    without zero padding: not the (V+1)-row table announced by the
    docstring. *)
Theorem get_embeddings_shape initial_value V d name_scope zero_pad g :
  1 <= V ->
  (forall v, lookup (String.append name_scope "/embedding_matrix") (variables g)
             = Some v -> shape v = [V; d]) ->
  exists t g',
    get_embeddings initial_value V d name_scope zero_pad g = Ok (t, g') /\
    shape t = [V; d] /\ shape t <> [V + 1; d].
Proof.
  intros HV Hstore.
  destruct (get_embeddings_returns initial_value V d name_scope zero_pad g Hstore)
    as (t & g' & Hrun).
  exists t, g'. split; [exact Hrun|].
  apply get_embeddings_shape_of_run in Hrun.
  assert (Hs : shape t = [V; d]).
  { rewrite Hrun. destruct zero_pad; f_equal; lia. }
  split; [exact Hs|]. rewrite Hs. intros E. inversion E. lia.
Qed.

(** The 3-word, 2-dimensional table on a fresh graph: three rows. *)
Lemma get_embeddings_shape_witness :
  exists t g',
    get_embeddings ones_init 3 2 "afm" true empty_graph = Ok (t, g') /\
    shape t = [3; 2] /\ shape t <> [3 + 1; 2].
Proof.
  apply (get_embeddings_shape ones_init 3 2 "afm" true empty_graph).
  - lia.
  - simpl. discriminate.
Defined.

(** C6: with zero padding, every call of [get_embeddings] that can obtain its
    variable (absent from the store, or present with the requested shape)
    returns a table whose row 0 is the zero vector, for every vocabulary size
    and dimension; looking up id 0 yields zeros; and a further call on the
    resulting graph returns such a table again without touching the store. *)
Theorem get_embeddings_zero_row initial_value V d name_scope g :
  (forall v, lookup (String.append name_scope "/embedding_matrix") (variables g)
             = Some v -> shape v = [V; d]) ->
  exists t g',
    get_embeddings initial_value V d name_scope true g = Ok (t, g') /\
    shape t = [1 + (V - 1); d] /\
    (forall j, j < d -> val t [0; j] = 0%R) /\
    (forall ids idx,
       ival ids (firstn (length (ishape ids)) idx) = 0%Z ->
       length idx = length (ishape ids) + 1 ->
       exists u, tf_nn_embedding_lookup t ids = Ok u /\ val u idx = 0%R) /\
    (exists t2,
       get_embeddings initial_value V d name_scope true g' = Ok (t2, g') /\
       shape t2 = shape t /\
       forall j, j < d -> val t2 [0; j] = 0%R).
Proof.
  intros Hstore.
  assert (Hvar : exists v g', get_variable initial_value
                   (String.append name_scope "/embedding_matrix") [V; d] true g
                 = Ok (v, g')).
  { unfold get_variable.
    destruct (lookup (String.append name_scope "/embedding_matrix") (variables g))
      as [w|] eqn:L.
    - rewrite (Hstore w eq_refl), shape_eqb_refl. eauto.
    - eauto. }
  destruct Hvar as (v & g' & Hv).
  pose proof (get_variable_Ok _ _ _ _ _ _ _ Hv) as Hsv.
  destruct (zero_pad_table v V d Hsv) as (t & Ht & Hst & Hrow).
  exists t, g'.
  assert (Hcall : forall g0, get_variable initial_value
              (String.append name_scope "/embedding_matrix") [V; d] true g0
              = Ok (v, g') ->
            get_embeddings initial_value V d name_scope true g0 = Ok (t, g')).
  { intros g0 H0. unfold get_embeddings.
    rewrite (bind_Ok_intro _ _ _ _ _ H0), Ht. reflexivity. }
  split; [apply Hcall; exact Hv|]. split; [exact Hst|].
  split; [intros j _; apply Hrow|]. split.
  - intros ids idx Hid Hlen. unfold tf_nn_embedding_lookup. rewrite Hst.
    eexists. split; [reflexivity|]. cbn [val]. rewrite Hid.
    cbn [Z.leb Z.compare Z.ltb andb Z.to_nat Z.of_nat].
    assert (Hsk : exists j, skipn (length (ishape ids)) idx = [j]).
    { assert (Hl : length (skipn (length (ishape ids)) idx) = 1)
        by (rewrite length_skipn; lia).
      destruct (skipn (length (ishape ids)) idx) as [|j [|? ?]];
        simpl in Hl; try lia. eauto. }
    destruct Hsk as (j & ->).
    replace ((0 <? Z.of_nat (1 + (V - 1)))%Z) with true
      by (symmetry; apply Z.ltb_lt; lia).
    apply Hrow.
  - exists t. split; [|split; [reflexivity|intros j _; apply Hrow]].
    apply Hcall. apply get_variable_reuse_again with (g := g). exact Hv.
Qed.

(** A fresh graph, vocabulary 4, dimension 2. *)
Lemma get_embeddings_zero_row_witness :
  exists t g',
    get_embeddings ones_init 4 2 "afm" true empty_graph = Ok (t, g') /\
    shape t = [1 + (4 - 1); 2] /\
    (forall j, j < 2 -> val t [0; j] = 0%R).
Proof.
  destruct (get_embeddings_zero_row ones_init 4 2 "afm" empty_graph)
    as (t & g' & H1 & H2 & H3 & _).
  - simpl. discriminate.
  - exists t, g'. repeat split; assumption.
Defined.

(** ** Variables and layers: how they fail, what shape they give *)

Lemma append_eqb_prefix ns a b :
  String.eqb (String.append ns a) (String.append ns b) = String.eqb a b.
Proof.
  induction ns as [|c ns IH]; simpl; [reflexivity|].
  rewrite Ascii.eqb_refl. exact IH.
Qed.

Lemma get_variable_Err iv name shp reuse g e :
  get_variable iv name shp reuse g = Err e -> e = ValueError "get_variable".
Proof.
  unfold get_variable. destruct (lookup name (variables g)) as [w|].
  - destruct reuse; [destruct (shape_eqb (shape w) shp)|];
      intros H; inversion H; reflexivity.
  - discriminate.
Qed.

Lemma get_embeddings_Err iv V d ns g e :
  get_embeddings iv V d ns true g = Err e -> e = ValueError "get_variable".
Proof.
  unfold get_embeddings, bind at 1.
  destruct (get_variable iv (String.append ns "/embedding_matrix") [V; d] true g)
    as [[v g1]|e'] eqn:E.
  - destruct (zero_pad_table v V d (get_variable_Ok _ _ _ _ _ _ _ E)) as (t & Ht & _).
    rewrite Ht. discriminate.
  - intros H. inversion H; subst. eapply get_variable_Err. exact E.
Qed.

Lemma tf_layers_dropout_Ok km x rate training g t g' :
  tf_layers_dropout km x rate training g = Ok (t, g') ->
  shape t = shape x /\ variables g' = variables g /\ scope_counts g' = scope_counts g.
Proof.
  unfold tf_layers_dropout.
  destruct (Qle_bool 0 rate && negb (Qle_bool 1 rate)); [|discriminate].
  destruct (Qeq_bool rate 0).
  - intros H. inversion H; subst. auto.
  - intros H. inversion H; subst. destruct training; auto.
Qed.

Lemma tf_layers_dropout_Err km x rate training g e :
  tf_layers_dropout km x rate training g = Err e -> e = ValueError "dropout".
Proof.
  unfold tf_layers_dropout.
  destruct (Qle_bool 0 rate && negb (Qle_bool 1 rate)).
  - destruct (Qeq_bool rate 0); discriminate.
  - intros H. inversion H. reflexivity.
Qed.

Lemma tf_layers_dense_Ok iv inputs units activation use_bias name g t g' :
  tf_layers_dense iv inputs units activation use_bias name g = Ok (t, g') ->
  (forall f x, activation = Some f -> shape (f x) = shape x) ->
  2 <= rank inputs /\ shape t = set_last (shape inputs) units.
Proof.
  unfold tf_layers_dense. intros H Hact.
  destruct (Nat.leb_spec 2 (rank inputs)) as [Hr|Hr]; [|discriminate].
  split; [exact Hr|].
  tf_step H. tf_step H. tf_step H.
  apply ret_Ok in H. destruct H as [-> _].
  destruct activation as [f|]; [rewrite (Hact f _ eq_refl)|]; reflexivity.
Qed.

Lemma tf_layers_dense_Err iv inputs units activation use_bias name g e :
  tf_layers_dense iv inputs units activation use_bias name g = Err e ->
  e = ValueError "dense" \/ e = ValueError "get_variable".
Proof.
  unfold tf_layers_dense.
  destruct (2 <=? rank inputs); [|intros H; inversion H; auto].
  unfold bind at 1.
  destruct ((match name with Some n => ret n | None => unique_scope "dense" end) g)
    as [[scope g1]|e1] eqn:E1.
  2:{ destruct name; discriminate. }
  unfold bind at 1.
  destruct (get_variable iv (String.append scope "/kernel")
              [last (shape inputs) 0; units] false g1) as [[k g2]|e2] eqn:E2.
  2:{ intros H. inversion H; subst. right. eapply get_variable_Err. exact E2. }
  unfold bind at 1.
  destruct use_bias.
  - destruct (get_variable iv (String.append scope "/bias") [units] false g2)
      as [[b g3]|e3] eqn:E3; [discriminate|].
    intros H. inversion H; subst. right. eapply get_variable_Err. exact E3.
  - discriminate.
Qed.

(** ** [attentional_fm] with fewer than two fields *)

Lemma field_pairs_small attr_size : (attr_size < 2)%Z -> field_pairs attr_size = [].
Proof.
  intros H. unfold field_pairs, py_range.
  destruct (Z.le_gt_cases attr_size 0) as [Hle|Hgt].
  - replace (Z.to_nat (attr_size - 0)) with 0 by lia. reflexivity.
  - assert (attr_size = 1%Z) by lia. subst. reflexivity.
Qed.

(** C10: [attentional_fm] does not check the field count.  For every
    [attr_size < 2] the double loop over field pairs builds the empty list,
    and the call then fails when that list is stacked: on every graph the
    call raises, the only other possible error being a clash on the variables
    it acquires first, and on a fresh graph the error is the one of
    [tf.stack], reached after the variables have been acquired. *)
Theorem attentional_fm_too_few_fields
    initial_value keep_mask python name_scope input_features
    emb_dim feat_size hid_rep_dim attr_size is_training dropout_keep :
  (attr_size < 2)%Z ->
  field_pairs attr_size = [] /\
  (forall uattr_emb, element_wise_prod_list uattr_emb attr_size = Ok []) /\
  (forall g, exists e,
      attentional_fm initial_value keep_mask python name_scope input_features
        emb_dim feat_size hid_rep_dim attr_size is_training dropout_keep g = Err e /\
      (e = IndexError "stack" \/ e = ValueError "get_variable")) /\
  attentional_fm initial_value keep_mask python name_scope input_features
    emb_dim feat_size hid_rep_dim attr_size is_training dropout_keep empty_graph
  = Err (IndexError "stack").
Proof.
  intros Hk.
  assert (Hpairs : field_pairs attr_size = []) by (apply field_pairs_small; exact Hk).
  assert (Hlist : forall u, element_wise_prod_list u attr_size = Ok []).
  { intros u. unfold element_wise_prod_list. rewrite Hpairs. reflexivity. }
  split; [exact Hpairs|]. split; [exact Hlist|]. split.
  - intros g. unfold attentional_fm. unfold bind at 1.
    destruct (get_embeddings initial_value feat_size emb_dim name_scope true g)
      as [[table g1]|e1] eqn:E1.
    2:{ exists e1. split; [reflexivity|]. right. eapply get_embeddings_Err. exact E1. }
    assert (Hst : exists r c, shape table = [r; c]).
    { unfold get_embeddings in E1. tf_step E1.
      destruct (zero_pad_table t feat_size emb_dim (get_variable_Ok _ _ _ _ _ _ _ Hstep))
        as (u & Hu & Hsu & _).
      rewrite Hu in E1. inversion E1; subst. eauto. }
    destruct Hst as (r & c & Hst).
    unfold bind at 1, lift at 1, tf_nn_embedding_lookup. rewrite Hst.
    unfold bind at 1.
    destruct (get_variable initial_value (String.append name_scope "/attention_W")
                [emb_dim; hid_rep_dim] false g1) as [[W g2]|e2] eqn:E2.
    2:{ exists e2. split; [reflexivity|]. right. eapply get_variable_Err. exact E2. }
    unfold bind at 1.
    destruct (get_variable initial_value (String.append name_scope "/attention_p")
                [hid_rep_dim] false g2) as [[p g3]|e3] eqn:E3.
    2:{ exists e3. split; [reflexivity|]. right. eapply get_variable_Err. exact E3. }
    unfold bind at 1.
    destruct (get_variable initial_value (String.append name_scope "/attention_b")
                [hid_rep_dim] false g3) as [[b g4]|e4] eqn:E4.
    2:{ exists e4. split; [reflexivity|]. right. eapply get_variable_Err. exact E4. }
    unfold bind at 1, lift at 1. rewrite Hlist.
    exists (IndexError "stack"). split; [reflexivity|]. left. reflexivity.
  - unfold attentional_fm, get_embeddings, get_variable, bind at 1 2.
    cbn [variables empty_graph lookup with_variables].
    destruct (zero_pad_table
                (Tensor [feat_size; emb_dim]
                   (initial_value (String.append name_scope "/embedding_matrix")
                                  [feat_size; emb_dim]))
                feat_size emb_dim eq_refl) as (table & Ht & Hst & _).
    rewrite Ht.
    unfold bind at 1, lift at 1, tf_nn_embedding_lookup. rewrite Hst.
    unfold bind at 1. cbn [variables with_variables lookup scope_counts n_random].
    rewrite append_eqb_prefix. cbn [String.eqb Ascii.eqb Bool.eqb].
    unfold bind at 1. cbn [variables with_variables lookup scope_counts n_random].
    rewrite !append_eqb_prefix. cbn [String.eqb Ascii.eqb Bool.eqb].
    unfold bind at 1. cbn [variables with_variables lookup scope_counts n_random].
    rewrite !append_eqb_prefix. cbn [String.eqb Ascii.eqb Bool.eqb].
    unfold bind at 1, lift at 1. rewrite Hlist. reflexivity.
Qed.

(** One field, on a fresh graph. *)
Lemma attentional_fm_too_few_fields_witness :
  field_pairs 1 = [] /\
  attentional_fm ones_init keep_all Python3 "afm"
    (iconst [2; 1] 1) 4 5 3 1 true None empty_graph
  = Err (IndexError "stack").
Proof.
  pose proof (attentional_fm_too_few_fields
                ones_init keep_all Python3 "afm"
                (iconst [2; 1] 1) 4 5 3 1 true None) as H.
  destruct H as (H1 & _ & _ & H4); [reflexivity|].
  split; assumption.
Defined.

(** ** The attention head on a rank-2 embedding table *)

Lemma maybe_dropout_Ok km (c : bool) x rate training g t g' :
  (if c then tf_layers_dropout km x rate training else ret x) g = Ok (t, g') ->
  shape t = shape x /\ variables g' = variables g /\ scope_counts g' = scope_counts g.
Proof.
  destruct c.
  - apply tf_layers_dropout_Ok.
  - intros H. apply ret_Ok in H. destruct H; subst. auto.
Qed.

Lemma maybe_dropout_Err km (c : bool) x rate training g e :
  (if c then tf_layers_dropout km x rate training else ret x) g = Err e ->
  e = ValueError "dropout".
Proof.
  destruct c; [apply tf_layers_dropout_Err | discriminate].
Qed.

Lemma tf_transpose_021_rank2 f_2 :
  rank f_2 = 2 -> tf_transpose f_2 [0; 2; 1] = Err (ValueError "transpose").
Proof. intros H. unfold tf_transpose. rewrite H. reflexivity. Qed.

Lemma valid_rate_check (rate : Q) :
  (0 <= rate)%Q -> (rate < 1)%Q ->
  Qle_bool 0 rate && negb (Qle_bool 1 rate) = true.
Proof.
  intros H0 H1. apply andb_true_iff. split.
  - apply Qle_bool_iff. exact H0.
  - apply negb_true_iff. destruct (Qle_bool 1 rate) eqn:E; [|reflexivity].
    apply Qle_bool_iff in E. exfalso. exact (Qlt_not_le _ _ H1 E).
Qed.

(** C4: when the embedding table has rank 2, [f_2] has rank 2 and the
    transposition by the rank-3 permutation [0, 2, 1] is rejected, so
    [gat_attn_head] never returns: on every graph the call raises (at the
    transpose, unless a dropout rate, a variable clash or a rank-0 index
    tensor stops it earlier), and on a fresh graph with a valid feature
    dropout rate and an index tensor of rank at least 1 the error is the one
    of the transpose.  The logits are never formed. *)
Theorem gat_attn_head_rank2_table_fails
    initial_value keep_mask input_indices emb_lookup output_size bias_mat
    activation is_training head_id ft_drop coef_drop :
  rank emb_lookup = 2 ->
  (forall hid_emb_lookup f_2 g1 g2 g3 g4,
     tf_layers_dense initial_value emb_lookup output_size None false None g1
     = Ok (hid_emb_lookup, g2) ->
     tf_layers_dense initial_value hid_emb_lookup 1 None true None g3
     = Ok (f_2, g4) ->
     shape f_2 = [nth 0 (shape emb_lookup) 0; 1]) /\
  (forall f_2, rank f_2 = 2 ->
     tf_transpose f_2 [0; 2; 1] = Err (ValueError "transpose")) /\
  (forall g, exists e,
     gat_attn_head initial_value keep_mask input_indices emb_lookup output_size
       bias_mat activation is_training head_id ft_drop coef_drop g = Err e /\
     (e = ValueError "transpose" \/ e = ValueError "dropout" \/
      e = ValueError "get_variable" \/ e = ValueError "dense")) /\
  (1 <= length (ishape input_indices) ->
   (0 <= ft_drop)%Q -> (ft_drop < 1)%Q ->
   gat_attn_head initial_value keep_mask input_indices emb_lookup output_size
     bias_mat activation is_training head_id ft_drop coef_drop empty_graph
   = Err (ValueError "transpose")).
Proof.
  intros Hrank.
  assert (Hshape : exists n d, shape emb_lookup = [n; d]).
  { unfold rank in Hrank. destruct (shape emb_lookup) as [|n [|d [|? ?]]];
      simpl in Hrank; try lia. eauto. }
  destruct Hshape as (n & d & Hshape).
  split; [|split; [exact tf_transpose_021_rank2|split]].
  - intros hid f_2 g1 g2 g3 g4 Hhid Hf2.
    apply tf_layers_dense_Ok in Hhid; [|discriminate].
    apply tf_layers_dense_Ok in Hf2; [|discriminate].
    destruct Hhid as (_ & Hhid). destruct Hf2 as (_ & Hf2).
    rewrite Hhid, Hshape in Hf2. rewrite Hshape. exact Hf2.
  - intros g. unfold gat_attn_head. unfold bind at 1.
    destruct ((if float_nonzero ft_drop
               then tf_layers_dropout keep_mask emb_lookup ft_drop is_training
               else ret emb_lookup) g) as [[emb g1]|e1] eqn:E1.
    2:{ exists e1. split; [reflexivity|]. right. left.
        eapply maybe_dropout_Err. exact E1. }
    apply maybe_dropout_Ok in E1. destruct E1 as (Hemb & _ & _).
    unfold bind at 1.
    destruct (tf_layers_dense initial_value emb output_size None false None g1)
      as [[hid g2]|e2] eqn:E2.
    2:{ exists e2. split; [reflexivity|].
        apply tf_layers_dense_Err in E2. tauto. }
    apply tf_layers_dense_Ok in E2; [|discriminate].
    destruct E2 as (_ & Hhid). rewrite Hemb, Hshape in Hhid. cbn in Hhid.
    unfold bind at 1, lift at 1, tf_nn_embedding_lookup. rewrite Hhid.
    unfold bind at 1.
    match goal with
    | |- context [tf_layers_dense initial_value ?b 1 None true None g2] =>
        destruct (tf_layers_dense initial_value b 1 None true None g2)
          as [[f1 g3]|e3] eqn:E3
    end.
    2:{ exists e3. split; [reflexivity|].
        apply tf_layers_dense_Err in E3. tauto. }
    unfold bind at 1.
    destruct (tf_layers_dense initial_value hid 1 None true None g3)
      as [[f2 g4]|e4] eqn:E4.
    2:{ exists e4. split; [reflexivity|].
        apply tf_layers_dense_Err in E4. tauto. }
    apply tf_layers_dense_Ok in E4; [|discriminate].
    destruct E4 as (_ & Hf2). rewrite Hhid in Hf2. cbn in Hf2.
    unfold bind at 1, lift at 1.
    rewrite tf_transpose_021_rank2 by (unfold rank; rewrite Hf2; reflexivity).
    exists (ValueError "transpose"). split; [reflexivity|]. left. reflexivity.
  - intros Hids H0 H1. unfold gat_attn_head.
    assert (Hd : exists emb nr,
               (if float_nonzero ft_drop
                then tf_layers_dropout keep_mask emb_lookup ft_drop is_training
                else ret emb_lookup) empty_graph = Ok (emb, Graph [] [] nr)
               /\ shape emb = [n; d]).
    { destruct (float_nonzero ft_drop) eqn:E.
      - unfold tf_layers_dropout. rewrite (valid_rate_check _ H0 H1).
        unfold float_nonzero in E. apply negb_true_iff in E. rewrite E.
        eexists. eexists. split; [reflexivity|]. destruct is_training; exact Hshape.
      - eexists. eexists. split; [reflexivity|]. exact Hshape. }
    destruct Hd as (emb & nr & Hd & Hemb).
    rewrite (bind_Ok_intro _ _ _ _ _ Hd).
    unfold tf_layers_dense at 1. unfold rank at 1. rewrite Hemb.
    cbn -[tf_layers_dense tf_layers_dropout tf_transpose].
    unfold tf_layers_dense at 1. unfold rank at 1. cbn [shape].
    assert (Hr : (2 <=? length (ishape input_indices ++ [output_size])) = true).
    { apply Nat.leb_le. rewrite length_app. simpl. lia. }
    rewrite Hr, last_last.
    cbn -[tf_layers_dense tf_layers_dropout tf_transpose set_last].
    unfold tf_layers_dense at 1.
    cbn -[tf_layers_dropout tf_transpose set_last].
    reflexivity.
Qed.

(** A 3-node table of 2-dimensional embeddings and a batch of two queries. *)
Lemma gat_attn_head_rank2_table_fails_witness :
  gat_attn_head ones_init keep_all
    (iconst [2] 0) (ones [3; 2]) 4
    (tf_zeros [2; 3]) tf_nn_relu true 0 0 0 empty_graph
  = Err (ValueError "transpose").
Proof.
  apply (gat_attn_head_rank2_table_fails ones_init keep_all
           (iconst [2] 0) (ones [3; 2]) 4
           (tf_zeros [2; 3]) tf_nn_relu true 0 0 0).
  - reflexivity.
  - simpl. lia.
  - discriminate.
  - reflexivity.
Defined.

(** ** Centroid pooling *)

Lemma tf_matmul_2d a b (transpose_b : bool) m k n :
  shape a = [m; k] ->
  shape b = (if transpose_b then [n; k] else [k; n]) ->
  exists t,
    tf_matmul a b transpose_b = Ok t /\ shape t = [m; n] /\
    forall i j, val t [i; j]
                = sumR k (fun l => (val a [i; l]
                                    * val b (if transpose_b then [j; l] else [l; j]))%R).
Proof.
  intros Ha Hb. unfold tf_matmul, rank. rewrite Ha, Hb.
  destruct transpose_b; cbn -[Nat.eqb]; rewrite Nat.eqb_refl;
    (eexists; split; [reflexivity|]; split; [reflexivity|]; intros i j; reflexivity).
Qed.




(** ** Centroid correlation *)

Lemma sumR_squares_pos n (f : nat -> R) :
  (exists j, j < n /\ f j <> 0%R) -> (0 < sumR n (fun j => f j * f j))%R.
Proof.
  intros (j & Hj & Hne).
  assert (Hnn : forall i, i < n -> (0 <= f i * f i)%R)
    by (intros; apply Rle_0_sqr).
  pose proof (sumR_nonneg n (fun j => (f j * f j)%R) Hnn) as H0.
  destruct (Req_dec (sumR n (fun j => (f j * f j)%R)) 0) as [Hz|Hnz]; [|lra].
  exfalso. apply Hne.
  pose proof (proj1 (sumR_zero_iff n (fun j => (f j * f j)%R) Hnn) Hz j Hj) as Hsq.
  cbv beta in Hsq. apply Rmult_integral in Hsq. tauto.
Qed.

(** On the diagonal [centroid_corr] yields the squared L2 norm of the row:
    the square of the row's dot product with itself, over the product of
    the norm with itself. *)
Lemma centroid_corr_diagonal centroid_mat name_scope g c d i :
  shape centroid_mat = [c; d] ->
  i < c ->
  (exists j, j < d /\ val centroid_mat [i; j] <> 0%R) ->
  exists corr_cost,
    centroid_corr centroid_mat name_scope g = Ok (corr_cost, g) /\
    shape corr_cost = [c; c] /\
    val corr_cost [i; i]
    = sumR d (fun j => (val centroid_mat [i; j] * val centroid_mat [i; j])%R).
Proof.
  intros Hs Hi Hrow.
  destruct (tf_matmul_2d centroid_mat centroid_mat true c d c Hs Hs)
    as (prod & Hprod & Hsp & Hvp).
  assert (Hrs : exists row_sqr_sum,
             tf_reduce_sum (tf_square centroid_mat) 1 true = Ok row_sqr_sum /\
             shape row_sqr_sum = [c; 1] /\
             forall i, val row_sqr_sum [i; 0]
                       = sumR d (fun j => (val centroid_mat [i; j]
                                           * val centroid_mat [i; j])%R)).
  { unfold tf_reduce_sum, rank. cbn [shape tf_square tf_map]. rewrite Hs.
    eexists. split; [reflexivity|]. split; reflexivity. }
  destruct Hrs as (rss & Hrss & Hsr & Hvr).
  destruct (tf_matmul_2d (tf_sqrt rss) (tf_sqrt rss) true c 1 c Hsr Hsr)
    as (den & Hden & Hsd & Hvd).
  destruct (tf_binop_same_shape "truediv" Rdiv (tf_square prod) den)
    as (corr & Hcorr & Hsc & Hvc).
  { cbn [shape tf_square tf_map]. congruence. }
  exists corr. split; [|split].
  - unfold centroid_corr.
    unfold bind at 1, lift at 1. rewrite Hprod.
    unfold bind at 1, lift at 1. rewrite Hrss.
    unfold bind at 1, lift at 1. rewrite Hden.
    unfold bind at 1, lift at 1. unfold tf_truediv. rewrite Hcorr.
    reflexivity.
  - rewrite Hsc. cbn [shape tf_square tf_map]. exact Hsp.
  - rewrite Hvc.
    2:{ cbn [shape tf_square tf_map]. rewrite Hsp.
        constructor; [exact Hi|]. constructor; [exact Hi|constructor]. }
    cbn [val tf_square tf_map]. rewrite Hvp, Hvd, sumR_one.
    cbn [val tf_sqrt tf_map]. rewrite Hvr.
    set (s := sumR d (fun j => (val centroid_mat [i; j] * val centroid_mat [i; j])%R)).
    assert (Hpos : (0 < s)%R) by (apply sumR_squares_pos; exact Hrow).
    rewrite sqrt_sqrt by lra. field. lra.
Qed.

(** C2, on the code: for a centroid matrix of shape (c, d) and a non-zero
    row i, the diagonal entry (i, i) returned by [centroid_corr] is the
    squared L2 norm of row i; it is 1.0 only for rows of unit norm. *)
Theorem centroid_corr_diagonal_is_squared_norm centroid_mat name_scope g c d i :
  shape centroid_mat = [c; d] ->
  i < c ->
  (exists j, j < d /\ val centroid_mat [i; j] <> 0%R) ->
  exists corr_cost,
    centroid_corr centroid_mat name_scope g = Ok (corr_cost, g) /\
    val corr_cost [i; i]
    = sumR d (fun j => (val centroid_mat [i; j] * val centroid_mat [i; j])%R) /\
    (val corr_cost [i; i] = 1%R <->
     sumR d (fun j => (val centroid_mat [i; j] * val centroid_mat [i; j])%R) = 1%R).
Proof.
  intros Hs Hi Hrow.
  destruct (centroid_corr_diagonal centroid_mat name_scope g c d i Hs Hi Hrow)
    as (corr & Hrun & _ & Hv).
  exists corr. split; [exact Hrun|]. split; [exact Hv|].
  rewrite Hv. tauto.
Qed.


(** Its self-correlation comes out as 4. *)
Lemma centroid_corr_diagonal_witness :
  exists corr_cost,
    centroid_corr centroid_2_0 "corr" empty_graph = Ok (corr_cost, empty_graph) /\
    val corr_cost [0; 0] = 4%R /\ val corr_cost [0; 0] <> 1%R.
Proof.
  destruct (centroid_corr_diagonal_is_squared_norm
              centroid_2_0 "corr" empty_graph 1 2 0)
    as (corr & Hrun & Hv & _).
  - reflexivity.
  - lia.
  - exists 0. split; [lia|]. simpl. lra.
  - exists corr. split; [exact Hrun|].
    assert (H4 : val corr [0; 0] = 4%R) by (rewrite Hv; simpl; lra).
    split; [exact H4|]. rewrite H4. lra.
Defined.

(** ** The autoencoder *)


Lemma tf_nn_relu_shape x : shape (tf_nn_relu x) = shape x.
Proof. reflexivity. Qed.

(** A run of dense layers keeps the batch axis of a rank-2 input. *)
Lemma dense_layers_shape iv prefix units : forall i features g t g' b w,
  dense_layers iv prefix i units features g = Ok (t, g') ->
  shape features = [b; w] ->
  exists w', shape t = [b; w'].
Proof.
  induction units as [|u us IH]; intros i features g t g' b w H Hs; simpl in H.
  - apply ret_Ok in H. destruct H; subst. eauto.
  - tf_step H. apply tf_layers_dense_Ok in Hstep.
    2:{ intros f x Hf. inversion Hf. apply tf_nn_relu_shape. }
    destruct Hstep as (_ & Hs'). rewrite Hs in Hs'. cbn in Hs'.
    eapply IH; eassumption.
Qed.

(** ** Variable names *)

Lemma append_assoc a b c :
  String.append (String.append a b) c = String.append a (String.append b c).
Proof. induction a as [|x a IH]; simpl; [reflexivity|]. rewrite IH. reflexivity. Qed.

Lemma string_length_append a b :
  String.length (String.append a b) = String.length a + String.length b.
Proof. induction a as [|x a IH]; simpl; [reflexivity|]. rewrite IH. reflexivity. Qed.

Lemma append_inj_l s a b : String.append s a = String.append s b -> a = b.
Proof.
  intros H. apply String.eqb_eq. rewrite <- (append_eqb_prefix s).
  apply String.eqb_eq. exact H.
Qed.

Lemma append_inj_r s : forall a b, String.append a s = String.append b s -> a = b.
Proof.
  induction a as [|x a IH]; intros [|y b] H; simpl in H.
  - reflexivity.
  - exfalso. apply (f_equal String.length) in H. simpl in H.
    rewrite string_length_append in H. lia.
  - exfalso. apply (f_equal String.length) in H. simpl in H.
    rewrite string_length_append in H. lia.
  - inversion H. f_equal. apply IH. assumption.
Qed.


Lemma last_char_append a c t : forall d,
  last_char (String.append a (String c t)) d = last_char t c.
Proof. induction a as [|x a IH]; intros d; simpl; [reflexivity|apply IH]. Qed.

Lemma string_of_nat_inj i j : string_of_nat i = string_of_nat j -> i = j.
Proof.
  unfold string_of_nat. intros H.
  apply Unsigned.to_uint_inj.
  assert (Hs : Some (Nat.to_uint i) = Some (Nat.to_uint j)).
  { rewrite <- (NilEmpty.usu (Nat.to_uint i)), <- (NilEmpty.usu (Nat.to_uint j)), H.
    reflexivity. }
  inversion Hs. reflexivity.
Qed.


Lemma layer_variable_inj prefix i j sfx sfx' :
  layer_suffix sfx -> layer_suffix sfx' ->
  String.append (String.append prefix (string_of_nat i)) sfx
  = String.append (String.append prefix (string_of_nat j)) sfx' ->
  i = j /\ sfx = sfx'.
Proof.
  intros Hs Hs' H. rewrite !append_assoc in H. apply append_inj_l in H.
  destruct Hs as [-> | ->], Hs' as [-> | ->].
  - apply append_inj_r in H. split; [apply string_of_nat_inj; exact H|reflexivity].
  - exfalso. apply (f_equal (fun s => last_char s "x"%char)) in H.
    rewrite !last_char_append in H. simpl in H. discriminate.
  - exfalso. apply (f_equal (fun s => last_char s "x"%char)) in H.
    rewrite !last_char_append in H. simpl in H. discriminate.
  - apply append_inj_r in H. split; [apply string_of_nat_inj; exact H|reflexivity].
Qed.

Lemma lookup_None_iff {A} name (l : list (string * A)) :
  lookup name l = None <-> ~ In name (map fst l).
Proof.
  induction l as [|[k v] l IH]; simpl.
  - tauto.
  - destruct (String.eqb_spec name k) as [->|Hne].
    + split; [discriminate|]. intros H. exfalso. apply H. left. reflexivity.
    + rewrite IH. split.
      * intros H [Hk|Hin]; [congruence|tauto].
      * tauto.
Qed.

(** A named dense layer on a store that holds neither of its variables. *)
Lemma tf_layers_dense_named_run iv inputs units activation nm g :
  2 <= rank inputs ->
  ~ In (String.append nm "/kernel") (map fst (variables g)) ->
  ~ In (String.append nm "/bias") (map fst (variables g)) ->
  exists t g',
    tf_layers_dense iv inputs units activation true (Some nm) g = Ok (t, g') /\
    map fst (variables g')
    = String.append nm "/bias" :: String.append nm "/kernel" :: map fst (variables g).
Proof.
  intros Hr Hk Hb. unfold tf_layers_dense.
  destruct (Nat.leb_spec 2 (rank inputs)) as [_|]; [|lia].
  unfold bind at 1, ret at 1. unfold bind at 1, get_variable at 1.
  rewrite (proj2 (lookup_None_iff _ _) Hk).
  unfold bind at 1, get_variable at 1.
  cbn [variables with_variables lookup].
  rewrite append_eqb_prefix. cbn [String.eqb Ascii.eqb Bool.eqb].
  rewrite (proj2 (lookup_None_iff _ _) Hb).
  eexists. eexists. split; [reflexivity|]. reflexivity.
Qed.


(** A run of named dense layers succeeds on a rank-2 input when none of its
    variables is in the store, and adds only its own variables. *)
Lemma dense_layers_run iv prefix units : forall i features g b w,
  shape features = [b; w] ->
  (forall j sfx, i <= j -> layer_suffix sfx ->
     ~ In (String.append (String.append prefix (string_of_nat j)) sfx)
          (map fst (variables g))) ->
  exists t g',
    dense_layers iv prefix i units features g = Ok (t, g') /\
    (forall name, In name (map fst (variables g')) ->
       In name (map fst (variables g)) \/ layer_variable prefix name).
Proof.
  induction units as [|u us IH]; intros i features g b w Hs Hfresh.
  - exists features, g. split; [reflexivity|]. auto.
  - cbn [dense_layers].
    destruct (tf_layers_dense_named_run iv features u (Some tf_nn_relu)
                (String.append prefix (string_of_nat i)) g)
      as (t1 & g1 & Hrun1 & Hvars1).
    + unfold rank. rewrite Hs. simpl. lia.
    + apply Hfresh; [lia|left; reflexivity].
    + apply Hfresh; [lia|right; reflexivity].
    + rewrite (bind_Ok_intro _ _ _ _ _ Hrun1).
      pose proof Hrun1 as Hs1. apply tf_layers_dense_Ok in Hs1.
      2:{ intros f x Hf. inversion Hf. reflexivity. }
      destruct Hs1 as (_ & Hs1). rewrite Hs in Hs1. cbn in Hs1.
      destruct (IH (S i) t1 g1 b u Hs1) as (t & g' & Hrun & Hnames).
      * intros j sfx Hj Hsfx Hin. rewrite Hvars1 in Hin.
        destruct Hin as [E|[E|Hin]].
        -- apply layer_variable_inj in E; [lia|right; reflexivity|exact Hsfx].
        -- apply layer_variable_inj in E; [lia|left; reflexivity|exact Hsfx].
        -- apply (Hfresh j sfx); [lia|exact Hsfx|exact Hin].
      * exists t, g'. split; [exact Hrun|].
        intros name Hin. destruct (Hnames name Hin) as [Hin1|Hlv]; [|right; exact Hlv].
        rewrite Hvars1 in Hin1. destruct Hin1 as [E|[E|Hin1]].
        -- right. exists i, "/bias". split; [right; reflexivity|congruence].
        -- right. exists i, "/kernel". split; [left; reflexivity|congruence].
        -- left. exact Hin1.
Qed.

(** On a fresh graph [autoencoder] returns for every (b, D) input and every
    list of layer widths. *)
Lemma autoencoder_returns iv input_features layers name_scope b D :
  shape input_features = [b; D] ->
  exists hidden_feature recon_loss g',
    autoencoder iv input_features layers name_scope empty_graph
    = Ok ((hidden_feature, recon_loss), g').
Proof.
  intros Hs. unfold autoencoder. rewrite Hs.
  unfold bind at 1, ret at 1.
  destruct (dense_layers_run iv "usc_enc_" layers 0 input_features empty_graph b D Hs)
    as (enc & g1 & Henc & Hn1).
  { intros j sfx _ _ Hin. exact Hin. }
  rewrite (bind_Ok_intro _ _ _ _ _ Henc).
  destruct (dense_layers_shape _ _ _ _ _ _ _ _ _ _ Henc Hs) as (w1 & Hs1).
  destruct (dense_layers_run iv "usc_dec_" (tl (rev layers)) 1 enc g1 b w1 Hs1)
    as (dec & g2 & Hdec & Hn2).
  { intros j sfx _ _ Hin. destruct (Hn1 _ Hin) as [[]|(j' & sfx' & _ & E)].
    simpl in E. discriminate E. }
  rewrite (bind_Ok_intro _ _ _ _ _ Hdec).
  destruct (dense_layers_shape _ _ _ _ _ _ _ _ _ _ Hdec Hs1) as (w2 & Hs2).
  destruct (tf_layers_dense_named_run iv dec D None "usc_reconstruct_layer" g2)
    as (restore & g3 & Hrestore & _).
  { unfold rank. rewrite Hs2. simpl. lia. }
  { intros Hin. destruct (Hn2 _ Hin) as [Hin1|(j' & sfx' & _ & E)].
    - destruct (Hn1 _ Hin1) as [[]|(j' & sfx' & _ & E)]. simpl in E. discriminate E.
    - simpl in E. discriminate E. }
  { intros Hin. destruct (Hn2 _ Hin) as [Hin1|(j' & sfx' & _ & E)].
    - destruct (Hn1 _ Hin1) as [[]|(j' & sfx' & _ & E)]. simpl in E. discriminate E.
    - simpl in E. discriminate E. }
  rewrite (bind_Ok_intro _ _ _ _ _ Hrestore).
  pose proof Hrestore as Hsr. apply tf_layers_dense_Ok in Hsr; [|discriminate].
  destruct Hsr as (_ & Hsr). rewrite Hs2 in Hsr. cbn in Hsr.
  destruct (tf_binop_same_shape "sub" Rminus input_features restore)
    as (diff & Hdiff & _); [congruence|].
  unfold bind at 1, lift at 1, tf_subtract. rewrite Hdiff.
  eexists. eexists. eexists. reflexivity.
Qed.




(** ** The attention head: what it returns when it returns *)

Lemma valid_index_nth s idx k :
  valid_index s idx -> k < length s -> nth k idx 0 < nth k s 0.
Proof.
  intros H. revert k. induction H as [|i d idx s Hi _ IH]; intros k Hk.
  - simpl in Hk. lia.
  - destruct k as [|k]; simpl; [exact Hi|]. apply IH. simpl in Hk. lia.
Qed.

Lemma float_nonzero_false_iff q : float_nonzero q = false <-> (q == 0)%Q.
Proof.
  unfold float_nonzero. rewrite negb_false_iff. apply Qeq_bool_iff.
Qed.

(** The coefficients returned by [gat_attn_head] are the softmax of the
    masked logits along the last axis, passed through coefficient dropout
    when [coef_drop] is not 0: unchanged outside training, and inside
    training masked and rescaled by [1 / (1 - coef_drop)]. *)
Lemma gat_attn_head_coefs
    initial_value keep_mask input_indices emb_lookup output_size bias_mat
    activation is_training head_id ft_drop coef_drop g ret_ coefs g' :
  gat_attn_head initial_value keep_mask input_indices emb_lookup output_size
    bias_mat activation is_training head_id ft_drop coef_drop g
  = Ok ((ret_, coefs), g') ->
  exists masked soft,
    tf_nn_softmax masked (-1) = Ok soft /\
    shape coefs = shape soft /\
    (float_nonzero coef_drop = false \/ is_training = false -> coefs = soft) /\
    (float_nonzero coef_drop = true -> is_training = true ->
     exists n, forall idx,
       val coefs idx
       = (val soft idx * (1 / (1 - Q2R coef_drop))
          * (if keep_mask n idx then 1 else 0))%R).
Proof.
  intros H. unfold gat_attn_head in H.
  tf_inv H as emb g1 Hemb. tf_inv H as hid g2 Hhid.
  tf_inv H as b_hid g3 Hb. tf_inv H as f_1 g4 Hf1. tf_inv H as f_2 g5 Hf2.
  tf_inv H as f_2t g6 Hf2t. tf_inv H as logits g7 Hlogits.
  tf_inv H as masked g8 Hmasked. tf_inv H as soft g9 Hsoft.
  tf_inv H as coefs' g10 Hcoefs. tf_inv H as hid' g11 Hhid'.
  tf_inv H as vals g12 Hvals. tf_inv H as biased g13 Hbiased.
  apply ret_Ok in H. destruct H as [H _]. inversion H; subst ret_ coefs; clear H.
  lift_inv Hsoft.
  exists masked, soft. split; [exact Hsoft|].
  destruct (float_nonzero coef_drop) eqn:Hnz.
  - unfold tf_layers_dropout in Hcoefs.
    destruct (Qle_bool 0 coef_drop && negb (Qle_bool 1 coef_drop)); [|discriminate].
    unfold float_nonzero in Hnz. apply negb_true_iff in Hnz. rewrite Hnz in Hcoefs.
    inversion Hcoefs; subst coefs' g10; clear Hcoefs.
    destruct is_training.
    + split; [reflexivity|]. split.
      * intros [Hc|Hc]; discriminate.
      * intros _ _. exists (n_random g8). intros idx. reflexivity.
    + split; [reflexivity|]. split; [reflexivity|]. intros _ Hc. discriminate.
  - apply ret_Ok in Hcoefs. destruct Hcoefs as [-> _].
    split; [reflexivity|]. split; [reflexivity|]. intros Hc. discriminate.
Qed.

(** C3, as the code has it: whenever [gat_attn_head] returns and coefficient
    dropout is inactive ([coef_drop = 0], or the training flag is off), the
    returned attention coefficients sum to 1 along the last (node) axis at
    every position, whatever the feature dropout rate. *)
Theorem gat_attn_head_attention_sums_to_one
    initial_value keep_mask input_indices emb_lookup output_size bias_mat
    activation is_training head_id ft_drop coef_drop g ret_ coefs g' idx :
  gat_attn_head initial_value keep_mask input_indices emb_lookup output_size
    bias_mat activation is_training head_id ft_drop coef_drop g
  = Ok ((ret_, coefs), g') ->
  (coef_drop == 0)%Q \/ is_training = false ->
  valid_index (shape coefs) idx ->
  sumR (nth (rank coefs - 1) (shape coefs) 0)
       (fun j => val coefs (set_at (rank coefs - 1) j idx)) = 1%R.
Proof.
  intros Hrun Hoff Hv.
  destruct (gat_attn_head_coefs _ _ _ _ _ _ _ _ _ _ _ _ _ _ _ Hrun)
    as (masked & soft & Hsoft & _ & Heq & _).
  assert (Hcs : coefs = soft).
  { apply Heq. destruct Hoff as [Hz|Ht]; [left|right; exact Ht].
    apply float_nonzero_false_iff. exact Hz. }
  subst coefs.
  pose proof (softmax_shape _ _ _ Hsoft) as Hss.
  unfold rank in *. rewrite Hss in *.
  assert (Hpos : 0 < length (shape masked)).
  { unfold tf_nn_softmax in Hsoft.
    destruct (norm_axis (-1) (rank masked)) as [k|] eqn:Hk; [|discriminate].
    apply norm_axis_lt in Hk. unfold rank in Hk. lia. }
  apply softmax_sums_to_one with (axis := (-1)%Z).
  - exact Hsoft.
  - apply norm_axis_last. exact Hpos.
  - rewrite (valid_index_length _ _ Hv). lia.
  - pose proof (valid_index_nth _ _ (length (shape masked) - 1) Hv) as Hn. lia.
Qed.

(** The whole graph of three nodes as one batch entry (table of shape
    (1, 3, 2)), query 0, every edge present, no dropout. *)
Lemma gat_attn_head_attention_sums_to_one_witness :
  exists ret_ coefs g',
    gat_attn_head ones_init keep_all
      (iconst [1] 0) (ones [1; 3; 2]) 4
      (tf_zeros [1; 3]) tf_nn_relu true 0 0 0 empty_graph
    = Ok ((ret_, coefs), g') /\
    shape coefs = [1; 3; 3] /\
    sumR 3 (fun j => val coefs [0; 1; j]) = 1%R.
Proof.
  destruct (gat_attn_head ones_init keep_all
              (iconst [1] 0) (ones [1; 3; 2]) 4
              (tf_zeros [1; 3]) tf_nn_relu true 0 0 0 empty_graph)
    as [[[r c] g']|e] eqn:Hrun.
  - assert (Hs : shape c = [1; 3; 3]).
    { pose proof (f_equal (fun x => match x with
                                    | Ok ((_, c), _) => shape c
                                    | Err _ => []
                                    end) Hrun) as Hs.
      lazy in Hs. symmetry. exact Hs. }
    exists r, c, g'. split; [reflexivity|]. split; [exact Hs|].
    pose proof (gat_attn_head_attention_sums_to_one
                  _ _ _ _ _ _ _ _ _ _ _ _ _ _ _ [0; 1; 0] Hrun) as Hsum.
    unfold rank in Hsum. rewrite Hs in Hsum. cbn in Hsum. apply Hsum.
    + left. reflexivity.
    + repeat constructor.
  - run_is_ok Hrun.
Defined.

(** With coefficient dropout on during training the returned coefficients
    are rescaled: one node, rate 1/2, nothing dropped, and the single
    coefficient is 2. *)
Lemma gat_attn_head_coef_dropout_counterexample :
  exists ret_ coefs g',
    gat_attn_head ones_init keep_all
      (iconst [1] 0) (ones [1; 1; 1]) 1
      (tf_zeros [1; 1]) tf_nn_relu true 0 0 (1 # 2) empty_graph
    = Ok ((ret_, coefs), g') /\
    shape coefs = [1; 1; 1] /\
    sumR 1 (fun j => val coefs [0; 0; j]) = 2%R /\
    sumR 1 (fun j => val coefs [0; 0; j]) <> 1%R.
Proof.
  destruct (gat_attn_head ones_init keep_all
              (iconst [1] 0) (ones [1; 1; 1]) 1
              (tf_zeros [1; 1]) tf_nn_relu true 0 0 (1 # 2) empty_graph)
    as [[[r c] g']|e] eqn:Hrun.
  - assert (Hs : shape c = [1; 1; 1]).
    { pose proof (f_equal (fun x => match x with
                                    | Ok ((_, c), _) => shape c
                                    | Err _ => []
                                    end) Hrun) as Hs.
      lazy in Hs. symmetry. exact Hs. }
    destruct (gat_attn_head_coefs _ _ _ _ _ _ _ _ _ _ _ _ _ _ _ Hrun)
      as (masked & soft & Hsoft & Hcs & _ & Hdrop).
    destruct (Hdrop eq_refl eq_refl) as (n & Hval).
    pose proof (softmax_shape _ _ _ Hsoft) as Hss.
    assert (Hm : shape masked = [1; 1; 1]) by congruence.
    pose proof (softmax_sums_to_one masked (-1) soft 2 [0; 0; 0] Hsoft) as Hone.
    unfold rank in Hone. rewrite Hm in Hone. cbn in Hone.
    assert (H1 : val soft [0; 0; 0] = 1%R).
    { pose proof (Hone eq_refl (le_S _ _ (le_n 2)) (le_n 1)) as Hx. lra. }
    assert (H2 : sumR 1 (fun j => val c [0; 0; j]) = 2%R).
    { rewrite sumR_one, Hval, H1. unfold Q2R. simpl. field. }
    exists r, c, g'. split; [reflexivity|]. split; [exact Hs|].
    split; [exact H2|]. rewrite H2. lra.
  - run_is_ok Hrun.
Qed.

(** ** The pairs of fields *)

Lemma py_range_length lo hi : length (py_range lo hi) = Z.to_nat (hi - lo).
Proof. unfold py_range. rewrite length_map, length_seq. reflexivity. Qed.

Lemma py_range_In lo hi i : In i (py_range lo hi) -> (lo <= i < hi)%Z.
Proof.
  unfold py_range. rewrite in_map_iff. intros (n & <- & Hn).
  apply in_seq in Hn. lia.
Qed.

Lemma field_pairs_In k i j :
  In (i, j) (field_pairs k) -> (0 <= i < k)%Z /\ (0 <= j < k)%Z.
Proof.
  unfold field_pairs. rewrite in_flat_map. intros (i' & Hi & Hj).
  apply in_map_iff in Hj. destruct Hj as (j' & E & Hj). inversion E; subst.
  apply py_range_In in Hi, Hj. lia.
Qed.

Lemma n_pairs_double k : 2 * n_pairs k = k * (k - 1).
Proof.
  induction k as [|k IH]; [reflexivity|].
  cbn [n_pairs]. destruct k as [|k]; [reflexivity|].
  replace (S (S k) - 1) with (S k) by lia.
  replace (S k - 1) with k in IH by lia. nia.
Qed.

Lemma sum_descending k :
  list_sum (map (fun i => k - 1 - i) (seq 0 k)) = n_pairs k.
Proof.
  induction k as [|k IH]; [reflexivity|].
  cbn [seq map n_pairs]. rewrite <- seq_shift, map_map.
  unfold list_sum in *. cbn [fold_right].
  replace (S k - 1 - 0) with k by lia. f_equal.
  rewrite <- IH. f_equal. apply map_ext_in. intros i Hi.
  apply in_seq in Hi. lia.
Qed.

Lemma field_pairs_length k : length (field_pairs (Z.of_nat k)) = n_pairs k.
Proof.
  unfold field_pairs. rewrite length_flat_map.
  unfold py_range at 2. rewrite map_map.
  replace (Z.to_nat (Z.of_nat k - 0)) with k by lia.
  rewrite <- sum_descending. f_equal. apply map_ext_in.
  intros i Hi. apply in_seq in Hi.
  rewrite length_map, py_range_length. lia.
Qed.

Lemma num_interactions_python2 k :
  py_div Python2 (Z.of_nat k * (Z.of_nat k - 1)) 2 = PyInt (Z.of_nat (n_pairs k)).
Proof.
  unfold py_div. f_equal.
  pose proof (n_pairs_double k) as H.
  assert (Hz : (Z.of_nat k * (Z.of_nat k - 1) = Z.of_nat (n_pairs k) * 2)%Z).
  { destruct k as [|k]; [reflexivity|]. 
    replace (Z.of_nat (S k) - 1)%Z with (Z.of_nat (S k - 1)) by lia.
    rewrite <- Nat2Z.inj_mul, <- H. lia. }
  rewrite Hz. apply Z.div_mul. lia.
Qed.

Lemma collect_Ok {A B} (f : A -> result B) (P : B -> Prop) l :
  (forall a, In a l -> exists b, f a = Ok b /\ P b) ->
  exists bs, collect f l = Ok bs /\ Forall P bs /\ length bs = length l.
Proof.
  induction l as [|a l IH]; intros H.
  - exists []. split; [reflexivity|]. split; [constructor|reflexivity].
  - destruct (H a (or_introl eq_refl)) as (b & Hb & HP).
    destruct IH as (bs & Hbs & HF & Hlen).
    { intros a' Ha'. apply H. right. exact Ha'. }
    exists (b :: bs). cbn [collect]. rewrite Hb, Hbs.
    split; [reflexivity|]. split; [constructor; assumption|simpl; congruence].
Qed.

(** With [k] fields present the double loop builds one (b, d) product per
    pair of fields. *)
Lemma element_wise_prod_list_run uattr_emb b k d :
  shape uattr_emb = [b; k; d] ->
  exists prods,
    element_wise_prod_list uattr_emb (Z.of_nat k) = Ok prods /\
    Forall (fun t => shape t = [b; d]) prods /\
    length prods = n_pairs k.
Proof.
  intros Hs. unfold element_wise_prod_list.
  rewrite <- field_pairs_length.
  apply collect_Ok. intros [i j] Hin.
  apply field_pairs_In in Hin. destruct Hin as (Hi & Hj).
  assert (Hslice : forall z, (0 <= z < Z.of_nat k)%Z ->
            exists t, slice_axis1 uattr_emb z = Ok t /\ shape t = [b; d]).
  { intros z Hz. unfold slice_axis1, rank. rewrite Hs. cbn [length Nat.leb nth].
    replace ((- Z.of_nat k <=? z) && (z <? Z.of_nat k))%Z with true.
    - eexists. split; reflexivity.
    - symmetry. apply andb_true_iff. split; [apply Z.leb_le|apply Z.ltb_lt]; lia. }
  destruct (Hslice i Hi) as (a & Ha & Hsa).
  destruct (Hslice j Hj) as (c & Hc & Hsc).
  rewrite Ha, Hc.
  destruct (tf_binop_same_shape "mul" Rmult a c) as (t & Ht & Hst & _); [congruence|].
  exists t. split; [exact Ht|congruence].
Qed.

(** ** Reshaping with an inferred leading dimension *)

Lemma int_dims_of_nats dims :
  int_dims (map (fun d => PyInt (Z.of_nat d)) dims) = Some (map Z.of_nat dims).
Proof.
  induction dims as [|d dims IH]; [reflexivity|].
  cbn [map int_dims]. rewrite IH. reflexivity.
Qed.

Lemma known_prod_of_nats dims :
  known_prod (map Z.of_nat dims) = Z.of_nat (prod_shape dims).
Proof.
  induction dims as [|d dims IH]; [reflexivity|].
  cbn [map known_prod fold_right prod_shape]. fold (known_prod (map Z.of_nat dims)).
  fold (prod_shape dims). rewrite IH.
  destruct (Z.eqb_spec (Z.of_nat d) (-1)); [lia|]. lia.
Qed.

Lemma tf_reshape_infer t n dims :
  prod_shape (shape t) = n * prod_shape dims ->
  0 < prod_shape dims ->
  exists r,
    tf_reshape t (PyInt (-1) :: map (fun d => PyInt (Z.of_nat d)) dims) = Ok r /\
    shape r = n :: dims.
Proof.
  intros Htotal Hpos. unfold tf_reshape.
  cbn [int_dims]. rewrite int_dims_of_nats. cbn [option_map].
  unfold resolve_shape.
  assert (Hall : forallb (fun d => (-1 <=? d)%Z) (-1 :: map Z.of_nat dims)%Z = true).
  { apply forallb_forall. intros z [<-|Hz]; [reflexivity|].
    apply in_map_iff in Hz. destruct Hz as (d & <- & _). apply Z.leb_le. lia. }
  assert (Hcount : count_occ Z.eq_dec (-1 :: map Z.of_nat dims)%Z (-1)%Z = 1).
  { rewrite count_occ_cons_eq by reflexivity. f_equal.
    apply count_occ_not_In. intros Hz.
    apply in_map_iff in Hz. destruct Hz as (d & E & _). lia. }
  assert (Hknown : known_prod (-1 :: map Z.of_nat dims)%Z
                   = Z.of_nat (prod_shape dims)).
  { unfold known_prod. cbn [fold_right]. fold (known_prod (map Z.of_nat dims)).
    rewrite known_prod_of_nats. reflexivity. }
  rewrite Hall, Hcount, Hknown.
  replace ((Z.of_nat (prod_shape dims) =? 0)%Z) with false
    by (symmetry; apply Z.eqb_neq; lia).
  cbn [Nat.leb Nat.eqb andb orb negb].
  rewrite Nat2Z.id. cbn [map]. cbn [Z.eqb].
  assert (Hmap : map (fun d : Z => if (d =? -1)%Z
                                   then prod_shape (shape t) / prod_shape dims
                                   else Z.to_nat d) (map Z.of_nat dims) = dims).
  { rewrite map_map. rewrite <- (map_id dims) at 2. apply map_ext.
    intros d. destruct (Z.eqb_spec (Z.of_nat d) (-1)); [lia|apply Nat2Z.id]. }
  rewrite Hmap, Htotal, Nat.div_mul by lia.
  cbn [prod_shape fold_right]. fold (prod_shape dims). rewrite Nat.eqb_refl.
  eexists. split; reflexivity.
Qed.

(** ** Successful steps, by shape *)

Lemma n_pairs_pos k : 2 <= k -> 1 <= n_pairs k.
Proof. destruct k as [|[|k]]; simpl; lia. Qed.

Lemma tf_stack_axis1_run values b d :
  values <> [] ->
  Forall (fun t => shape t = [b; d]) values ->
  exists r, tf_stack values 1 = Ok r /\ shape r = [b; length values; d].
Proof.
  intros Hne HF. destruct values as [|v0 rest]; [congruence|].
  unfold tf_stack.
  assert (Hs0 : shape v0 = [b; d]) by (inversion HF; assumption).
  assert (Hall : forallb (fun v => shape_eqb (shape v) (shape v0)) (v0 :: rest) = true).
  { apply forallb_forall. intros v Hv. rewrite Forall_forall in HF.
    rewrite (HF v Hv), Hs0. apply shape_eqb_refl. }
  rewrite Hall. unfold rank. rewrite Hs0. cbn [length Nat.leb andb].
  eexists. split; reflexivity.
Qed.

Lemma tf_reduce_sum_run t (k : nat) keepdims :
  k < rank t ->
  exists r, tf_reduce_sum t (Z.of_nat k) keepdims = Ok r /\
            shape r = if keepdims then set_at k 1 (shape t) else remove_at k (shape t).
Proof.
  intros Hk. unfold tf_reduce_sum, norm_axis.
  destruct (Z.leb_spec 0 (Z.of_nat k)) as [_|]; [|lia].
  rewrite Nat2Z.id. destruct (Nat.ltb_spec k (rank t)) as [_|]; [|lia].
  destruct keepdims; eexists; split; reflexivity.
Qed.

Lemma tf_binop_run op f a b s :
  broadcast_shape (shape a) (shape b) = Some s ->
  exists r, tf_binop op f a b = Ok r /\ shape r = s.
Proof.
  intros H. unfold tf_binop. rewrite H. eexists. split; reflexivity.
Qed.

Lemma tf_nn_softmax_last_run t :
  0 < rank t -> exists r, tf_nn_softmax t (-1) = Ok r /\ shape r = shape t.
Proof.
  intros H. unfold tf_nn_softmax. rewrite norm_axis_last by exact H.
  eexists. split; reflexivity.
Qed.

Lemma broadcast_trailing a p h : broadcast_shape [a; p; h] [h] = Some [a; p; h].
Proof. unfold broadcast_shape. cbn. rewrite Nat.eqb_refl. reflexivity. Qed.

Lemma broadcast_leading a p h : broadcast_shape [h] [a; p; h] = Some [a; p; h].
Proof. unfold broadcast_shape. cbn. rewrite Nat.eqb_refl. reflexivity. Qed.

Lemma broadcast_unit_last a p d : broadcast_shape [a; p; 1] [a; p; d] = Some [a; p; d].
Proof.
  unfold broadcast_shape. cbn -[Nat.eqb]. rewrite !Nat.eqb_refl.
  destruct (Nat.eqb_spec 1 d) as [<-|_]; reflexivity.
Qed.

(** ** [attentional_fm] on a fresh graph *)

Lemma attentional_fm_run
    initial_value keep_mask name_scope input_features emb_dim feat_size
    hid_rep_dim k is_training dropout_keep b :
  ishape input_features = [b; k] ->
  2 <= k -> 1 <= emb_dim -> 1 <= hid_rep_dim ->
  (forall q, dropout_keep = Some q -> (0 <= q)%Q /\ (q < 1)%Q) ->
  exists afm soft g',
    attentional_fm initial_value keep_mask Python2 name_scope input_features
      emb_dim feat_size hid_rep_dim (Z.of_nat k) is_training dropout_keep
      empty_graph
    = Ok ((afm, tf_squeeze soft), g') /\
    shape soft = [b; n_pairs k; 1].
Proof.
  intros Hin Hk Hd Hh Hrate.
  pose proof (n_pairs_pos k Hk) as HP.
  unfold attentional_fm, get_embeddings, get_variable, bind at 1 2.
  cbn [variables empty_graph lookup with_variables].
  destruct (zero_pad_table
              (Tensor [feat_size; emb_dim]
                 (initial_value (String.append name_scope "/embedding_matrix")
                                [feat_size; emb_dim]))
              feat_size emb_dim eq_refl) as (table & Ht & Hst & _).
  rewrite Ht.
  unfold bind at 1, lift at 1, tf_nn_embedding_lookup. rewrite Hst, Hin.
  cbn [app length].
  unfold bind at 1. cbn [variables with_variables lookup scope_counts n_random].
  rewrite append_eqb_prefix. cbn [String.eqb Ascii.eqb Bool.eqb].
  unfold bind at 1. cbn [variables with_variables lookup scope_counts n_random].
  rewrite !append_eqb_prefix. cbn [String.eqb Ascii.eqb Bool.eqb].
  unfold bind at 1. cbn [variables with_variables lookup scope_counts n_random].
  rewrite !append_eqb_prefix. cbn [String.eqb Ascii.eqb Bool.eqb].
  (* the pairwise products *)
  unfold bind at 1, lift at 1.
  match goal with
  | |- context [element_wise_prod_list ?u _] =>
      destruct (element_wise_prod_list_run u b k emb_dim eq_refl)
        as (prods & Hprods & HF & Hlen)
  end.
  rewrite Hprods.
  unfold bind at 1, lift at 1.
  destruct (tf_stack_axis1_run prods b emb_dim) as (ewp & Hewp & Hsewp).
  { intros ->. simpl in Hlen. lia. }
  { exact HF. }
  rewrite Hewp. rewrite Hlen in Hsewp.
  unfold bind at 1, lift at 1.
  destruct (tf_reduce_sum_run ewp 2 false) as (inter & Hinter & _).
  { unfold rank. rewrite Hsewp. simpl. lia. }
  change (Z.of_nat 2) with 2%Z in Hinter. rewrite Hinter.
  (* attentional part *)
  rewrite num_interactions_python2.
  unfold bind at 1, lift at 1.
  destruct (tf_reshape_infer ewp (b * n_pairs k) [emb_dim]) as (flat & Hflat & Hsflat).
  { rewrite Hsewp. cbn. ring. }
  { cbn. lia. }
  cbn [map] in Hflat. rewrite Hflat.
  unfold bind at 1, lift at 1.
  match goal with
  | |- context [tf_matmul flat ?w false] =>
      destruct (tf_matmul_2d flat w false (b * n_pairs k) emb_dim hid_rep_dim
                  Hsflat eq_refl) as (prod_W & HprodW & HsprodW & _)
  end.
  rewrite HprodW.
  unfold bind at 1, lift at 1.
  destruct (tf_reshape_infer prod_W b [n_pairs k; hid_rep_dim])
    as (attn_mul & Hmul & Hsmul).
  { rewrite HsprodW. cbn. ring. }
  { cbn. nia. }
  cbn [map] in Hmul. rewrite Hmul.
  unfold bind at 1, lift at 1.
  match goal with
  | |- context [tf_add attn_mul ?bb] =>
      destruct (tf_binop_run "add" Rplus attn_mul bb [b; n_pairs k; hid_rep_dim])
        as (pre & Hpre & Hspre)
  end.
  { rewrite Hsmul. apply broadcast_trailing. }
  unfold tf_add at 1. rewrite Hpre.
  unfold bind at 1, lift at 1.
  match goal with
  | |- context [tf_multiply ?p (tf_nn_relu pre)] =>
      destruct (tf_binop_run "mul" Rmult p (tf_nn_relu pre)
                  [b; n_pairs k; hid_rep_dim]) as (weighted & Hw & Hsw)
  end.
  { cbn [shape tf_nn_relu tf_map]. rewrite Hspre. apply broadcast_leading. }
  unfold tf_multiply at 1. rewrite Hw.
  unfold bind at 1, lift at 1.
  destruct (tf_reduce_sum_run weighted 2 true) as (attn_relu & Hrelu & Hsrelu).
  { unfold rank. rewrite Hsw. simpl. lia. }
  change (Z.of_nat 2) with 2%Z in Hrelu. rewrite Hrelu.
  rewrite Hsw in Hsrelu. cbn in Hsrelu.
  unfold bind at 1, lift at 1.
  destruct (tf_nn_softmax_last_run attn_relu) as (soft & Hsoft & Hssoft).
  { unfold rank. rewrite Hsrelu. simpl. lia. }
  rewrite Hsoft. rewrite Hsrelu in Hssoft.
  unfold bind at 1, lift at 1.
  destruct (tf_binop_run "mul" Rmult soft ewp [b; n_pairs k; emb_dim])
    as (scaled & Hscaled & Hsscaled).
  { rewrite Hssoft, Hsewp. apply broadcast_unit_last. }
  unfold tf_multiply at 1. rewrite Hscaled.
  unfold bind at 1, lift at 1.
  destruct (tf_reduce_sum_run scaled 1 false) as (afm0 & Hafm0 & _).
  { unfold rank. rewrite Hsscaled. simpl. lia. }
  change (Z.of_nat 1) with 1%Z in Hafm0. rewrite Hafm0.
  unfold bind at 1.
  destruct dropout_keep as [q|].
  - destruct (Hrate q eq_refl) as (H0 & H1).
    unfold truthy_float. destruct (negb (Qeq_bool q 0)) eqn:Hq.
    + unfold tf_layers_dropout. rewrite (valid_rate_check q H0 H1).
      apply negb_true_iff in Hq. rewrite Hq.
      eexists. eexists. eexists. split; [reflexivity|exact Hssoft].
    + eexists. eexists. eexists. split; [reflexivity|exact Hssoft].
  - eexists. eexists. eexists. split; [reflexivity|exact Hssoft].
Qed.

(** ** The attention weights of [attentional_fm] *)

Lemma unsqueeze_valid s : forall idx,
  valid_index (filter (fun d => negb (d =? 1)) s) idx ->
  valid_index s (unsqueeze_idx s idx).
Proof.
  induction s as [|d s IH]; intros idx H; simpl in *.
  - constructor.
  - destruct (Nat.eqb_spec d 1) as [->|Hd]; simpl in H.
    + constructor; [lia|]. apply IH. exact H.
    + inversion H as [|i d' idx' s' Hi Hrest]; subst.
      constructor; [exact Hi|]. apply IH. exact Hrest.
Qed.

Lemma tf_reshape_rank t dims r :
  tf_reshape t dims = Ok r -> length (shape r) = length dims.
Proof.
  unfold tf_reshape. destruct (int_dims dims) as [zs|] eqn:Hz; [|discriminate].
  assert (Hlen : length zs = length dims).
  { clear -Hz. revert zs Hz. induction dims as [|[z|q] ds IH]; intros zs Hz; simpl in Hz.
    - inversion Hz. reflexivity.
    - destruct (int_dims ds) as [zs'|]; [|discriminate].
      simpl in Hz. inversion Hz. simpl. f_equal. apply IH. reflexivity.
    - discriminate. }
  unfold resolve_shape.
  destruct (forallb (fun d => (-1 <=? d)%Z) zs
            && (count_occ Z.eq_dec zs (-1)%Z <=? 1)
            && ((count_occ Z.eq_dec zs (-1)%Z =? 0) || negb (known_prod zs =? 0)%Z));
    [|discriminate].
  match goal with
  | |- context [if ?c then _ else _] => destruct c
  end; [|discriminate].
  intros H. inversion H. cbn [shape]. rewrite length_map. exact Hlen.
Qed.

Lemma sumR_const n c : sumR n (fun _ => c) = (INR n * c)%R.
Proof.
  induction n as [|n IH]; [simpl; lra|].
  cbn [sumR]. rewrite IH, S_INR. lra.
Qed.

(** The softmax of [attentional_fm] runs over the last axis of a tensor
    whose last axis was just reduced to size 1 ([keepdims=True]). *)
Lemma attentional_fm_softmax_axis
    initial_value keep_mask python name_scope input_features emb_dim feat_size
    hid_rep_dim attr_size is_training dropout_keep g afm attn_out g' :
  attentional_fm initial_value keep_mask python name_scope input_features
    emb_dim feat_size hid_rep_dim attr_size is_training dropout_keep g
  = Ok ((afm, attn_out), g') ->
  exists attn_relu soft a p,
    shape attn_relu = [a; p; 1] /\
    tf_nn_softmax attn_relu (-1) = Ok soft /\
    attn_out = tf_squeeze soft.
Proof.
  intros H. unfold attentional_fm in H.
  tf_inv H as embedding_mat g1 Hemb. tf_inv H as uattr_emb g2 Hlook.
  tf_inv H as attn_W g3 HW. tf_inv H as attn_p g4 Hp. tf_inv H as attn_b g5 Hb.
  tf_inv H as prods g6 Hprods. tf_inv H as element_wise_prod g7 Hstack.
  tf_inv H as interactions g8 Hinter. tf_inv H as flat g9 Hflat.
  tf_inv H as prod_W g10 Hmm. tf_inv H as attn_mul g11 Hmul.
  tf_inv H as pre g12 Hpre. tf_inv H as weighted g13 Hw.
  tf_inv H as attn_relu g14 Hrelu. tf_inv H as soft g15 Hsoft.
  tf_inv H as scaled g16 Hscaled. tf_inv H as afm0 g17 Hafm.
  tf_inv H as afm1 g18 Hdrop.
  apply ret_Ok in H. destruct H as [H _]. inversion H; subst afm attn_out; clear H.
  lift_inv Hmul. lift_inv Hpre. lift_inv Hw. lift_inv Hrelu. lift_inv Hsoft.
  apply get_variable_Ok in Hp, Hb.
  apply tf_reshape_rank in Hmul. cbn [length] in Hmul.
  apply tf_binop_Ok in Hpre. destruct Hpre as (Hpre & _).
  apply broadcast_shape_length in Hpre. rewrite Hmul, Hb in Hpre. cbn in Hpre.
  apply tf_binop_Ok in Hw. destruct Hw as (Hw & _).
  apply broadcast_shape_length in Hw.
  rewrite Hp in Hw. cbn [shape tf_nn_relu tf_map] in Hw. rewrite Hpre in Hw.
  cbn in Hw.
  destruct (shape weighted) as [|a [|p [|c [|? ?]]]] eqn:Hsw; simpl in Hw; try lia.
  unfold tf_reduce_sum, rank in Hrelu. rewrite Hsw in Hrelu. cbn in Hrelu.
  exists attn_relu, soft, a, p. split; [|split; [exact Hsoft|reflexivity]].
  inversion Hrelu. reflexivity.
Qed.

(** Every attention weight handed back by a returning call is exactly 1,
    because the softmax normalises over an axis of size 1 and not over the
    pairs; so a (batch, pairs) matrix of weights has rows that sum to the
    number of pairs. *)
Lemma attentional_fm_weights_of_run
    initial_value keep_mask python name_scope input_features emb_dim feat_size
    hid_rep_dim attr_size is_training dropout_keep g afm attn_out g' :
  attentional_fm initial_value keep_mask python name_scope input_features
    emb_dim feat_size hid_rep_dim attr_size is_training dropout_keep g
  = Ok ((afm, attn_out), g') ->
  (forall idx, valid_index (shape attn_out) idx -> val attn_out idx = 1%R) /\
  (forall b p i, shape attn_out = [b; p] -> i < b ->
     sumR p (fun j => val attn_out [i; j]) = INR p).
Proof.
  intros Hrun.
  destruct (attentional_fm_softmax_axis _ _ _ _ _ _ _ _ _ _ _ _ _ _ _ Hrun)
    as (attn_relu & soft & a & p & Hs & Hsoft & ->).
  pose proof (softmax_shape _ _ _ Hsoft) as Hss. rewrite Hs in Hss.
  assert (Hone : forall idx, valid_index (shape (tf_squeeze soft)) idx ->
                             val (tf_squeeze soft) idx = 1%R).
  { intros idx Hv. cbn [shape val tf_squeeze] in *. rewrite Hss in *.
    apply unsqueeze_valid in Hv.
    set (u := unsqueeze_idx [a; p; 1] idx) in *.
    pose proof (softmax_sums_to_one attn_relu (-1) soft 2 u Hsoft) as Hsum.
    unfold rank in Hsum. rewrite Hs in Hsum. cbn [nth length] in Hsum.
    rewrite sumR_one in Hsum.
    assert (Hlen : length u = 3) by (apply valid_index_length in Hv; exact Hv).
    assert (Hlast : nth 2 u 0 = 0).
    { pose proof (valid_index_nth [a; p; 1] u 2 Hv) as Hn.
      change (nth 2 [a; p; 1] 0) with 1 in Hn.
      change (length [a; p; 1]) with 3 in Hn. lia. }
    pose proof (set_at_nth 2 u 0) as Hset. rewrite Hlast in Hset.
    rewrite Hset in Hsum by lia.
    apply Hsum; [reflexivity|lia|lia]. }
  split; [exact Hone|].
  intros b q i Hshape Hi.
  rewrite (sumR_ext q _ (fun _ => 1%R)).
  - rewrite sumR_const. lra.
  - intros j Hj. apply Hone. rewrite Hshape.
    constructor; [exact Hi|]. constructor; [exact Hj|constructor].
Qed.

Lemma INR_pairs_ne_1 k : 3 <= k -> INR (n_pairs k) <> 1%R.
Proof.
  intros Hk.
  assert (H3 : 3 <= n_pairs k).
  { destruct k as [|[|[|k]]]; try lia. cbn [n_pairs]. lia. }
  apply le_INR in H3. simpl in H3. lra.
Qed.

(** C1, on the code: for every batch size b and every field count k >= 2
    (embedding and attention dimensions at least 1, a valid dropout rate if
    any, Python 2 division, fresh graph) [attentional_fm] returns, and every
    attention weight it returns is exactly 1: the softmax runs over an axis
    of size 1, not over the k(k-1)/2 pairs.  Hence with k >= 3 each sample's
    weights sum to the number of pairs k(k-1)/2, not to 1, both when the
    weights come back as a (b, pairs) matrix (b >= 2) and when squeezing
    leaves the single sample's vector of weights (b = 1). *)
Theorem attentional_fm_attention_weights_are_one
    initial_value keep_mask name_scope input_features emb_dim feat_size
    hid_rep_dim k is_training dropout_keep b :
  ishape input_features = [b; k] ->
  2 <= k -> 1 <= emb_dim -> 1 <= hid_rep_dim ->
  (forall q, dropout_keep = Some q -> (0 <= q)%Q /\ (q < 1)%Q) ->
  exists afm attn_out g',
    attentional_fm initial_value keep_mask Python2 name_scope input_features
      emb_dim feat_size hid_rep_dim (Z.of_nat k) is_training dropout_keep
      empty_graph
    = Ok ((afm, attn_out), g') /\
    2 * n_pairs k = k * (k - 1) /\
    shape attn_out = filter (fun n => negb (n =? 1)) [b; n_pairs k; 1] /\
    (forall idx, valid_index (shape attn_out) idx -> val attn_out idx = 1%R) /\
    (3 <= k -> 2 <= b ->
     shape attn_out = [b; n_pairs k] /\
     forall i, i < b ->
       sumR (n_pairs k) (fun j => val attn_out [i; j]) = INR (n_pairs k) /\
       sumR (n_pairs k) (fun j => val attn_out [i; j]) <> 1%R) /\
    (3 <= k -> b = 1 ->
     shape attn_out = [n_pairs k] /\
     sumR (n_pairs k) (fun j => val attn_out [j]) = INR (n_pairs k) /\
     sumR (n_pairs k) (fun j => val attn_out [j]) <> 1%R).
Proof.
  intros Hin Hk Hd Hh Hrate.
  destruct (attentional_fm_run initial_value keep_mask name_scope input_features
              emb_dim feat_size hid_rep_dim k is_training dropout_keep b
              Hin Hk Hd Hh Hrate) as (afm & soft & g' & Hrun & Hsoft).
  destruct (attentional_fm_weights_of_run _ _ _ _ _ _ _ _ _ _ _ _ _ _ _ Hrun)
    as (Hone & Hrows).
  assert (Hshape : shape (tf_squeeze soft)
                   = filter (fun n => negb (n =? 1)) [b; n_pairs k; 1]).
  { cbn [shape tf_squeeze]. rewrite Hsoft. reflexivity. }
  exists afm, (tf_squeeze soft), g'.
  split; [exact Hrun|]. split; [apply n_pairs_double|].
  split; [exact Hshape|]. split; [exact Hone|]. split.
  - intros Hk3 Hb.
    assert (HP : 3 <= n_pairs k).
    { destruct k as [|[|[|k']]]; try lia. cbn [n_pairs]. lia. }
    assert (Hs2 : shape (tf_squeeze soft) = [b; n_pairs k]).
    { rewrite Hshape. cbn [filter].
      destruct (Nat.eqb_spec b 1); [lia|].
      destruct (Nat.eqb_spec (n_pairs k) 1); [lia|]. reflexivity. }
    split; [exact Hs2|]. intros i Hi.
    rewrite (Hrows b (n_pairs k) i Hs2 Hi).
    split; [reflexivity|apply INR_pairs_ne_1; exact Hk3].
  - intros Hk3 ->.
    assert (HP : 3 <= n_pairs k).
    { destruct k as [|[|[|k']]]; try lia. cbn [n_pairs]. lia. }
    assert (Hs1 : shape (tf_squeeze soft) = [n_pairs k]).
    { rewrite Hshape. cbn [filter Nat.eqb negb].
      destruct (Nat.eqb_spec (n_pairs k) 1); [lia|]. reflexivity. }
    split; [exact Hs1|].
    assert (Hsum : sumR (n_pairs k) (fun j => val (tf_squeeze soft) [j])
                   = INR (n_pairs k)).
    { rewrite (sumR_ext (n_pairs k) _ (fun _ => 1%R)).
      - rewrite sumR_const. lra.
      - intros j Hj. apply Hone. rewrite Hs1.
        constructor; [exact Hj|constructor]. }
    rewrite Hsum. split; [reflexivity|apply INR_pairs_ne_1; exact Hk3].
Qed.

(** Three fields (three pairs), a batch of two: the weights come back as a
    (2, 3) matrix and each sample's weights sum to 3. *)
Lemma attentional_fm_attention_weights_witness :
  exists afm attn_out g',
    attentional_fm ones_init keep_all Python2 "afm"
      (iconst [2; 3] 1) 4 5 3 3 true None empty_graph
    = Ok ((afm, attn_out), g') /\
    shape attn_out = [2; 3] /\
    sumR 3 (fun j => val attn_out [0; j]) = 3%R /\
    sumR 3 (fun j => val attn_out [0; j]) <> 1%R.
Proof.
  destruct (attentional_fm_attention_weights_are_one ones_init keep_all "afm"
              (iconst [2; 3] 1) 4 5 3 3 true None 2)
    as (afm & attn_out & g' & Hrun & _ & _ & _ & Hrows & _).
  - reflexivity.
  - lia.
  - lia.
  - lia.
  - intros q Hq. discriminate Hq.
  - destruct (Hrows (le_n 3) (le_n 2)) as (Hs & Hsum).
    destruct (Hsum 0 (Nat.lt_0_succ 1)) as (H3 & Hne).
    exists afm, attn_out, g'. split; [exact Hrun|]. split; [exact Hs|].
    change (n_pairs 3) with 3 in H3, Hne. simpl INR in H3.
    split; [rewrite H3; lra|exact Hne].
Defined.

(** Under Python 3 [attr_size * (attr_size - 1) / 2] is a float, which
    [tf.reshape] refuses as a dimension: the call never returns. *)
Lemma attentional_fm_python3_raises
    initial_value keep_mask name_scope input_features emb_dim feat_size
    hid_rep_dim attr_size is_training dropout_keep g r :
  attentional_fm initial_value keep_mask Python3 name_scope input_features
    emb_dim feat_size hid_rep_dim attr_size is_training dropout_keep g <> Ok r.
Proof.
  intros H. unfold attentional_fm in H.
  tf_inv H as embedding_mat g1 Hemb. tf_inv H as uattr_emb g2 Hlook.
  tf_inv H as attn_W g3 HW. tf_inv H as attn_p g4 Hp. tf_inv H as attn_b g5 Hb.
  tf_inv H as prods g6 Hprods. tf_inv H as element_wise_prod g7 Hstack.
  tf_inv H as interactions g8 Hinter. tf_inv H as flat g9 Hflat.
  tf_inv H as prod_W g10 Hmm. tf_inv H as attn_mul g11 Hmul.
  lift_inv Hmul. unfold tf_reshape in Hmul. cbn in Hmul. discriminate.
Qed.

(** ** The attention head on a batched table *)

Lemma maybe_dropout_run km (c : bool) x rate training g :
  (0 <= rate)%Q -> (rate < 1)%Q ->
  exists t g',
    (if c then tf_layers_dropout km x rate training else ret x) g = Ok (t, g') /\
    shape t = shape x /\ variables g' = variables g /\
    scope_counts g' = scope_counts g.
Proof.
  intros H0 H1. destruct c.
  - unfold tf_layers_dropout. rewrite (valid_rate_check rate H0 H1).
    destruct (Qeq_bool rate 0).
    + eexists. eexists. split; [reflexivity|]. auto.
    + eexists. eexists. split; [reflexivity|]. destruct training; auto.
  - eexists. eexists. split; [reflexivity|]. auto.
Qed.

Lemma broadcast_column_row n : broadcast_shape [1; n; 1] [1; 1; n] = Some [1; n; n].
Proof.
  unfold broadcast_shape. cbn -[Nat.eqb]. rewrite !Nat.eqb_refl.
  destruct (Nat.eqb_spec n 1) as [->|Hn]; [reflexivity|].
  destruct (Nat.eqb_spec 1 n) as [<-|_]; [congruence|reflexivity].
Qed.

Lemma broadcast_mask n : broadcast_shape [1; n; n] [1; n] = Some [1; n; n].
Proof.
  unfold broadcast_shape. cbn -[Nat.eqb]. rewrite !Nat.eqb_refl.
  destruct (Nat.eqb_spec n 1) as [->|Hn]; reflexivity.
Qed.

(** On a fresh graph, with the whole graph as one batch entry (table of
    shape (1, n, d), as in the GAT reference), one query index, a (1, n)
    mask and valid dropout rates, [gat_attn_head] returns, with coefficients
    of shape (1, n, n). *)
Lemma gat_attn_head_returns
    initial_value keep_mask input_indices emb_lookup output_size bias_mat
    activation is_training head_id ft_drop coef_drop n d :
  shape emb_lookup = [1; n; d] ->
  ishape input_indices = [1] ->
  shape bias_mat = [1; n] ->
  (0 <= ft_drop)%Q -> (ft_drop < 1)%Q ->
  (0 <= coef_drop)%Q -> (coef_drop < 1)%Q ->
  exists ret_ coefs g',
    gat_attn_head initial_value keep_mask input_indices emb_lookup output_size
      bias_mat activation is_training head_id ft_drop coef_drop empty_graph
    = Ok ((ret_, coefs), g') /\
    shape coefs = [1; n; n].
Proof.
  intros Hemb Hids Hbias Hf0 Hf1 Hc0 Hc1. unfold gat_attn_head.
  destruct (maybe_dropout_run keep_mask (float_nonzero ft_drop) emb_lookup ft_drop
              is_training empty_graph Hf0 Hf1) as (emb & g1 & Hrun1 & Hs1 & Hv1 & Hsc1).
  rewrite (bind_Ok_intro _ _ _ _ _ Hrun1). rewrite Hemb in Hs1.
  destruct g1 as [vs1 sc1 nr1]. cbn in Hv1, Hsc1. subst vs1 sc1.
  (* hid_emb_lookup *)
  unfold tf_layers_dense at 1. unfold rank at 1. rewrite Hs1.
  cbn -[tf_layers_dense tf_layers_dropout tf_transpose tf_add tf_nn_softmax
        tf_matmul tf_contrib_layers_bias_add tf_nn_embedding_lookup float_nonzero].
  match goal with
  | |- context [tf_nn_embedding_lookup ?h input_indices] => set (hid := h)
  end.
  assert (Hhid : shape hid = [1; n; output_size]) by reflexivity.
  clearbody hid.
  unfold bind at 1, lift at 1, tf_nn_embedding_lookup at 1. rewrite Hhid, Hids.
  cbn [app length].
  match goal with
  | |- context [tf_layers_dense initial_value ?h 1 None true None] =>
      set (b_hid := h)
  end.
  assert (Hbh : shape b_hid = [1; n; output_size]) by reflexivity.
  clearbody b_hid.
  (* f_1 *)
  unfold tf_layers_dense at 1. unfold rank at 1. rewrite Hbh.
  cbn -[tf_layers_dense tf_layers_dropout tf_transpose tf_add tf_nn_softmax
        tf_matmul tf_contrib_layers_bias_add float_nonzero].
  match goal with
  | |- context [tf_add ?f _] => set (f_1 := f)
  end.
  assert (Hf1s : shape f_1 = [1; n; 1]) by reflexivity.
  clearbody f_1.
  (* f_2 *)
  unfold tf_layers_dense at 1. unfold rank at 1. rewrite Hhid.
  cbn -[tf_layers_dropout tf_transpose tf_add tf_nn_softmax
        tf_matmul tf_contrib_layers_bias_add float_nonzero].
  match goal with
  | |- context [tf_transpose ?f _] => set (f_2 := f)
  end.
  assert (Hf2s : shape f_2 = [1; n; 1]) by reflexivity.
  clearbody f_2.
  unfold bind at 1, lift at 1, tf_transpose, rank. rewrite Hf2s.
  cbn [length is_permutation Nat.eqb forallb seq existsb andb orb map nth].
  match goal with
  | |- context [tf_add f_1 ?f] => set (f_2t := f)
  end.
  assert (Hf2t : shape f_2t = [1; 1; n]) by reflexivity.
  clearbody f_2t.
  unfold bind at 1, lift at 1.
  destruct (tf_binop_run "add" Rplus f_1 f_2t [1; n; n]) as (logits & Hlog & Hslog).
  { rewrite Hf1s, Hf2t. apply broadcast_column_row. }
  unfold tf_add at 1. rewrite Hlog.
  unfold bind at 1, lift at 1.
  destruct (tf_binop_run "add" Rplus (tf_nn_leaky_relu logits) bias_mat [1; n; n])
    as (masked & Hmask & Hsmask).
  { cbn [shape tf_nn_leaky_relu tf_map]. rewrite Hslog, Hbias. apply broadcast_mask. }
  unfold tf_add at 1. rewrite Hmask.
  unfold bind at 1, lift at 1.
  destruct (tf_nn_softmax_last_run masked) as (soft & Hsoft & Hssoft).
  { unfold rank. rewrite Hsmask. simpl. lia. }
  rewrite Hsoft. rewrite Hsmask in Hssoft.
  match goal with
  | |- context [bind (if float_nonzero coef_drop then _ else _) _ ?g] =>
      set (g2 := g)
  end.
  destruct (maybe_dropout_run keep_mask (float_nonzero coef_drop) soft coef_drop
              is_training g2 Hc0 Hc1) as (coefs & g3 & Hrun3 & Hs3 & Hv3 & Hsc3).
  rewrite (bind_Ok_intro _ _ _ _ _ Hrun3). rewrite Hssoft in Hs3.
  destruct (maybe_dropout_run keep_mask (float_nonzero ft_drop) hid ft_drop
              is_training g3 Hf0 Hf1) as (hid' & g4 & Hrun4 & Hs4 & Hv4 & Hsc4).
  rewrite (bind_Ok_intro _ _ _ _ _ Hrun4). rewrite Hhid in Hs4.
  unfold bind at 1, lift at 1.
  assert (Hmm : exists vals, tf_matmul coefs hid' false = Ok vals
                             /\ shape vals = [1; n; output_size]).
  { unfold tf_matmul, rank. rewrite Hs3, Hs4. cbn -[Nat.eqb].
    rewrite Nat.eqb_refl. eexists. split; reflexivity. }
  destruct Hmm as (vals & Hvals & Hsvals). rewrite Hvals.
  unfold bind at 1, tf_contrib_layers_bias_add, rank. rewrite Hsvals.
  destruct g4 as [vs4 sc4 nr4]. cbn in Hv4, Hsc4. rewrite Hv3 in Hv4. rewrite Hsc3 in Hsc4.
  subst vs4 sc4. subst g2.
  cbn -[tf_add].
  unfold tf_add, tf_binop. rewrite Hsvals. cbn [shape].
  rewrite broadcast_trailing.
  eexists. eexists. eexists. split; [reflexivity|exact Hs3].
Qed.

(** * Further properties *)

(** ** The double loop over fields *)

Lemma py_range_In_iff lo hi i : In i (py_range lo hi) <-> (lo <= i < hi)%Z.
Proof.
  split; [apply py_range_In|].
  intros H. unfold py_range. apply in_map_iff.
  exists (Z.to_nat (i - lo)). split; [lia|]. apply in_seq. lia.
Qed.

Lemma py_range_NoDup lo hi : NoDup (py_range lo hi).
Proof.
  unfold py_range. apply NoDup_map_NoDup_ForallPairs; [|apply seq_NoDup].
  intros a b _ _ H. lia.
Qed.

Lemma flat_map_NoDup {A B} (f : A -> list B) l :
  NoDup l ->
  (forall a, In a l -> NoDup (f a)) ->
  (forall a b x, In a l -> In b l -> In x (f a) -> In x (f b) -> a = b) ->
  NoDup (flat_map f l).
Proof.
  induction l as [|a l IH]; intros Hl Hf Hdisj; simpl; [constructor|].
  inversion Hl as [|? ? Hnotin Hl']; subst.
  apply NoDup_app.
  - apply Hf. left. reflexivity.
  - apply IH; [exact Hl'| |].
    + intros b Hb. apply Hf. right. exact Hb.
    + intros b c x Hb Hc. apply Hdisj; right; assumption.
  - intros x Hx Hin. apply in_flat_map in Hin. destruct Hin as (b & Hb & Hxb).
    assert (a = b)
      by (apply (Hdisj a b x);
          [left; reflexivity|right; exact Hb|exact Hx|exact Hxb]).
    subst. contradiction.
Qed.

Lemma field_pairs_In_iff attr_size i j :
  In (i, j) (field_pairs attr_size) <-> (0 <= i < j)%Z /\ (j < attr_size)%Z.
Proof.
  unfold field_pairs. rewrite in_flat_map. split.
  - intros (i' & Hi & Hj). apply in_map_iff in Hj.
    destruct Hj as (j' & E & Hj). inversion E; subst.
    apply py_range_In_iff in Hi, Hj. lia.
  - intros (Hij & Hj). exists i. split.
    + apply py_range_In_iff. lia.
    + apply in_map_iff. exists j. split; [reflexivity|].
      apply py_range_In_iff. lia.
Qed.

(** X1: the double loop of [attentional_fm] visits exactly the pairs of
    field positions (i, j) with 0 <= i < j < attr_size, each once; there are
    k(k-1)/2 of them for attr_size = k. *)
Theorem field_pairs_enumerates_pairs (attr_size : Z) :
  (forall i j, In (i, j) (field_pairs attr_size) <->
               (0 <= i < j)%Z /\ (j < attr_size)%Z) /\
  NoDup (field_pairs attr_size) /\
  2 * length (field_pairs attr_size)
  = Z.to_nat attr_size * (Z.to_nat attr_size - 1).
Proof.
  split; [|split].
  - intros i j. apply field_pairs_In_iff.
  - unfold field_pairs. apply flat_map_NoDup.
    + apply py_range_NoDup.
    + intros i _. apply NoDup_map_NoDup_ForallPairs; [|apply py_range_NoDup].
      intros a b _ _ E. inversion E. reflexivity.
    + intros a b [i j] _ _ Ha Hb. apply in_map_iff in Ha, Hb.
      destruct Ha as (? & Ea & _). destruct Hb as (? & Eb & _).
      inversion Ea. inversion Eb. congruence.
  - destruct (Z.le_gt_cases attr_size 0) as [Hle|Hgt].
    + assert (Hnil : field_pairs attr_size = []).
      { unfold field_pairs, py_range.
        replace (Z.to_nat (attr_size - 0)) with 0 by lia. reflexivity. }
      rewrite Hnil. replace (Z.to_nat attr_size) with 0 by lia. reflexivity.
    + rewrite <- (Z2Nat.id attr_size) at 1 by lia.
      rewrite field_pairs_length. apply n_pairs_double.
Qed.

(** ** Centroid correlation, entry by entry *)





(** ** The embedding table and its variable *)

Lemma get_variable_lookup iv name shp reuse g v g' :
  get_variable iv name shp reuse g = Ok (v, g') ->
  lookup name (variables g') = Some v /\
  (forall w, lookup name (variables g) = Some w -> v = w /\ g' = g).
Proof.
  unfold get_variable. destruct (lookup name (variables g)) as [w|] eqn:L.
  - destruct reuse; [|discriminate].
    destruct (shape_eqb (shape w) shp); [|discriminate].
    intros H. inversion H; subst. split; [exact L|].
    intros w' Hw'. inversion Hw'. split; reflexivity.
  - intros H. inversion H; subst. cbn [variables with_variables lookup].
    rewrite String.eqb_refl. split; [reflexivity|]. intros w Hw. discriminate Hw.
Qed.

Lemma zero_pad_table_rows (embeddings : tensor) V d :
  shape embeddings = [V; d] ->
  exists t,
    (rest <- lift (slice_from1 embeddings) ;;
     lift (tf_concat [tf_zeros [1; d]; rest] 0)) =
    (fun g => Ok (t, g)) /\
    forall i j, 1 <= i -> i < V -> val t [i; j] = val embeddings [i; j].
Proof.
  intros Hs. unfold slice_from1. rewrite Hs.
  unfold bind, lift, tf_concat. cbn [rank shape tf_zeros length norm_axis].
  cbn -[Nat.eqb].
  rewrite !Nat.eqb_refl. cbn.
  eexists. split; [reflexivity|].
  intros i j H1 HV. destruct i as [|i]; [lia|].
  destruct V as [|[|V]]; try lia. cbn.
  rewrite Nat.sub_0_r.
  destruct (Nat.leb_spec i V) as [_|]; [reflexivity|lia].
Qed.

(** X3: the table returned by [get_embeddings] is read off the variable
    [name_scope/embedding_matrix] held by the resulting graph: without zero
    padding it is that variable, with zero padding it differs from it in row
    0 only (rows 1 .. V-1 are the variable's rows).  A variable already in
    the store is reused as it is and the graph is left unchanged. *)
Theorem get_embeddings_reads_variable initial_value V d name_scope zero_pad g :
  (forall v, lookup (String.append name_scope "/embedding_matrix") (variables g)
             = Some v -> shape v = [V; d]) ->
  exists t g' v,
    get_embeddings initial_value V d name_scope zero_pad g = Ok (t, g') /\
    lookup (String.append name_scope "/embedding_matrix") (variables g') = Some v /\
    shape v = [V; d] /\
    (forall w, lookup (String.append name_scope "/embedding_matrix") (variables g)
               = Some w -> v = w /\ g' = g) /\
    (zero_pad = false -> t = v) /\
    (zero_pad = true ->
     forall i j, 1 <= i -> i < V -> val t [i; j] = val v [i; j]).
Proof.
  intros Hstore.
  assert (Hvar : exists v g', get_variable initial_value
                   (String.append name_scope "/embedding_matrix") [V; d] true g
                 = Ok (v, g')).
  { unfold get_variable.
    destruct (lookup (String.append name_scope "/embedding_matrix") (variables g))
      as [w|] eqn:L.
    - rewrite (Hstore w eq_refl), shape_eqb_refl. eauto.
    - eauto. }
  destruct Hvar as (v & g' & Hv).
  pose proof (get_variable_Ok _ _ _ _ _ _ _ Hv) as Hsv.
  destruct (get_variable_lookup _ _ _ _ _ _ _ Hv) as (Hlook & Hreuse).
  unfold get_embeddings. rewrite (bind_Ok_intro _ _ _ _ _ Hv).
  destruct zero_pad.
  - destruct (zero_pad_table_rows v V d Hsv) as (t & Ht & Hrows).
    rewrite Ht. exists t, g', v.
    split; [reflexivity|]. split; [exact Hlook|]. split; [exact Hsv|].
    split; [exact Hreuse|]. split; [discriminate|]. intros _. exact Hrows.
  - exists v, g', v.
    split; [reflexivity|]. split; [exact Hlook|]. split; [exact Hsv|].
    split; [exact Hreuse|]. split; [reflexivity|discriminate].
Qed.

(** A zero-padded table of four 2-dimensional embeddings, fresh graph. *)
Lemma get_embeddings_reads_variable_witness :
  exists t g' v,
    get_embeddings ones_init 4 2 "afm" true empty_graph = Ok (t, g') /\
    lookup "afm/embedding_matrix" (variables g') = Some v /\
    val t [3; 1] = val v [3; 1].
Proof.
  destruct (get_embeddings_reads_variable ones_init 4 2 "afm" true empty_graph)
    as (t & g' & v & Hrun & Hl & _ & _ & _ & Hrows).
  - simpl. discriminate.
  - exists t, g', v. split; [exact Hrun|]. split; [exact Hl|].
    apply Hrows; [reflexivity|lia|lia].
Defined.

(** X4: once [get_embeddings] has returned in a scope, asking the same scope
    for a table of another vocabulary size or dimension raises: the variable
    is shared by name and its shape is fixed by the first call. *)
Theorem get_embeddings_shape_conflict
    initial_value V d name_scope zero_pad g t g' initial_value' V' d' zero_pad' :
  get_embeddings initial_value V d name_scope zero_pad g = Ok (t, g') ->
  [V'; d'] <> [V; d] ->
  get_embeddings initial_value' V' d' name_scope zero_pad' g'
  = Err (ValueError "get_variable").
Proof.
  intros Hrun Hne.
  assert (Hl : exists v, lookup (String.append name_scope "/embedding_matrix")
                           (variables g') = Some v /\ shape v = [V; d]).
  { unfold get_embeddings in Hrun. tf_inv Hrun as v g1 Hv.
    pose proof (get_variable_Ok _ _ _ _ _ _ _ Hv) as Hsv.
    destruct (get_variable_lookup _ _ _ _ _ _ _ Hv) as (Hlook & _).
    assert (g' = g1).
    { destruct zero_pad.
      - destruct (zero_pad_table v V d Hsv) as (u & Hu & _).
        rewrite Hu in Hrun. inversion Hrun. reflexivity.
      - apply ret_Ok in Hrun. destruct Hrun. assumption. }
    subst. eauto. }
  destruct Hl as (v & Hl & Hsv).
  unfold get_embeddings, bind at 1, get_variable. rewrite Hl, Hsv.
  destruct (shape_eqb [V; d] [V'; d']) eqn:E; [|reflexivity].
  apply shape_eqb_eq in E. congruence.
Qed.

(** Four rows first, five rows asked next. *)
Lemma get_embeddings_shape_conflict_witness :
  exists t g',
    get_embeddings ones_init 4 2 "afm" true empty_graph = Ok (t, g') /\
    get_embeddings ones_init 5 2 "afm" true g' = Err (ValueError "get_variable").
Proof.
  destruct (get_embeddings_returns ones_init 4 2 "afm" true empty_graph)
    as (t & g' & Hrun).
  - simpl. discriminate.
  - exists t, g'. split; [exact Hrun|].
    apply (get_embeddings_shape_conflict _ _ _ _ _ _ _ _ ones_init 5 2 true Hrun).
    discriminate.
Defined.

(** ** Centroid pooling: values *)

Lemma sumR_plus n f g :
  sumR n (fun j => (f j + g j)%R) = (sumR n f + sumR n g)%R.
Proof. induction n as [|n IH]; simpl; [lra|]. rewrite IH. lra. Qed.





(** What a call of [centroid] computes, step by step: the centroid variable
    it holds afterwards, the scores (similarities after the optional
    activation), the assignment weights and the pooled output. *)
Lemma centroid_run
    initial_value get_activation_func input_features n_centroid emb_size
    tao name_scope var_name activation g b :
  shape input_features = [b; emb_size] ->
  admissible_activation get_activation_func activation ->
  (forall v, lookup (String.append name_scope (String.append "/" var_name))
                    (variables g) = Some v ->
             shape v = [n_centroid; emb_size]) ->
  exists centroids scores output logits g',
    centroid initial_value get_activation_func input_features n_centroid
      emb_size tao name_scope var_name activation g = Ok ((output, logits), g') /\
    lookup (String.append name_scope (String.append "/" var_name)) (variables g')
    = Some centroids /\
    shape centroids = [n_centroid; emb_size] /\
    shape scores = [b; n_centroid] /\
    (truthy_string activation = false ->
     forall i j, val scores [i; j]
                 = sumR emb_size (fun k => (val input_features [i; k]
                                            * val centroids [j; k])%R)) /\
    shape logits = [b; n_centroid] /\
    (forall i j, i < b -> j < n_centroid ->
       val logits [i; j]
       = (exp (val scores [i; j] / Q2R tao)
          / sumR n_centroid (fun j' => exp (val scores [i; j'] / Q2R tao)))%R) /\
    shape output = [b; emb_size] /\
    (forall i k, val output [i; k]
                 = sumR n_centroid (fun j => (val logits [i; j] * val centroids [j; k])%R)).
Proof.
  intros Hin Hact Hstore.
  assert (Hvar : exists v g', get_variable initial_value
                   (String.append name_scope (String.append "/" var_name))
                   [n_centroid; emb_size] true g = Ok (v, g')).
  { unfold get_variable.
    destruct (lookup (String.append name_scope (String.append "/" var_name))
                     (variables g)) as [w|] eqn:L.
    - rewrite (Hstore w eq_refl), shape_eqb_refl. eauto.
    - eauto. }
  destruct Hvar as (cent & g' & Hvar).
  pose proof (get_variable_Ok _ _ _ _ _ _ _ Hvar) as Hcent.
  destruct (get_variable_lookup _ _ _ _ _ _ _ Hvar) as (Hlook & _).
  destruct (tf_matmul_2d input_features cent true b emb_size n_centroid Hin Hcent)
    as (ft_mul & Hmm & Hsm & Hvm).
  assert (Hactd : exists scores,
             (if truthy_string activation then
                activation_func <- lift (get_activation_func
                                           (match activation with
                                            | Some a => a
                                            | None => EmptyString
                                            end)) ;;
                lift (activation_func ft_mul)
              else ret ft_mul) g' = Ok (scores, g')
             /\ shape scores = [b; n_centroid]
             /\ (truthy_string activation = false -> scores = ft_mul)).
  { destruct (truthy_string activation) eqn:T.
    - destruct (Hact T) as (f & Hf & Hshape).
      destruct (Hshape ft_mul) as (t' & Ht' & Hst').
      exists t'. unfold bind, lift. rewrite Hf, Ht'.
      split; [reflexivity|]. split; [congruence|discriminate].
    - exists ft_mul. split; [reflexivity|]. split; [exact Hsm|reflexivity]. }
  destruct Hactd as (scores & Hrun & Hss & Hnoact).
  assert (Hdiv : exists scaled, tf_truediv scores (scalar (Q2R tao)) = Ok scaled
                   /\ shape scaled = [b; n_centroid]
                   /\ forall i j, i < b -> j < n_centroid ->
                        val scaled [i; j] = (val scores [i; j] / Q2R tao)%R).
  { unfold tf_truediv, tf_binop. cbn [shape scalar].
    rewrite broadcast_shape_nil_r. eexists. split; [reflexivity|].
    split; [exact Hss|]. intros i j Hi Hj. cbn [val scalar]. rewrite Hss.
    rewrite bidx_valid; [reflexivity|].
    constructor; [exact Hi|]. constructor; [exact Hj|constructor]. }
  destruct Hdiv as (scaled & Hdiv & Hssc & Hvsc).
  assert (Hsoft : exists logits, tf_nn_softmax scaled (-1) = Ok logits
                    /\ shape logits = [b; n_centroid]
                    /\ forall i j, val logits [i; j]
                         = (exp (val scaled [i; j])
                            / sumR n_centroid (fun j' => exp (val scaled [i; j'])))%R).
  { unfold tf_nn_softmax.
    rewrite norm_axis_last by (unfold rank; rewrite Hssc; simpl; lia).
    unfold rank. rewrite Hssc.
    eexists. split; [reflexivity|]. split; [reflexivity|].
    intros i j. reflexivity. }
  destruct Hsoft as (logits & Hsoft & Hsl & Hvl).
  destruct (tf_matmul_2d logits cent false b n_centroid emb_size Hsl Hcent)
    as (output & Hout & Hso & Hvo).
  exists cent, scores, output, logits, g'.
  split; [|split; [exact Hlook|split; [exact Hcent|split; [exact Hss|split]]]].
  - unfold centroid.
    rewrite (bind_Ok_intro _ _ _ _ _ Hvar).
    unfold bind at 1, lift at 1. rewrite Hmm.
    rewrite (bind_Ok_intro _ _ _ _ _ Hrun).
    unfold bind at 1, lift at 1. rewrite Hdiv.
    unfold bind at 1, lift at 1. rewrite Hsoft.
    unfold bind at 1, lift at 1. rewrite Hout.
    reflexivity.
  - intros T i j. rewrite (Hnoact T). apply Hvm.
  - split; [exact Hsl|]. split.
    + intros i j Hi Hj. rewrite Hvl, (Hvsc i j Hi Hj). f_equal.
      apply sumR_ext. intros j' Hj'. rewrite (Hvsc i j' Hi Hj'). reflexivity.
    + split; [exact Hso|exact Hvo].
Qed.




Lemma centroid_keeps_graph
    initial_value get_activation_func input_features n_centroid emb_size
    tao name_scope var_name activation g r g' v :
  centroid initial_value get_activation_func input_features n_centroid
    emb_size tao name_scope var_name activation g = Ok (r, g') ->
  lookup (String.append name_scope (String.append "/" var_name)) (variables g)
  = Some v ->
  g' = g /\
  lookup (String.append name_scope (String.append "/" var_name)) (variables g')
  = Some v.
Proof.
  intros H Hl. unfold centroid in H.
  tf_inv H as cent g1 Hvar. tf_inv H as mm g2 Hmm. tf_inv H as act g3 Hact.
  tf_inv H as scaled g4 Hdiv. tf_inv H as logits g5 Hsoft.
  tf_inv H as output g6 Hout.
  apply ret_Ok in H. destruct H as [_ ->].
  lift_inv Hout. lift_inv Hsoft. lift_inv Hdiv. lift_inv Hmm.
  assert (g3 = g1).
  { destruct (truthy_string activation).
    - tf_inv Hact as f g7 Hf. lift_inv Hf. lift_inv Hact. reflexivity.
    - apply ret_Ok in Hact. destruct Hact as [_ ->]. reflexivity. }
  subst g3.
  destruct (get_variable_lookup _ _ _ _ _ _ _ Hvar) as (_ & Hsame).
  destruct (Hsame v Hl) as (_ & ->). split; [reflexivity|exact Hl].
Qed.



(** X7: the centroids are one variable per scope and name.  After a first
    call, a second call in the same scope, with another batch, temperature
    and activation, returns, leaves the graph as it is, and pools over the
    very centroids of the first call: both outputs are weighted sums of the
    rows of the same stored matrix. *)
Theorem centroid_shares_centroids
    initial_value get_activation_func input1 input2 n_centroid emb_size
    tao1 tao2 name_scope var_name activation1 activation2 g b1 b2 :
  shape input1 = [b1; emb_size] ->
  shape input2 = [b2; emb_size] ->
  admissible_activation get_activation_func activation1 ->
  admissible_activation get_activation_func activation2 ->
  (forall v, lookup (String.append name_scope (String.append "/" var_name))
                    (variables g) = Some v ->
             shape v = [n_centroid; emb_size]) ->
  exists centroids output1 logits1 output2 logits2 g',
    centroid initial_value get_activation_func input1 n_centroid
      emb_size tao1 name_scope var_name activation1 g
    = Ok ((output1, logits1), g') /\
    centroid initial_value get_activation_func input2 n_centroid
      emb_size tao2 name_scope var_name activation2 g'
    = Ok ((output2, logits2), g') /\
    lookup (String.append name_scope (String.append "/" var_name)) (variables g')
    = Some centroids /\
    shape centroids = [n_centroid; emb_size] /\
    (forall i k, val output1 [i; k]
                 = sumR n_centroid
                     (fun j => (val logits1 [i; j] * val centroids [j; k])%R)) /\
    (forall i k, val output2 [i; k]
                 = sumR n_centroid
                     (fun j => (val logits2 [i; j] * val centroids [j; k])%R)).
Proof.
  intros Hin1 Hin2 Hact1 Hact2 Hstore.
  destruct (centroid_run initial_value get_activation_func input1
              n_centroid emb_size tao1 name_scope var_name activation1 g b1
              Hin1 Hact1 Hstore)
    as (cent & scores1 & output1 & logits1 & g' & Hrun1 & Hlook1 & Hsc & _ & _ & _
        & _ & _ & Hvo1).
  destruct (centroid_run initial_value get_activation_func input2
              n_centroid emb_size tao2 name_scope var_name activation2 g' b2
              Hin2 Hact2)
    as (cent2 & scores2 & output2 & logits2 & g'' & Hrun2 & Hlook2 & _ & _ & _ & _
        & _ & _ & Hvo2).
  { intros v Hv. rewrite Hlook1 in Hv. inversion Hv; subst v. exact Hsc. }
  destruct (centroid_keeps_graph _ _ _ _ _ _ _ _ _ _ _ _ _ Hrun2 Hlook1) as (-> & Hl).
  rewrite Hl in Hlook2. inversion Hlook2; subst cent2.
  exists cent, output1, logits1, output2, logits2, g'.
  split; [exact Hrun1|]. split; [exact Hrun2|]. split; [exact Hlook1|].
  split; [exact Hsc|]. split; [exact Hvo1|exact Hvo2].
Qed.

(** A batch of two and a batch of five against the same four centroids. *)
Lemma centroid_shares_centroids_witness :
  exists centroids output1 logits1 output2 logits2 g',
    centroid ones_init relu_table (ones [2; 3]) 4 3 (1 # 2) "user" "centroids"
      (Some "relu") empty_graph = Ok ((output1, logits1), g') /\
    centroid ones_init relu_table (tf_zeros [5; 3]) 4 3 1 "user" "centroids"
      None g' = Ok ((output2, logits2), g') /\
    lookup "user/centroids" (variables g') = Some centroids.
Proof.
  destruct (centroid_shares_centroids ones_init relu_table (ones [2; 3])
              (tf_zeros [5; 3]) 4 3 (1 # 2) 1 "user" "centroids" (Some "relu") None
              empty_graph 2 5)
    as (cent & o1 & l1 & o2 & l2 & g' & H1 & H2 & H3 & _).
  - reflexivity.
  - reflexivity.
  - intros _. eexists. split; [reflexivity|].
    intros t. eexists. split; reflexivity.
  - intros H. discriminate H.
  - simpl. discriminate.
  - exists cent, o1, l1, o2, l2, g'. auto.
Defined.

(** X8: [centroid] does not check [emb_size] against its input.  When the
    rows of the input do not have [emb_size] entries the call never returns:
    the variable is acquired and the first product then fails, on every
    graph whose store lacks the variable or holds it with the requested
    shape. *)
Theorem centroid_dimension_mismatch
    initial_value get_activation_func input_features n_centroid emb_size
    tao name_scope var_name activation b d :
  shape input_features = [b; d] ->
  d <> emb_size ->
  (forall g, exists e,
     centroid initial_value get_activation_func input_features n_centroid
       emb_size tao name_scope var_name activation g = Err e /\
     (e = ValueError "matmul" \/ e = ValueError "get_variable")) /\
  (forall g,
     (forall v, lookup (String.append name_scope (String.append "/" var_name))
                       (variables g) = Some v ->
                shape v = [n_centroid; emb_size]) ->
     centroid initial_value get_activation_func input_features n_centroid
       emb_size tao name_scope var_name activation g = Err (ValueError "matmul")).
Proof.
  intros Hin Hd.
  assert (Hmm : forall cent, shape cent = [n_centroid; emb_size] ->
                  tf_matmul input_features cent true = Err (ValueError "matmul")).
  { intros cent Hc. unfold tf_matmul, rank. rewrite Hin, Hc.
    cbn [length Nat.leb andb Nat.sub nth].
    destruct (Nat.eqb_spec d emb_size) as [E|_]; [contradiction|reflexivity]. }
  split.
  - intros g. unfold centroid. unfold bind at 1.
    destruct (get_variable initial_value
                (String.append name_scope (String.append "/" var_name))
                [n_centroid; emb_size] true g) as [[cent g1]|e] eqn:E.
    + unfold bind at 1, lift at 1.
      rewrite (Hmm cent (get_variable_Ok _ _ _ _ _ _ _ E)).
      eexists. split; [reflexivity|]. left. reflexivity.
    + exists e. split; [reflexivity|]. right. eapply get_variable_Err. exact E.
  - intros g Hstore. unfold centroid. unfold bind at 1.
    destruct (get_variable initial_value
                (String.append name_scope (String.append "/" var_name))
                [n_centroid; emb_size] true g) as [[cent g1]|e] eqn:E.
    + unfold bind at 1, lift at 1.
      rewrite (Hmm cent (get_variable_Ok _ _ _ _ _ _ _ E)). reflexivity.
    + exfalso. unfold get_variable in E.
      destruct (lookup (String.append name_scope (String.append "/" var_name))
                       (variables g)) as [w|] eqn:L; [|discriminate E].
      rewrite (Hstore w eq_refl), shape_eqb_refl in E. discriminate E.
Qed.

(** Rows of three entries against centroids of size two. *)
Lemma centroid_dimension_mismatch_witness :
  centroid ones_init relu_table (ones [2; 3]) 4 2 (1 # 2) "user" "centroids"
    None empty_graph = Err (ValueError "matmul").
Proof.
  destruct (centroid_dimension_mismatch ones_init relu_table (ones [2; 3]) 4 2
              (1 # 2) "user" "centroids" None 2 3) as (_ & H).
  - reflexivity.
  - discriminate.
  - apply H. simpl. discriminate.
Defined.

(** ** The store only grows *)

Lemma get_variable_preserves iv name shp reuse g v g' m w :
  get_variable iv name shp reuse g = Ok (v, g') ->
  lookup m (variables g) = Some w ->
  lookup m (variables g') = Some w.
Proof.
  unfold get_variable. destruct (lookup name (variables g)) as [u|] eqn:L.
  - destruct reuse; [|discriminate].
    destruct (shape_eqb (shape u) shp); [|discriminate].
    intros H. inversion H; subst. auto.
  - intros H Hm. inversion H; subst. cbn [variables with_variables lookup].
    destruct (String.eqb_spec m name) as [->|_]; [congruence|exact Hm].
Qed.

Lemma unique_scope_variables base g s g' :
  unique_scope base g = Ok (s, g') -> variables g' = variables g.
Proof. unfold unique_scope. intros H. inversion H. reflexivity. Qed.

Lemma tf_layers_dense_preserves iv inputs units activation use_bias name g t g' m w :
  tf_layers_dense iv inputs units activation use_bias name g = Ok (t, g') ->
  lookup m (variables g) = Some w ->
  lookup m (variables g') = Some w.
Proof.
  unfold tf_layers_dense. intros H Hm.
  destruct (2 <=? rank inputs); [|discriminate].
  tf_inv H as scope g1 Hscope. tf_inv H as kernel g2 Hk. tf_inv H as bias g3 Hb.
  apply ret_Ok in H. destruct H as [_ ->].
  assert (H1 : lookup m (variables g1) = Some w).
  { destruct name.
    - apply ret_Ok in Hscope. destruct Hscope as [_ ->]. exact Hm.
    - apply unique_scope_variables in Hscope. rewrite Hscope. exact Hm. }
  pose proof (get_variable_preserves _ _ _ _ _ _ _ _ _ Hk H1) as H2.
  destruct use_bias.
  - exact (get_variable_preserves _ _ _ _ _ _ _ _ _ Hb H2).
  - apply ret_Ok in Hb. destruct Hb as [_ ->]. exact H2.
Qed.

Lemma tf_layers_dense_relu iv inputs units use_bias name g t g' :
  tf_layers_dense iv inputs units (Some tf_nn_relu) use_bias name g = Ok (t, g') ->
  exists x, t = tf_nn_relu x.
Proof.
  unfold tf_layers_dense. intros H.
  destruct (2 <=? rank inputs); [|discriminate].
  tf_inv H as scope g1 Hscope. tf_inv H as kernel g2 Hk. tf_inv H as bias g3 Hb.
  apply ret_Ok in H. destruct H as [-> _]. eexists. reflexivity.
Qed.

(** A named layer leaves its kernel in the store. *)
Lemma tf_layers_dense_named_kernel iv inputs units activation use_bias nm g t g' :
  tf_layers_dense iv inputs units activation use_bias (Some nm) g = Ok (t, g') ->
  exists kernel,
    lookup (String.append nm "/kernel") (variables g') = Some kernel /\
    shape kernel = [last (shape inputs) 0; units].
Proof.
  unfold tf_layers_dense. intros H.
  destruct (2 <=? rank inputs); [|discriminate].
  tf_inv H as scope g1 Hscope. tf_inv H as kernel g2 Hk. tf_inv H as bias g3 Hb.
  apply ret_Ok in H. destruct H as [_ ->].
  apply ret_Ok in Hscope. destruct Hscope as [-> ->].
  exists kernel. split; [|eapply get_variable_Ok; exact Hk].
  destruct (get_variable_lookup _ _ _ _ _ _ _ Hk) as (Hl & _).
  destruct use_bias.
  - exact (get_variable_preserves _ _ _ _ _ _ _ _ _ Hb Hl).
  - apply ret_Ok in Hb. destruct Hb as [_ ->]. exact Hl.
Qed.

(** A named layer whose kernel is already in the store cannot be built. *)
Lemma tf_layers_dense_named_clash iv inputs units activation use_bias nm g kernel :
  2 <= rank inputs ->
  lookup (String.append nm "/kernel") (variables g) = Some kernel ->
  tf_layers_dense iv inputs units activation use_bias (Some nm) g
  = Err (ValueError "get_variable").
Proof.
  intros Hr Hl. unfold tf_layers_dense.
  destruct (Nat.leb_spec 2 (rank inputs)) as [_|]; [|lia].
  unfold bind at 1, ret at 1. unfold bind at 1, get_variable at 1.
  rewrite Hl. reflexivity.
Qed.

Lemma tf_layers_dense_Err_rank iv inputs units activation use_bias name g e :
  2 <= rank inputs ->
  tf_layers_dense iv inputs units activation use_bias name g = Err e ->
  e = ValueError "get_variable".
Proof.
  intros Hr. unfold tf_layers_dense.
  destruct (Nat.leb_spec 2 (rank inputs)) as [_|]; [|lia].
  unfold bind at 1.
  destruct ((match name with Some n => ret n | None => unique_scope "dense" end) g)
    as [[scope g1]|e1] eqn:E1.
  2:{ destruct name; discriminate. }
  unfold bind at 1.
  destruct (get_variable iv (String.append scope "/kernel")
              [last (shape inputs) 0; units] false g1) as [[k g2]|e2] eqn:E2.
  2:{ intros H. inversion H; subst. eapply get_variable_Err. exact E2. }
  unfold bind at 1.
  destruct use_bias.
  - destruct (get_variable iv (String.append scope "/bias") [units] false g2)
      as [[b g3]|e3] eqn:E3; [discriminate|].
    intros H. inversion H; subst. eapply get_variable_Err. exact E3.
  - discriminate.
Qed.

Lemma set_last_length {A} (l : list A) x : l <> [] -> length (set_last l x) = length l.
Proof.
  intros Hl. unfold set_last. rewrite length_app. simpl.
  destruct l as [|a l]; [congruence|].
  rewrite (app_removelast_last a (l := a :: l)) at 2 by discriminate.
  rewrite length_app. reflexivity.
Qed.

Lemma tf_layers_dense_rank iv inputs units use_bias name g t g' :
  tf_layers_dense iv inputs units (Some tf_nn_relu) use_bias name g = Ok (t, g') ->
  rank t = rank inputs.
Proof.
  intros H. apply tf_layers_dense_Ok in H.
  2:{ intros f x Hf. inversion Hf. reflexivity. }
  destruct H as (Hr & Hs). unfold rank in *. rewrite Hs.
  apply set_last_length. intros E. rewrite E in Hr. simpl in Hr. lia.
Qed.

Lemma dense_layers_preserves iv prefix units : forall i features g t g',
  dense_layers iv prefix i units features g = Ok (t, g') ->
  (units = [] \/ 2 <= rank features) ->
  rank t = rank features /\
  forall m w, lookup m (variables g) = Some w -> lookup m (variables g') = Some w.
Proof.
  induction units as [|u us IH]; intros i features g t g' H Hr; simpl in H.
  - apply ret_Ok in H. destruct H; subst. split; [reflexivity|auto].
  - tf_inv H as t1 g1 Hstep.
    pose proof (tf_layers_dense_rank _ _ _ _ _ _ _ _ Hstep) as Hr1.
    pose proof (tf_layers_dense_Ok _ _ _ _ _ _ _ _ _ Hstep) as Hr2.
    destruct Hr2 as (Hr2 & _).
    { intros f x Hf. inversion Hf. reflexivity. }
    destruct (IH _ _ _ _ _ H) as (Hrk & Hpres).
    { right. rewrite Hr1. exact Hr2. }
    split; [congruence|].
    intros m w Hm. apply Hpres.
    eapply tf_layers_dense_preserves; eassumption.
Qed.

Lemma dense_layers_Err iv prefix units : forall i features g e,
  2 <= rank features ->
  dense_layers iv prefix i units features g = Err e ->
  e = ValueError "get_variable".
Proof.
  induction units as [|u us IH]; intros i features g e Hr H; simpl in H.
  - discriminate H.
  - unfold bind in H.
    destruct (tf_layers_dense iv features u (Some tf_nn_relu) true
                (Some (String.append prefix (string_of_nat i))) g)
      as [[t1 g1]|e1] eqn:E1.
    + eapply IH; [|exact H].
      rewrite (tf_layers_dense_rank _ _ _ _ _ _ _ _ E1). exact Hr.
    + inversion H; subst. eapply tf_layers_dense_Err_rank; eassumption.
Qed.

Lemma last_cons_default {A} (l : list A) a d d' : last (a :: l) d = last (a :: l) d'.
Proof.
  revert a. induction l as [|x l IH]; intros a; [reflexivity|].
  change (last (x :: l) d = last (x :: l) d'). apply IH.
Qed.

Lemma dense_layers_width iv prefix units : forall i features g t g' b w,
  dense_layers iv prefix i units features g = Ok (t, g') ->
  shape features = [b; w] ->
  shape t = [b; last units w].
Proof.
  induction units as [|u us IH]; intros i features g t g' b w H Hs; simpl in H.
  - apply ret_Ok in H. destruct H; subst. exact Hs.
  - tf_inv H as t1 g1 Hstep. apply tf_layers_dense_Ok in Hstep.
    2:{ intros f x Hf. inversion Hf. apply tf_nn_relu_shape. }
    destruct Hstep as (_ & Hs'). rewrite Hs in Hs'. cbn in Hs'.
    rewrite (IH _ _ _ _ _ _ _ H Hs').
    destruct us as [|u' us']; [reflexivity|].
    f_equal. f_equal. change (last (u :: u' :: us') w) with (last (u' :: us') w).
    apply last_cons_default.
Qed.

Lemma dense_layers_nonneg iv prefix units : forall i features g t g',
  units <> [] ->
  dense_layers iv prefix i units features g = Ok (t, g') ->
  forall idx, (0 <= val t idx)%R.
Proof.
  induction units as [|u us IH]; intros i features g t g' Hne H; [congruence|].
  simpl in H. tf_inv H as t1 g1 Hstep.
  destruct us as [|u' us'].
  - simpl in H. apply ret_Ok in H. destruct H as [-> _].
    apply tf_layers_dense_relu in Hstep. destruct Hstep as (x & ->).
    intros idx. cbn [val tf_nn_relu tf_map]. apply Rmax_r.
  - eapply IH; [discriminate|exact H].
Qed.

Lemma last_tl_rev (layers : list nat) D :
  last (tl (rev layers)) (last layers D) = hd D layers.
Proof.
  destruct layers as [|a l]; [reflexivity|].
  cbn [hd rev].
  destruct (rev l) as [|x r] eqn:E.
  - apply (f_equal (@rev nat)) in E. rewrite rev_involutive in E. subst l. reflexivity.
  - cbn [app tl]. apply last_last.
Qed.

(** ** What else the autoencoder shows *)

(** X9: the hidden feature handed back by [autoencoder] on a (b, D) input
    has shape (b, width of the last encoder layer), is the input itself when
    there are no layers and is entry-wise non-negative otherwise (it leaves a
    ReLU); the decoder mirrors the encoder, so the reconstruction layer, whose
    kernel is left in the store under a name that does not mention
    [name_scope], maps from the width of the first layer back to D. *)
Theorem autoencoder_hidden_feature
    initial_value input_features layers name_scope g hidden_feature recon_loss g' b D :
  autoencoder initial_value input_features layers name_scope g
  = Ok ((hidden_feature, recon_loss), g') ->
  shape input_features = [b; D] ->
  shape hidden_feature = [b; last layers D] /\
  (layers = [] -> hidden_feature = input_features) /\
  (layers <> [] -> forall idx, (0 <= val hidden_feature idx)%R) /\
  exists kernel,
    lookup "usc_reconstruct_layer/kernel" (variables g') = Some kernel /\
    shape kernel = [hd D layers; D].
Proof.
  intros H Hs. unfold autoencoder in H. rewrite Hs in H.
  tf_inv H as dim g0 Hdim. apply ret_Ok in Hdim. destruct Hdim; subst.
  tf_inv H as enc g1 Henc. tf_inv H as dec g2 Hdec.
  tf_inv H as restore g3 Hdense. tf_inv H as diff g4 Hsub.
  lift_inv Hsub. apply ret_Ok in H. destruct H as [H ->]. inversion H; subst.
  pose proof (dense_layers_width _ _ _ _ _ _ _ _ _ _ Henc Hs) as Hs1.
  pose proof (dense_layers_width _ _ _ _ _ _ _ _ _ _ Hdec Hs1) as Hs2.
  rewrite last_tl_rev in Hs2.
  split; [exact Hs1|]. split; [|split].
  - intros ->. simpl in Henc. apply ret_Ok in Henc. destruct Henc as [-> _].
    reflexivity.
  - intros Hne. eapply dense_layers_nonneg; eassumption.
  - destruct (tf_layers_dense_named_kernel _ _ _ _ _ _ _ _ _ Hdense)
      as (kernel & Hl & Hk).
    exists kernel. split; [exact Hl|]. rewrite Hk, Hs2. reflexivity.
Qed.

(** Two 3-dimensional inputs through layers of width 4 and 2. *)
Lemma autoencoder_hidden_feature_witness :
  exists hidden_feature recon_loss g' kernel,
    autoencoder ones_init (ones [2; 3]) [4; 2] "usc" empty_graph
    = Ok ((hidden_feature, recon_loss), g') /\
    shape hidden_feature = [2; 2] /\
    lookup "usc_reconstruct_layer/kernel" (variables g') = Some kernel /\
    shape kernel = [4; 3].
Proof.
  destruct (autoencoder_returns ones_init (ones [2; 3]) [4; 2] "usc" 2 3 eq_refl)
    as (h & l & g' & Hrun).
  destruct (autoencoder_hidden_feature ones_init (ones [2; 3]) [4; 2] "usc"
              empty_graph h l g' 2 3 Hrun eq_refl)
    as (Hs & _ & _ & kernel & Hl & Hk).
  exists h, l, g', kernel. auto.
Defined.

(** X10: an autoencoder can be built only once per graph (and enclosing
    variable scope).  The layers are named without [name_scope], and
    [tf.name_scope] does not enter variable names, so after one returning
    call every further call, whatever its input of rank at least 2, its
    layers and its name scope, stops at a variable that already exists. *)
Theorem autoencoder_builds_once
    initial_value input_features layers name_scope g r g' :
  autoencoder initial_value input_features layers name_scope g = Ok (r, g') ->
  forall input_features' layers' name_scope',
    2 <= rank input_features' ->
    autoencoder initial_value input_features' layers' name_scope' g'
    = Err (ValueError "get_variable").
Proof.
  intros H in2 layers2 ns2 Hr2.
  assert (Hk : exists kernel,
             lookup "usc_reconstruct_layer/kernel" (variables g') = Some kernel).
  { unfold autoencoder in H.
    tf_inv H as dim g0 Hdim. tf_inv H as enc g1 Henc. tf_inv H as dec g2 Hdec.
    tf_inv H as restore g3 Hdense. tf_inv H as diff g4 Hsub.
    lift_inv Hsub. apply ret_Ok in H. destruct H as [_ ->].
    destruct (tf_layers_dense_named_kernel _ _ _ _ _ _ _ _ _ Hdense)
      as (kernel & Hl & _).
    exists kernel. exact Hl. }
  destruct Hk as (kernel & Hk).
  unfold autoencoder.
  assert (Hdim : exists d,
             (match shape in2 with
              | _ :: d :: _ => ret d
              | _ => raise (IndexError "shape")
              end) g' = Ok (d, g')).
  { unfold rank in Hr2. destruct (shape in2) as [|b [|d s]]; simpl in Hr2; try lia.
    exists d. reflexivity. }
  destruct Hdim as (d & Hdim).
  rewrite (bind_Ok_intro _ _ _ _ _ Hdim).
  unfold bind at 1.
  destruct (dense_layers initial_value "usc_enc_" 0 layers2 in2 g')
    as [[enc g1]|e1] eqn:E1.
  2:{ f_equal. eapply dense_layers_Err; eassumption. }
  destruct (dense_layers_preserves _ _ _ _ _ _ _ _ E1 (or_intror Hr2)) as (Hr1 & Hp1).
  unfold bind at 1.
  destruct (dense_layers initial_value "usc_dec_" 1 (tl (rev layers2)) enc g1)
    as [[dec g2]|e2] eqn:E2.
  2:{ f_equal. eapply dense_layers_Err; [|exact E2]. rewrite Hr1. exact Hr2. }
  destruct (dense_layers_preserves _ _ _ _ _ _ _ _ E2) as (Hr3 & Hp2).
  { right. rewrite Hr1. exact Hr2. }
  unfold bind at 1.
  rewrite (tf_layers_dense_named_clash initial_value dec d None true
             "usc_reconstruct_layer" g2 kernel).
  - reflexivity.
  - rewrite Hr3, Hr1. exact Hr2.
  - apply Hp2, Hp1. exact Hk.
Qed.

(** A user autoencoder, then an item autoencoder under another name scope. *)
Lemma autoencoder_builds_once_witness :
  exists r g',
    autoencoder ones_init (ones [2; 3]) [4; 2] "usc" empty_graph = Ok (r, g') /\
    autoencoder ones_init (ones [2; 5]) [3] "isc" g'
    = Err (ValueError "get_variable").
Proof.
  destruct (autoencoder_returns ones_init (ones [2; 3]) [4; 2] "usc" 2 3 eq_refl)
    as (h & l & g' & Hrun).
  exists (h, l), g'. split; [exact Hrun|].
  apply (autoencoder_builds_once ones_init (ones [2; 3]) [4; 2] "usc" empty_graph
           (h, l) g' Hrun).
  unfold rank. simpl. lia.
Defined.

(** ** What else [attentional_fm] shows *)

(** The steps of a returning call, up to the product with [attention_W]. *)
Ltac afm_front H :=
  unfold attentional_fm in H;
  tf_inv H as embedding_mat g1 Hemb; tf_inv H as uattr_emb g2 Hlook;
  tf_inv H as attn_W g3 HW; tf_inv H as attn_p g4 Hp; tf_inv H as attn_b g5 Hb;
  tf_inv H as prods g6 Hprods; tf_inv H as element_wise_prod g7 Hstack;
  tf_inv H as interactions g8 Hinter; tf_inv H as flat g9 Hflat;
  tf_inv H as prod_W g10 Hmm.

(** The remaining steps. *)
Ltac afm_back H :=
  tf_inv H as attn_mul g11 Hmul;
  tf_inv H as pre g12 Hpre; tf_inv H as weighted g13 Hw;
  tf_inv H as attn_relu g14 Hrelu; tf_inv H as soft g15 Hsoft;
  tf_inv H as scaled g16 Hscaled; tf_inv H as afm0 g17 Hafm;
  tf_inv H as afm1 g18 Hdrop.

(** X11: the module runs under Python 2 only.  Whenever a call of
    [attentional_fm] returns under Python 2, the same call on the same graph
    under Python 3 raises a TypeError at the second reshape, because
    [attr_size * (attr_size - 1) / 2] is then a float; and under Python 3 no
    call returns at all. *)
Theorem attentional_fm_needs_python2
    initial_value keep_mask name_scope input_features emb_dim feat_size
    hid_rep_dim attr_size is_training dropout_keep g r :
  attentional_fm initial_value keep_mask Python2 name_scope input_features
    emb_dim feat_size hid_rep_dim attr_size is_training dropout_keep g = Ok r ->
  attentional_fm initial_value keep_mask Python3 name_scope input_features
    emb_dim feat_size hid_rep_dim attr_size is_training dropout_keep g
  = Err (TypeError "reshape") /\
  (forall input_features' emb_dim' feat_size' hid_rep_dim' attr_size' is_training'
          dropout_keep' name_scope' g0 r',
     attentional_fm initial_value keep_mask Python3 name_scope' input_features'
       emb_dim' feat_size' hid_rep_dim' attr_size' is_training' dropout_keep' g0
     <> Ok r').
Proof.
  intros H. split.
  - afm_front H. clear H.
    unfold attentional_fm.
    rewrite (bind_Ok_intro _ _ _ _ _ Hemb), (bind_Ok_intro _ _ _ _ _ Hlook),
      (bind_Ok_intro _ _ _ _ _ HW), (bind_Ok_intro _ _ _ _ _ Hp),
      (bind_Ok_intro _ _ _ _ _ Hb), (bind_Ok_intro _ _ _ _ _ Hprods),
      (bind_Ok_intro _ _ _ _ _ Hstack), (bind_Ok_intro _ _ _ _ _ Hinter),
      (bind_Ok_intro _ _ _ _ _ Hflat), (bind_Ok_intro _ _ _ _ _ Hmm).
    reflexivity.
  - intros in2 e2 f2 h2 a2 t2 d2 ns2 g0 r' H2.
    afm_front H2. tf_inv H2 as attn_mul g11 Hmul.
    lift_inv Hmul. unfold tf_reshape in Hmul. cbn in Hmul. discriminate.
Qed.

(** Three fields, a batch of two, fresh graph. *)
Lemma attentional_fm_needs_python2_witness :
  attentional_fm ones_init keep_all Python3 "afm"
    (iconst [2; 3] 1) 4 5 3 3 true None empty_graph
  = Err (TypeError "reshape").
Proof.
  destruct (attentional_fm_run ones_init keep_all "afm" (iconst [2; 3] 1) 4 5 3 3
              true None 2)
    as (afm & soft & g' & Hrun & _).
  - reflexivity.
  - lia.
  - lia.
  - lia.
  - intros q Hq. discriminate Hq.
  - exact (proj1 (attentional_fm_needs_python2 ones_init keep_all "afm"
                    (iconst [2; 3] 1) 4 5 3 3 true None empty_graph _ Hrun)).
Defined.

Lemma collect_Err {A B} (f : A -> result B) e l :
  (forall a, In a l -> (exists b, f a = Ok b) \/ f a = Err e) ->
  (exists a, In a l /\ f a = Err e) ->
  collect f l = Err e.
Proof.
  induction l as [|a l IH]; intros Hall (x & Hin & Hx); [destruct Hin|].
  cbn [collect].
  destruct (Hall a (or_introl eq_refl)) as [(b & Hb)|Ha].
  - rewrite Hb. destruct Hin as [->|Hin]; [congruence|].
    rewrite IH; [reflexivity| |exists x; auto].
    intros a' Ha'. apply Hall. right. exact Ha'.
  - rewrite Ha. reflexivity.
Qed.

Lemma slice_axis1_cases t b k d z :
  shape t = [b; k; d] -> (0 <= z)%Z ->
  ((z < Z.of_nat k)%Z /\ exists r, slice_axis1 t z = Ok r /\ shape r = [b; d]) \/
  ((Z.of_nat k <= z)%Z /\ slice_axis1 t z = Err (ValueError "strided_slice")).
Proof.
  intros Hs Hz. unfold slice_axis1, rank. rewrite Hs. cbn [length Nat.leb nth].
  destruct (Z.leb_spec (- Z.of_nat k) z) as [_|]; [|lia].
  destruct (Z.ltb_spec z (Z.of_nat k)) as [Hlt|Hge]; cbn [andb].
  - left. split; [exact Hlt|]. eexists. split; reflexivity.
  - right. split; [exact Hge|reflexivity].
Qed.

(** Asking for more fields than the input has makes a slice fail. *)
Lemma element_wise_prod_list_missing_field uattr_emb b k d attr_size :
  shape uattr_emb = [b; k; d] ->
  (Z.of_nat k < attr_size)%Z -> (2 <= attr_size)%Z ->
  element_wise_prod_list uattr_emb attr_size = Err (ValueError "strided_slice").
Proof.
  intros Hs Hk Ha. unfold element_wise_prod_list. apply collect_Err.
  - intros [i j] Hin. apply field_pairs_In_iff in Hin.
    destruct (slice_axis1_cases uattr_emb b k d i Hs) as [(_ & a & E & Hsa)|(_ & E)];
      [lia| |]; rewrite E; [|right; reflexivity].
    destruct (slice_axis1_cases uattr_emb b k d j Hs) as [(_ & c & E' & Hsc)|(_ & E')];
      [lia| |]; rewrite E'; [|right; reflexivity].
    left. destruct (tf_binop_same_shape "mul" Rmult a c) as (t & Ht & _);
      [congruence|].
    exists t. exact Ht.
  - exists (0%Z, (attr_size - 1)%Z). split.
    + apply field_pairs_In_iff. lia.
    + destruct (slice_axis1_cases uattr_emb b k d (attr_size - 1) Hs)
        as [(Hlt & _)|(_ & E')]; [lia|lia|].
      rewrite E'.
      destruct (slice_axis1_cases uattr_emb b k d 0 Hs) as [(_ & a & E & _)|(_ & E)];
        [lia| |]; rewrite E; reflexivity.
Qed.

Lemma get_embeddings_preserves iv V d ns zero_pad g table g' m w :
  get_embeddings iv V d ns zero_pad g = Ok (table, g') ->
  lookup m (variables g) = Some w ->
  lookup m (variables g') = Some w.
Proof.
  intros H Hm. unfold get_embeddings in H. tf_inv H as emb g1 Hvar.
  pose proof (get_variable_preserves _ _ _ _ _ _ _ _ _ Hvar Hm) as H1.
  destruct zero_pad.
  - tf_inv H as rest g2 Hrest. lift_inv Hrest. lift_inv H. exact H1.
  - apply ret_Ok in H. destruct H as [_ ->]. exact H1.
Qed.

(** X12: [attentional_fm] does not check [attr_size] against its input.
    With a (b, k) input and [attr_size] larger than k (and at least 2, so
    that there is a pair to form) the call never returns: the slice of a
    field that the input does not have fails while the pairwise products are
    collected, on a fresh graph and on every graph where the variables can
    be acquired. *)
Theorem attentional_fm_missing_field
    initial_value keep_mask python name_scope input_features
    emb_dim feat_size hid_rep_dim attr_size is_training dropout_keep b k :
  ishape input_features = [b; k] ->
  (Z.of_nat k < attr_size)%Z -> (2 <= attr_size)%Z ->
  (forall g, exists e,
      attentional_fm initial_value keep_mask python name_scope input_features
        emb_dim feat_size hid_rep_dim attr_size is_training dropout_keep g = Err e /\
      (e = ValueError "strided_slice" \/ e = ValueError "get_variable")) /\
  attentional_fm initial_value keep_mask python name_scope input_features
    emb_dim feat_size hid_rep_dim attr_size is_training dropout_keep empty_graph
  = Err (ValueError "strided_slice").
Proof.
  intros Hin Hk Ha.
  assert (Hlist : forall table r,
            shape table = [r; emb_dim] ->
            exists u, tf_nn_embedding_lookup table input_features = Ok u /\
                      element_wise_prod_list u attr_size
                      = Err (ValueError "strided_slice")).
  { intros table r Hst. unfold tf_nn_embedding_lookup. rewrite Hst, Hin.
    eexists. split; [reflexivity|].
    apply (element_wise_prod_list_missing_field _ b k emb_dim); auto. }
  split.
  - intros g. unfold attentional_fm. unfold bind at 1.
    destruct (get_embeddings initial_value feat_size emb_dim name_scope true g)
      as [[table g1]|e1] eqn:E1.
    2:{ exists e1. split; [reflexivity|]. right. eapply get_embeddings_Err. exact E1. }
    destruct (Hlist table _ (get_embeddings_shape_of_run _ _ _ _ _ _ _ _ E1))
      as (u & Hu & Hprods).
    unfold bind at 1, lift at 1. rewrite Hu.
    unfold bind at 1.
    destruct (get_variable initial_value (String.append name_scope "/attention_W")
                [emb_dim; hid_rep_dim] false g1) as [[W g2]|e2] eqn:E2.
    2:{ exists e2. split; [reflexivity|]. right. eapply get_variable_Err. exact E2. }
    unfold bind at 1.
    destruct (get_variable initial_value (String.append name_scope "/attention_p")
                [hid_rep_dim] false g2) as [[p g3]|e3] eqn:E3.
    2:{ exists e3. split; [reflexivity|]. right. eapply get_variable_Err. exact E3. }
    unfold bind at 1.
    destruct (get_variable initial_value (String.append name_scope "/attention_b")
                [hid_rep_dim] false g3) as [[bb g4]|e4] eqn:E4.
    2:{ exists e4. split; [reflexivity|]. right. eapply get_variable_Err. exact E4. }
    unfold bind at 1, lift at 1. rewrite Hprods.
    eexists. split; [reflexivity|]. left. reflexivity.
  - unfold attentional_fm. unfold bind at 1.
    destruct (get_embeddings initial_value feat_size emb_dim name_scope true
                empty_graph) as [[table g1]|e1] eqn:E1.
    2:{ exfalso.
        destruct (get_embeddings_returns initial_value feat_size emb_dim name_scope
                    true empty_graph) as (t & g' & Hok).
        - intros v Hv. discriminate Hv.
        - rewrite Hok in E1. discriminate E1. }
    destruct (Hlist table _ (get_embeddings_shape_of_run _ _ _ _ _ _ _ _ E1))
      as (u & Hu & Hprods).
    assert (Hg1 : variables g1
                  = [(String.append name_scope "/embedding_matrix",
                      Tensor [feat_size; emb_dim]
                        (initial_value (String.append name_scope "/embedding_matrix")
                           [feat_size; emb_dim]))]).
    { unfold get_embeddings, bind at 1, get_variable in E1.
      cbn [variables empty_graph lookup with_variables] in E1.
      destruct (zero_pad_table
                  (Tensor [feat_size; emb_dim]
                     (initial_value (String.append name_scope "/embedding_matrix")
                                    [feat_size; emb_dim]))
                  feat_size emb_dim eq_refl) as (t & Ht & _).
      rewrite Ht in E1. inversion E1. reflexivity. }
    unfold bind at 1, lift at 1. rewrite Hu.
    unfold bind at 1, get_variable at 1. rewrite Hg1.
    cbn [variables with_variables lookup scope_counts n_random].
    rewrite append_eqb_prefix. cbn [String.eqb Ascii.eqb Bool.eqb].
    unfold bind at 1, get_variable at 1.
    cbn [variables with_variables lookup scope_counts n_random].
    rewrite !append_eqb_prefix. cbn [String.eqb Ascii.eqb Bool.eqb].
    unfold bind at 1, get_variable at 1.
    cbn [variables with_variables lookup scope_counts n_random].
    rewrite !append_eqb_prefix. cbn [String.eqb Ascii.eqb Bool.eqb].
    unfold bind at 1, lift at 1. rewrite Hprods. reflexivity.
Qed.

(** Three fields asked of an input that has two. *)
Lemma attentional_fm_missing_field_witness :
  attentional_fm ones_init keep_all Python2 "afm"
    (iconst [2; 2] 1) 4 5 3 3 true None empty_graph
  = Err (ValueError "strided_slice").
Proof.
  apply (attentional_fm_missing_field ones_init keep_all Python2 "afm"
           (iconst [2; 2] 1) 4 5 3 3 true None 2 2).
  - reflexivity.
  - lia.
  - lia.
Defined.

(** X13: one name scope, one [attentional_fm].  The embedding matrix is
    acquired with AUTO_REUSE but the attention variables are not, so after a
    returning call every further call under the same name scope, whatever
    its other arguments, raises when a variable is acquired. *)
Theorem attentional_fm_builds_once
    initial_value keep_mask python name_scope input_features emb_dim feat_size
    hid_rep_dim attr_size is_training dropout_keep g r g' :
  attentional_fm initial_value keep_mask python name_scope input_features
    emb_dim feat_size hid_rep_dim attr_size is_training dropout_keep g
  = Ok (r, g') ->
  forall python' input_features' emb_dim' feat_size' hid_rep_dim' attr_size'
         is_training' dropout_keep',
    attentional_fm initial_value keep_mask python' name_scope input_features'
      emb_dim' feat_size' hid_rep_dim' attr_size' is_training' dropout_keep' g'
    = Err (ValueError "get_variable").
Proof.
  intros H py2 in2 e2 f2 h2 a2 t2 d2.
  assert (HW' : exists W, lookup (String.append name_scope "/attention_W")
                                 (variables g') = Some W).
  { afm_front H. afm_back H.
    apply ret_Ok in H. destruct H as [_ ->].
    lift_inv Hprods. lift_inv Hstack. lift_inv Hinter. lift_inv Hflat.
    lift_inv Hmm. lift_inv Hmul. lift_inv Hpre. lift_inv Hw. lift_inv Hrelu.
    lift_inv Hsoft. lift_inv Hscaled. lift_inv Hafm.
    apply maybe_dropout_Ok in Hdrop. destruct Hdrop as (_ & Hv & _).
    exists attn_W. rewrite Hv.
    destruct (get_variable_lookup _ _ _ _ _ _ _ HW) as (Hl & _).
    eapply get_variable_preserves; [exact Hb|].
    eapply get_variable_preserves; [exact Hp|]. exact Hl. }
  destruct HW' as (W & HW').
  unfold attentional_fm. unfold bind at 1.
  destruct (get_embeddings initial_value f2 e2 name_scope true g')
    as [[table g1]|e1] eqn:E1.
  2:{ f_equal. eapply get_embeddings_Err. exact E1. }
  pose proof (get_embeddings_shape_of_run _ _ _ _ _ _ _ _ E1) as Hst.
  unfold bind at 1, lift at 1, tf_nn_embedding_lookup. rewrite Hst.
  unfold bind at 1, get_variable at 1.
  rewrite (get_embeddings_preserves _ _ _ _ _ _ _ _ _ _ E1 HW'). reflexivity.
Qed.

(** A second feature set under the scope of the first. *)
Lemma attentional_fm_builds_once_witness :
  exists r g',
    attentional_fm ones_init keep_all Python2 "afm"
      (iconst [2; 3] 1) 4 5 3 3 true None empty_graph = Ok (r, g') /\
    attentional_fm ones_init keep_all Python2 "afm"
      (iconst [7; 2] 0) 4 5 3 2 false None g' = Err (ValueError "get_variable").
Proof.
  destruct (attentional_fm_run ones_init keep_all "afm" (iconst [2; 3] 1) 4 5 3 3
              true None 2)
    as (afm & soft & g' & Hrun & _).
  - reflexivity.
  - lia.
  - lia.
  - lia.
  - intros q Hq. discriminate Hq.
  - exists (afm, tf_squeeze soft), g'. split; [exact Hrun|].
    apply (attentional_fm_builds_once _ _ _ _ _ _ _ _ _ _ _ _ _ _ Hrun).
Defined.

(** The call with a dropout argument, read off the call without one. *)
Lemma attentional_fm_dropout_step
    initial_value keep_mask python name_scope input_features emb_dim feat_size
    hid_rep_dim attr_size is_training g afm attn_out g' q :
  attentional_fm initial_value keep_mask python name_scope input_features
    emb_dim feat_size hid_rep_dim attr_size is_training None g
  = Ok ((afm, attn_out), g') ->
  attentional_fm initial_value keep_mask python name_scope input_features
    emb_dim feat_size hid_rep_dim attr_size is_training (Some q) g
  = (afm' <- (if truthy_float (Some q)
              then tf_layers_dropout keep_mask afm q is_training
              else ret afm) ;;
     ret (afm', attn_out)) g'.
Proof.
  intros H. afm_front H. afm_back H.
  cbn [truthy_float] in Hdrop. apply ret_Ok in Hdrop. destruct Hdrop as [-> ->].
  apply ret_Ok in H. destruct H as [H ->]. inversion H; subst afm attn_out.
  unfold attentional_fm.
  rewrite (bind_Ok_intro _ _ _ _ _ Hemb), (bind_Ok_intro _ _ _ _ _ Hlook),
    (bind_Ok_intro _ _ _ _ _ HW), (bind_Ok_intro _ _ _ _ _ Hp),
    (bind_Ok_intro _ _ _ _ _ Hb), (bind_Ok_intro _ _ _ _ _ Hprods),
    (bind_Ok_intro _ _ _ _ _ Hstack), (bind_Ok_intro _ _ _ _ _ Hinter),
    (bind_Ok_intro _ _ _ _ _ Hflat), (bind_Ok_intro _ _ _ _ _ Hmm),
    (bind_Ok_intro _ _ _ _ _ Hmul), (bind_Ok_intro _ _ _ _ _ Hpre),
    (bind_Ok_intro _ _ _ _ _ Hw), (bind_Ok_intro _ _ _ _ _ Hrelu),
    (bind_Ok_intro _ _ _ _ _ Hsoft), (bind_Ok_intro _ _ _ _ _ Hscaled),
    (bind_Ok_intro _ _ _ _ _ Hafm).
  reflexivity.
Qed.

(** X14: the argument [dropout_keep] of [attentional_fm] is handed to
    [tf.layers.dropout] as its rate, i.e. as the probability of dropping.
    Relative to the call without dropout: a value of 0 changes nothing; a
    value of 1 (keep everything, or the documented boolean True) or any
    value outside [0, 1) makes the call raise; a value q in (0, 1) scales
    the kept entries of the output by 1/(1 - q) when training and leaves the
    output alone otherwise.  The attention output is the same in all
    returning cases. *)
Theorem attentional_fm_dropout_keep_is_rate
    initial_value keep_mask python name_scope input_features emb_dim feat_size
    hid_rep_dim attr_size is_training g afm attn_out g' q :
  attentional_fm initial_value keep_mask python name_scope input_features
    emb_dim feat_size hid_rep_dim attr_size is_training None g
  = Ok ((afm, attn_out), g') ->
  ((q == 0)%Q ->
   attentional_fm initial_value keep_mask python name_scope input_features
     emb_dim feat_size hid_rep_dim attr_size is_training (Some q) g
   = Ok ((afm, attn_out), g')) /\
  ((q < 0)%Q \/ (1 <= q)%Q ->
   attentional_fm initial_value keep_mask python name_scope input_features
     emb_dim feat_size hid_rep_dim attr_size is_training (Some q) g
   = Err (ValueError "dropout")) /\
  ((0 < q)%Q -> (q < 1)%Q ->
   exists afm' g'',
     attentional_fm initial_value keep_mask python name_scope input_features
       emb_dim feat_size hid_rep_dim attr_size is_training (Some q) g
     = Ok ((afm', attn_out), g'') /\
     variables g'' = variables g' /\
     shape afm' = shape afm /\
     forall idx,
       val afm' idx
       = if is_training
         then (val afm idx * (1 / (1 - Q2R q))
               * (if keep_mask (n_random g') idx then 1 else 0))%R
         else val afm idx).
Proof.
  intros H.
  rewrite (attentional_fm_dropout_step _ _ _ _ _ _ _ _ _ _ _ _ _ _ q H).
  cbn [truthy_float]. split; [|split].
  - intros Hq. apply Qeq_bool_iff in Hq. rewrite Hq. reflexivity.
  - intros Hq.
    assert (Hne : Qeq_bool q 0 = false).
    { destruct (Qeq_bool q 0) eqn:E; [|reflexivity].
      apply Qeq_bool_iff in E. exfalso. destruct Hq as [Hq|Hq].
      - rewrite E in Hq. discriminate Hq.
      - rewrite E in Hq. apply Hq. reflexivity. }
    rewrite Hne. cbn [negb]. unfold bind, tf_layers_dropout.
    assert (Hchk : Qle_bool 0 q && negb (Qle_bool 1 q) = false).
    { destruct Hq as [Hq|Hq].
      - destruct (Qle_bool 0 q) eqn:E; [|reflexivity].
        apply Qle_bool_iff in E. exfalso. exact (Qlt_not_le _ _ Hq E).
      - apply Qle_bool_iff in Hq. rewrite Hq. apply andb_false_r. }
    rewrite Hchk. reflexivity.
  - intros H0 H1.
    assert (Hne : Qeq_bool q 0 = false).
    { destruct (Qeq_bool q 0) eqn:E; [|reflexivity].
      apply Qeq_bool_iff in E. rewrite E in H0. discriminate H0. }
    rewrite Hne. cbn [negb]. unfold bind, tf_layers_dropout.
    rewrite (valid_rate_check q (Qlt_le_weak _ _ H0) H1), Hne.
    eexists. eexists. split; [reflexivity|]. split; [reflexivity|].
    destruct is_training; split; reflexivity.
Qed.

(** Keep everything: [dropout_keep = 1]. *)
Lemma attentional_fm_dropout_keep_is_rate_witness :
  attentional_fm ones_init keep_all Python2 "afm"
    (iconst [2; 3] 1) 4 5 3 3 true (Some 1%Q) empty_graph
  = Err (ValueError "dropout").
Proof.
  destruct (attentional_fm_run ones_init keep_all "afm" (iconst [2; 3] 1) 4 5 3 3
              true None 2)
    as (afm & soft & g' & Hrun & _).
  - reflexivity.
  - lia.
  - lia.
  - lia.
  - intros q Hq. discriminate Hq.
  - destruct (attentional_fm_dropout_keep_is_rate _ _ _ _ _ _ _ _ _ _ _ _ _ _ 1%Q Hrun)
      as (_ & Herr & _).
    apply Herr. right. discriminate.
Defined.

(** ** The output of [attentional_fm] *)

Lemma collect_nth {A B} (f : A -> result B) da db : forall l bs,
  collect f l = Ok bs ->
  length bs = length l /\
  forall p, p < length l -> f (nth p l da) = Ok (nth p bs db).
Proof.
  induction l as [|a l IH]; intros bs H; cbn [collect] in H.
  - inversion H. split; [reflexivity|]. intros p Hp. simpl in Hp. lia.
  - destruct (f a) as [b|e] eqn:Ea; [|discriminate].
    destruct (collect f l) as [bs'|e] eqn:El; [|discriminate].
    inversion H; subst bs. destruct (IH bs' eq_refl) as (Hlen & Hnth).
    split; [simpl; congruence|].
    intros [|p] Hp; [exact Ea|]. simpl in Hp. cbn [nth]. apply Hnth. lia.
Qed.

Lemma slice_axis1_Ok t z r :
  slice_axis1 t z = Ok r -> (0 <= z)%Z ->
  r = Tensor (remove_at 1 (shape t)) (fun idx => val t (insert_at 1 (Z.to_nat z) idx)).
Proof.
  unfold slice_axis1. intros H Hz.
  destruct (3 <=? rank t); [|discriminate].
  match type of H with
  | (if ?c then _ else _) = _ => destruct c; [|discriminate]
  end.
  destruct (Z.ltb_spec z 0) as [|_]; [lia|].
  inversion H. reflexivity.
Qed.

(** Each collected product, entry by entry. *)
Lemma element_wise_prod_list_nth uattr_emb b k d attr_size prods v0 :
  shape uattr_emb = [b; k; d] ->
  element_wise_prod_list uattr_emb attr_size = Ok prods ->
  length prods = length (field_pairs attr_size) /\
  forall p, p < length prods ->
    shape (nth p prods v0) = [b; d] /\
    forall i c, i < b -> c < d ->
      val (nth p prods v0) [i; c]
      = (val uattr_emb [i; Z.to_nat (fst (nth p (field_pairs attr_size) (0%Z, 0%Z))); c]
         * val uattr_emb [i; Z.to_nat (snd (nth p (field_pairs attr_size) (0%Z, 0%Z))); c])%R.
Proof.
  intros Hs H. unfold element_wise_prod_list in H.
  destruct (collect_nth _ (0%Z, 0%Z) v0 _ _ H) as (Hlen & Hnth).
  split; [exact Hlen|]. intros p Hp. rewrite Hlen in Hp.
  specialize (Hnth p Hp).
  assert (Hin : In (nth p (field_pairs attr_size) (0%Z, 0%Z)) (field_pairs attr_size))
    by (apply nth_In; exact Hp).
  destruct (nth p (field_pairs attr_size) (0%Z, 0%Z)) as [x y].
  apply field_pairs_In_iff in Hin. cbn [fst snd].
  destruct (slice_axis1 uattr_emb x) as [a|e] eqn:Ex; [|discriminate].
  destruct (slice_axis1 uattr_emb y) as [c'|e] eqn:Ey; [|discriminate].
  apply slice_axis1_Ok in Ex; [|lia]. apply slice_axis1_Ok in Ey; [|lia].
  rewrite Hs in Ex, Ey. cbn [remove_at firstn skipn app] in Ex, Ey.
  apply tf_binop_Ok in Hnth. destruct Hnth as (Hb & Hv).
  rewrite Ex, Ey in Hb. cbn [shape] in Hb. rewrite broadcast_shape_same in Hb.
  inversion Hb as [Hshape]. split; [reflexivity|].
  intros i c Hi Hc. rewrite Hv.
  assert (Hvalid : valid_index [b; d] [i; c]).
  { constructor; [exact Hi|]. constructor; [exact Hc|constructor]. }
  rewrite Ex, Ey. cbn [shape val]. rewrite !(bidx_valid _ _ Hvalid).
  reflexivity.
Qed.

Lemma tf_reshape_infer_inv t n dims r :
  tf_reshape t (PyInt (-1) :: map (fun d => PyInt (Z.of_nat d)) dims) = Ok r ->
  prod_shape (shape t) = n * prod_shape dims ->
  0 < prod_shape dims /\ shape r = n :: dims \/ prod_shape dims = 0.
Proof.
  intros H Htot.
  destruct (Nat.eq_dec (prod_shape dims) 0) as [E|E]; [right; exact E|left].
  split; [lia|].
  destruct (tf_reshape_infer t n dims Htot) as (r' & Hr' & Hs); [lia|].
  rewrite Hr' in H. inversion H; subst. exact Hs.
Qed.

Lemma tf_reshape_zero_known t dims r :
  prod_shape dims = 0 ->
  tf_reshape t (PyInt (-1) :: map (fun d => PyInt (Z.of_nat d)) dims) = Ok r -> False.
Proof.
  intros Hz. unfold tf_reshape. cbn [int_dims]. rewrite int_dims_of_nats.
  cbn [option_map]. unfold resolve_shape.
  assert (Hknown : known_prod (-1 :: map Z.of_nat dims)%Z = 0%Z).
  { unfold known_prod. cbn [fold_right]. fold (known_prod (map Z.of_nat dims)).
    rewrite known_prod_of_nats, Hz. reflexivity. }
  rewrite Hknown.
  assert (Hcount : count_occ Z.eq_dec (-1 :: map Z.of_nat dims)%Z (-1)%Z = 1).
  { rewrite count_occ_cons_eq by reflexivity. f_equal.
    apply count_occ_not_In. intros Hin.
    apply in_map_iff in Hin. destruct Hin as (d & E & _). lia. }
  rewrite Hcount. cbn [Nat.eqb Z.eqb negb orb]. rewrite andb_false_r.
  discriminate.
Qed.

(** With the shapes known, the reshape to [-1 :: dims] has one outcome. *)
Lemma tf_reshape_infer_shape t n dims r :
  tf_reshape t (PyInt (-1) :: map (fun d => PyInt (Z.of_nat d)) dims) = Ok r ->
  prod_shape (shape t) = n * prod_shape dims ->
  0 < prod_shape dims /\ shape r = n :: dims.
Proof.
  intros H Htot.
  destruct (tf_reshape_infer_inv t n dims r H Htot) as [Hok|Hz]; [exact Hok|].
  exfalso. eapply tf_reshape_zero_known; eassumption.
Qed.

Lemma tf_stack_axis1_Ok values b d r :
  tf_stack values 1 = Ok r ->
  (forall p v0, p < length values -> shape (nth p values v0) = [b; d]) ->
  1 <= length values /\
  shape r = [b; length values; d] /\
  forall v0 i p c, p < length values ->
    val r [i; p; c] = val (nth p values v0) [i; c].
Proof.
  intros H Hs. destruct values as [|v0 rest]; [discriminate H|].
  unfold tf_stack in H.
  match type of H with
  | (if ?c then _ else _) = _ => destruct c; [|discriminate]
  end.
  inversion H; subst r; clear H.
  pose proof (Hs 0 v0 (Nat.lt_0_succ _)) as H0. cbn [nth] in H0.
  split; [simpl; lia|]. split.
  - cbn [shape]. rewrite H0. reflexivity.
  - intros v1 i p c Hp. cbn [val].
    change (nth 1 [i; p; c] 0) with p.
    change (remove_at 1 [i; p; c]) with [i; c].
    rewrite (nth_indep (v0 :: rest) v1 v0 Hp). reflexivity.
Qed.

(** What a returning call without dropout hands back as its feature vector. *)
Lemma attentional_fm_output_of_run
    initial_value keep_mask python name_scope input_features emb_dim feat_size
    hid_rep_dim attr_size is_training g afm attn_out g' b k :
  attentional_fm initial_value keep_mask python name_scope input_features
    emb_dim feat_size hid_rep_dim attr_size is_training None g
  = Ok ((afm, attn_out), g') ->
  ishape input_features = [b; k] ->
  exists embedding_mat g1 uattr_emb,
    get_embeddings initial_value feat_size emb_dim name_scope true g
    = Ok (embedding_mat, g1) /\
    tf_nn_embedding_lookup embedding_mat input_features = Ok uattr_emb /\
    shape afm = [b; emb_dim] /\
    forall i c, i < b -> c < emb_dim ->
      val afm [i; c]
      = sumR (length (field_pairs attr_size))
          (fun p =>
             (val uattr_emb
                [i; Z.to_nat (fst (nth p (field_pairs attr_size) (0%Z, 0%Z))); c]
              * val uattr_emb
                  [i; Z.to_nat (snd (nth p (field_pairs attr_size) (0%Z, 0%Z))); c])%R).
Proof.
  intros H Hin.
  destruct python.
  2:{ exfalso. eapply attentional_fm_python3_raises. exact H. }
  afm_front H. afm_back H.
  cbn [truthy_float] in Hdrop. apply ret_Ok in Hdrop. destruct Hdrop as [-> ->].
  apply ret_Ok in H. destruct H as [H ->]. inversion H; subst afm attn_out; clear H.
  lift_inv Hlook. lift_inv Hprods. lift_inv Hstack. lift_inv Hinter. lift_inv Hflat.
  lift_inv Hmm. lift_inv Hmul. lift_inv Hpre. lift_inv Hw. lift_inv Hrelu.
  lift_inv Hsoft. lift_inv Hscaled. lift_inv Hafm.
  exists embedding_mat, g1, uattr_emb.
  split; [exact Hemb|]. split; [exact Hlook|].
  pose proof (get_embeddings_shape_of_run _ _ _ _ _ _ _ _ Hemb) as Hst.
  assert (Hsu : shape uattr_emb = [b; k; emb_dim]).
  { unfold tf_nn_embedding_lookup in Hlook. rewrite Hst in Hlook.
    inversion Hlook. cbn [shape]. rewrite Hin. reflexivity. }
  destruct (element_wise_prod_list_nth uattr_emb b k emb_dim attr_size prods
              (tf_zeros []) Hsu Hprods) as (Hlen & Hpr).
  destruct (tf_stack_axis1_Ok prods b emb_dim element_wise_prod Hstack)
    as (HP & Hsewp & Hvewp).
  { intros p v0 Hlt. rewrite (nth_indep prods v0 (tf_zeros []) Hlt).
    apply Hpr. exact Hlt. }
  (* the reshape to (b * pairs, d) and the product with attention_W *)
  change [PyInt (-1); PyInt (Z.of_nat emb_dim)]
    with (PyInt (-1) :: map (fun d => PyInt (Z.of_nat d)) [emb_dim]) in Hflat.
  destruct (tf_reshape_infer_shape _ (b * length prods) [emb_dim] _ Hflat)
    as (He & Hsflat).
  { rewrite Hsewp. cbn. ring. }
  pose proof (get_variable_Ok _ _ _ _ _ _ _ HW) as HsW.
  destruct (tf_matmul_2d flat attn_W false _ _ _ Hsflat HsW) as (pw & Hpw & Hspw & _).
  rewrite Hpw in Hmm. inversion Hmm; subst pw; clear Hmm.
  (* the number of interactions is the number of pairs *)
  assert (Hattr : (2 <= attr_size)%Z).
  { destruct (Z.lt_ge_cases attr_size 2) as [Hlt|Hge]; [|exact Hge].
    rewrite (field_pairs_small attr_size Hlt) in Hlen. simpl in Hlen. lia. }
  assert (Hk' : attr_size = Z.of_nat (Z.to_nat attr_size)) by lia.
  assert (HlenP : length prods = n_pairs (Z.to_nat attr_size)).
  { rewrite Hlen, Hk' at 1. apply field_pairs_length. }
  rewrite Hk' in Hmul. rewrite num_interactions_python2 in Hmul.
  change [PyInt (-1); PyInt (Z.of_nat (n_pairs (Z.to_nat attr_size)));
          PyInt (Z.of_nat hid_rep_dim)]
    with (PyInt (-1) :: map (fun d => PyInt (Z.of_nat d))
                            [n_pairs (Z.to_nat attr_size); hid_rep_dim]) in Hmul.
  destruct (tf_reshape_infer_shape _ b [n_pairs (Z.to_nat attr_size); hid_rep_dim]
              _ Hmul) as (Hh & Hsmul).
  { rewrite Hspw, HlenP. cbn. ring. }
  rewrite <- HlenP in Hsmul.
  (* bias, ReLU, the vector p: the shape stays (b, pairs, h) *)
  apply tf_binop_Ok in Hpre. destruct Hpre as (Hspre & _).
  rewrite Hsmul, (get_variable_Ok _ _ _ _ _ _ _ Hb), broadcast_trailing in Hspre.
  inversion Hspre as [Hspre']; clear Hspre.
  apply tf_binop_Ok in Hw. destruct Hw as (Hsw & _).
  cbn [shape tf_nn_relu tf_map] in Hsw.
  rewrite <- Hspre', (get_variable_Ok _ _ _ _ _ _ _ Hp), broadcast_leading in Hsw.
  inversion Hsw as [Hsw']; clear Hsw.
  (* the sum over h keeps an axis of size 1, over which the softmax runs *)
  unfold tf_reduce_sum, rank in Hrelu. rewrite <- Hsw' in Hrelu.
  change (norm_axis 2 (length [b; length prods; hid_rep_dim])) with (Some 2) in Hrelu.
  cbv iota beta in Hrelu.
  assert (Hsar : shape attn_relu = [b; length prods; 1])
    by (inversion Hrelu; reflexivity).
  clear Hrelu.
  unfold tf_nn_softmax, rank in Hsoft. rewrite Hsar in Hsoft.
  change (norm_axis (-1) (length [b; length prods; 1])) with (Some 2) in Hsoft.
  cbv iota beta in Hsoft. change (nth 2 [b; length prods; 1] 0) with 1 in Hsoft.
  assert (Hssoft : shape soft = [b; length prods; 1])
    by (inversion Hsoft; reflexivity).
  assert (Hone : forall i p, val soft [i; p; 0] = 1%R).
  { intros i p. injection Hsoft as Hs. rewrite <- Hs. cbn [val]. rewrite Rplus_0_l.
    change (set_at 2 0 [i; p; 0]) with [i; p; 0].
    apply Rdiv_diag. apply Rgt_not_eq, Rlt_gt, exp_pos. }
  clear Hsoft.
  (* the weights times the products, summed over the pairs *)
  apply tf_binop_Ok in Hscaled. destruct Hscaled as (Hss & Hvs).
  rewrite Hssoft, Hsewp, broadcast_unit_last in Hss.
  inversion Hss as [Hss']; clear Hss.
  unfold tf_reduce_sum, rank in Hafm. rewrite <- Hss' in Hafm.
  change (norm_axis 1 (length [b; length prods; emb_dim])) with (Some 1) in Hafm.
  cbv iota beta in Hafm.
  inversion Hafm as [Hafm']; clear Hafm.
  split; [reflexivity|].
  intros i c Hi Hc. cbn [val]. change (nth 1 [b; length prods; emb_dim] 0) with (length prods).
  rewrite <- Hlen. apply sumR_ext. intros p Hlt.
  change (insert_at 1 p [i; c]) with [i; p; c].
  rewrite Hvs, Hssoft, Hsewp.
  assert (Hvalid : valid_index [b; length prods; emb_dim] [i; p; c]).
  { constructor; [exact Hi|]. constructor; [exact Hlt|].
    constructor; [exact Hc|constructor]. }
  rewrite (bidx_valid _ _ Hvalid).
  assert (Hunit : exists i' p', bidx [b; length prods; 1] [i; p; c] = [i'; p'; 0]).
  { unfold bidx. cbn [rev app bidx_rev Nat.eqb]. eexists. eexists. reflexivity. }
  destruct Hunit as (i' & p' & ->). rewrite Hone, Rmult_1_l.
  rewrite (Hvewp (tf_zeros []) i p c Hlt).
  destruct (Hpr p Hlt) as (_ & Hval). apply Hval; assumption.
Qed.

(** X15: the attention of [attentional_fm] has no effect on its output.
    Because every attention weight is 1, the feature vector handed back by a
    call without dropout is the plain sum, over the pairs of fields, of the
    element-wise products of the two fields' embeddings: it does not depend
    on the attention variables at all. *)
Theorem attentional_fm_output_is_plain_sum
    initial_value keep_mask python name_scope input_features emb_dim feat_size
    hid_rep_dim attr_size is_training g afm attn_out g' b k :
  attentional_fm initial_value keep_mask python name_scope input_features
    emb_dim feat_size hid_rep_dim attr_size is_training None g
  = Ok ((afm, attn_out), g') ->
  ishape input_features = [b; k] ->
  exists embedding_mat g1 uattr_emb,
    get_embeddings initial_value feat_size emb_dim name_scope true g
    = Ok (embedding_mat, g1) /\
    tf_nn_embedding_lookup embedding_mat input_features = Ok uattr_emb /\
    shape afm = [b; emb_dim] /\
    forall i c, i < b -> c < emb_dim ->
      val afm [i; c]
      = sumR (length (field_pairs attr_size))
          (fun p =>
             (val uattr_emb
                [i; Z.to_nat (fst (nth p (field_pairs attr_size) (0%Z, 0%Z))); c]
              * val uattr_emb
                  [i; Z.to_nat (snd (nth p (field_pairs attr_size) (0%Z, 0%Z))); c])%R).
Proof.
  intros H Hin.
  exact (attentional_fm_output_of_run _ _ _ _ _ _ _ _ _ _ _ _ _ _ _ _ H Hin).
Qed.


(** Three fields, a batch of two, fresh graph. *)
Lemma attentional_fm_output_is_plain_sum_witness :
  exists afm attn_out g' embedding_mat g1 uattr_emb,
    attentional_fm ones_init keep_all Python2 "afm"
      (iconst [2; 3] 1) 4 5 3 3 true None empty_graph
    = Ok ((afm, attn_out), g') /\
    get_embeddings ones_init 5 4 "afm" true empty_graph = Ok (embedding_mat, g1) /\
    tf_nn_embedding_lookup embedding_mat (iconst [2; 3] 1) = Ok uattr_emb /\
    shape afm = [2; 4].
Proof.
  destruct (attentional_fm_run ones_init keep_all "afm" (iconst [2; 3] 1) 4 5 3 3
              true None 2)
    as (afm & soft & g' & Hrun & _).
  - reflexivity.
  - lia.
  - lia.
  - lia.
  - intros q Hq. discriminate Hq.
  - destruct (attentional_fm_output_is_plain_sum _ _ _ _ _ _ _ _ _ _ _ _ _ _ 2 3
                Hrun eq_refl) as (table & g1 & u & Hemb & Hlook & Hs & _).
    exists afm, (tf_squeeze soft), g', table, g1, u. auto.
Defined.

(** ** [gatnet] *)

Lemma gatnet_bias_mat_run adj_mat g :
  exists bias_mat,
    gatnet_bias_mat adj_mat g = Ok (bias_mat, g) /\ shape bias_mat = ishape adj_mat.
Proof.
  unfold gatnet_bias_mat, bind, lift, tf_subtract, tf_multiply, tf_binop.
  cbn [shape scalar tf_cast]. rewrite broadcast_shape_nil_l.
  cbn [shape]. rewrite broadcast_shape_nil_l.
  eexists. split; reflexivity.
Qed.

(** On a rank-2 table a head stops at the transposition at the latest. *)
Lemma gat_attn_head_rank2_Err
    initial_value keep_mask input_indices emb_lookup output_size bias_mat
    activation is_training head_id ft_drop coef_drop g :
  rank emb_lookup = 2 ->
  exists e,
    gat_attn_head initial_value keep_mask input_indices emb_lookup output_size
      bias_mat activation is_training head_id ft_drop coef_drop g = Err e /\
    (e = ValueError "transpose" \/ e = ValueError "dropout" \/
     e = ValueError "get_variable" \/ e = ValueError "dense").
Proof.
  intros Hrank.
  assert (Hshape : exists n d, shape emb_lookup = [n; d]).
  { unfold rank in Hrank. destruct (shape emb_lookup) as [|n [|d [|? ?]]];
      simpl in Hrank; try lia. eauto. }
  destruct Hshape as (n & d & Hshape).
  unfold gat_attn_head. unfold bind at 1.
  destruct ((if float_nonzero ft_drop
             then tf_layers_dropout keep_mask emb_lookup ft_drop is_training
             else ret emb_lookup) g) as [[emb g1]|e1] eqn:E1.
  2:{ exists e1. split; [reflexivity|]. right. left.
      eapply maybe_dropout_Err. exact E1. }
  apply maybe_dropout_Ok in E1. destruct E1 as (Hemb & _ & _).
  unfold bind at 1.
  destruct (tf_layers_dense initial_value emb output_size None false None g1)
    as [[hid g2]|e2] eqn:E2.
  2:{ exists e2. split; [reflexivity|].
      apply tf_layers_dense_Err in E2. tauto. }
  apply tf_layers_dense_Ok in E2; [|discriminate].
  destruct E2 as (_ & Hhid). rewrite Hemb, Hshape in Hhid. cbn in Hhid.
  unfold bind at 1, lift at 1, tf_nn_embedding_lookup. rewrite Hhid.
  unfold bind at 1.
  match goal with
  | |- context [tf_layers_dense initial_value ?b 1 None true None g2] =>
      destruct (tf_layers_dense initial_value b 1 None true None g2)
        as [[f1 g3]|e3] eqn:E3
  end.
  2:{ exists e3. split; [reflexivity|].
      apply tf_layers_dense_Err in E3. tauto. }
  unfold bind at 1.
  destruct (tf_layers_dense initial_value hid 1 None true None g3)
    as [[f2 g4]|e4] eqn:E4.
  2:{ exists e4. split; [reflexivity|].
      apply tf_layers_dense_Err in E4. tauto. }
  apply tf_layers_dense_Ok in E4; [|discriminate].
  destruct E4 as (_ & Hf2). rewrite Hhid in Hf2. cbn in Hf2.
  unfold bind at 1, lift at 1.
  rewrite tf_transpose_021_rank2 by (unfold rank; rewrite Hf2; reflexivity).
  exists (ValueError "transpose"). split; [reflexivity|]. left. reflexivity.
Qed.

(** X16: [gatnet] cannot be built on the (n, d) embedding matrix that its
    docstring asks for.  On a rank-2 table the first head never returns, so
    with at least one head the call raises on every graph; and without
    heads, whatever the table, there is nothing to concatenate and the call
    raises as well. *)
Theorem gatnet_rank2_table_fails
    initial_value keep_mask name_scope embedding_mat adj_mat input_indices
    hid_rep_dim is_training n_heads ft_drop attn_drop g :
  rank embedding_mat = 2 \/ n_heads = 0 ->
  exists e,
    gatnet initial_value keep_mask name_scope embedding_mat adj_mat input_indices
      hid_rep_dim is_training n_heads ft_drop attn_drop g = Err e /\
    (n_heads = 0 -> e = ValueError "concat") /\
    (1 <= n_heads ->
     e = ValueError "transpose" \/ e = ValueError "dropout" \/
     e = ValueError "get_variable" \/ e = ValueError "dense").
Proof.
  intros Hcase. unfold gatnet.
  destruct (gatnet_bias_mat_run adj_mat g) as (bias_mat & Hbias & _).
  rewrite (bind_Ok_intro _ _ _ _ _ Hbias).
  destruct n_heads as [|n].
  - exists (ValueError "concat"). split; [reflexivity|]. split; [reflexivity|lia].
  - destruct Hcase as [Hrank|Hz]; [|discriminate Hz].
    cbn [seq gatnet_heads].
    destruct (gat_attn_head_rank2_Err initial_value keep_mask input_indices
                embedding_mat hid_rep_dim bias_mat tf_nn_relu is_training 0
                ft_drop attn_drop g Hrank) as (e & He & Hcases).
    exists e. split.
    + unfold bind at 1. unfold bind at 1. rewrite He. reflexivity.
    + split; [discriminate|]. intros _. exact Hcases.
Qed.

(** Three nodes with 2-dimensional embeddings, two queries, two heads. *)
Lemma gatnet_rank2_table_fails_witness :
  exists e,
    gatnet ones_init keep_all "gat" (ones [3; 2]) adj_2x3 (iconst [2] 0) 4 true 2 0 0
      empty_graph = Err e /\
    (e = ValueError "transpose" \/ e = ValueError "dropout" \/
     e = ValueError "get_variable" \/ e = ValueError "dense").
Proof.
  destruct (gatnet_rank2_table_fails ones_init keep_all "gat" (ones [3; 2]) adj_2x3
              (iconst [2] 0) 4 true 2 0 0 empty_graph)
    as (e & He & _ & Hcases).
  - left. reflexivity.
  - exists e. split; [exact He|]. apply Hcases. lia.
Defined.

(** ** Default scopes never clash *)

Lemma default_var_name_inj v j v' j' :
  default_var_name v j = default_var_name v' j' -> v = v' /\ j = j'.
Proof.
  unfold default_var_name, scope_name. intros H.
  assert (Hsame : forall base sfx sfx',
            (sfx = sfx' \/ last_char sfx "x"%char <> last_char sfx' "x"%char) ->
            (exists c s, sfx = String "/" (String c s)) ->
            (exists c s, sfx' = String "/" (String c s)) ->
            String.append (if j =? 0 then base
                           else String.append base (String.append "_" (string_of_nat j)))
                          sfx
            = String.append (if j' =? 0 then base
                             else String.append base
                                    (String.append "_" (string_of_nat j'))) sfx' ->
            sfx = sfx' /\ j = j').
  { intros base sfx sfx' Hsfx (c & s & Es) (c' & s' & Es') E.
    assert (Hl : sfx = sfx').
    { destruct Hsfx as [Hs|Hs]; [exact Hs|]. exfalso. apply Hs.
      pose proof (f_equal (fun s => last_char s "x"%char) E) as E2.
      cbv beta in E2. rewrite Es, Es' in E2. rewrite !last_char_append in E2.
      rewrite Es, Es'. exact E2. }
    split; [exact Hl|]. rewrite <- Hl in E.
    apply append_inj_r in E.
    destruct (Nat.eqb_spec j 0) as [Hj|Hj]; destruct (Nat.eqb_spec j' 0) as [Hj'|Hj'].
    - congruence.
    - exfalso. apply (f_equal String.length) in E.
      rewrite string_length_append in E. simpl in E. lia.
    - exfalso. apply (f_equal String.length) in E.
      rewrite string_length_append in E. simpl in E. lia.
    - apply append_inj_l in E. simpl in E. inversion E.
      apply string_of_nat_inj. assumption. }
  destruct v, v'; cbn [var_base var_suffix] in H;
    try (exfalso; destruct (j =? 0), (j' =? 0); simpl in H; discriminate H).
  - destruct (Hsame "dense" "/kernel" "/kernel") as (_ & Hj); eauto.
  - exfalso. destruct (Hsame "dense" "/kernel" "/bias") as (Hs & _); eauto.
    + right. simpl. discriminate.
    + discriminate Hs.
  - exfalso. destruct (Hsame "dense" "/bias" "/kernel") as (Hs & _); eauto.
    + right. simpl. discriminate.
    + discriminate Hs.
  - destruct (Hsame "dense" "/bias" "/bias") as (_ & Hj); eauto.
  - destruct (Hsame "BiasAdd" "/biases" "/biases") as (_ & Hj); eauto.
  - destruct (Hsame "conv1d" "/kernel" "/kernel") as (_ & Hj); eauto.
Qed.

Lemma unique_scope_run base g :
  unique_scope base g
  = Ok (scope_name base (scope_count g base),
        Graph (variables g) ((base, S (scope_count g base)) :: scope_counts g)
              (n_random g)).
Proof. reflexivity. Qed.

Lemma fresh_above_empty : fresh_above empty_graph.
Proof. intros v j _. reflexivity. Qed.

Lemma fresh_above_same g g' :
  variables g' = variables g -> scope_counts g' = scope_counts g ->
  fresh_above g -> fresh_above g'.
Proof.
  intros Hv Hc H v j Hj. unfold scope_count in Hj. rewrite Hv. rewrite Hc in Hj.
  apply H. exact Hj.
Qed.

(** Handing out the next scope of [base] and creating variables of that
    scope only keeps the store clear of the scopes still to come. *)
Lemma fresh_above_step g g' base :
  scope_counts g' = (base, S (scope_count g base)) :: scope_counts g ->
  (forall name, In name (map fst (variables g')) ->
     In name (map fst (variables g)) \/
     exists v, var_base v = base /\ name = default_var_name v (scope_count g base)) ->
  fresh_above g -> fresh_above g'.
Proof.
  intros Hc Hnames H v j Hj. apply lookup_None_iff. intros Hin.
  unfold scope_count in Hj at 1. rewrite Hc in Hj. cbn [lookup] in Hj.
  destruct (Hnames _ Hin) as [Hold|(v0 & Hb & E)].
  - assert (Hle : scope_count g (var_base v) <= j).
    { destruct (String.eqb_spec (var_base v) base) as [E|_]; [|exact Hj].
      rewrite E. lia. }
    apply (proj1 (lookup_None_iff _ _) (H v j Hle)). exact Hold.
  - apply default_var_name_inj in E. destruct E as (-> & ->).
    rewrite Hb, String.eqb_refl in Hj. lia.
Qed.

Lemma fresh_above_lookup g v :
  fresh_above g ->
  lookup (default_var_name v (scope_count g (var_base v))) (variables g) = None.
Proof. intros H. apply H. apply le_n. Qed.

(** A dense layer under a default scope, without activation. *)
Lemma tf_layers_dense_default_run iv inputs units (use_bias : bool) g :
  2 <= rank inputs ->
  fresh_above g ->
  exists t g',
    tf_layers_dense iv inputs units None use_bias None g = Ok (t, g') /\
    shape t = set_last (shape inputs) units /\
    fresh_above g'.
Proof.
  intros Hr Hf. unfold tf_layers_dense.
  destruct (Nat.leb_spec 2 (rank inputs)) as [_|]; [|lia].
  unfold bind at 1. rewrite unique_scope_run.
  pose proof (fresh_above_lookup g DenseKernel Hf) as Hk.
  pose proof (fresh_above_lookup g DenseBias Hf) as Hb.
  unfold default_var_name in Hk, Hb. cbn [var_base var_suffix] in Hk, Hb.
  unfold bind at 1, get_variable at 1. cbn [variables]. rewrite Hk.
  destruct use_bias.
  - unfold bind at 1, get_variable at 1.
    cbn [variables with_variables lookup scope_counts n_random].
    rewrite append_eqb_prefix. cbn [String.eqb Ascii.eqb Bool.eqb]. rewrite Hb.
    eexists. eexists. split; [reflexivity|]. split; [reflexivity|].
    apply (fresh_above_step g _ "dense"); [reflexivity| |exact Hf].
    cbn [variables with_variables map fst].
    intros name [<-|[<-|Hin]]; [right; exists DenseBias|right; exists DenseKernel|left];
      auto.
  - unfold bind at 1, ret at 1.
    eexists. eexists. split; [reflexivity|]. split; [reflexivity|].
    apply (fresh_above_step g _ "dense"); [reflexivity| |exact Hf].
    cbn [variables with_variables map fst].
    intros name [<-|Hin]; [right; exists DenseKernel|left]; auto.
Qed.

Lemma tf_contrib_layers_bias_add_run iv inputs a p h g :
  shape inputs = [a; p; h] ->
  fresh_above g ->
  exists t g',
    tf_contrib_layers_bias_add iv inputs g = Ok (t, g') /\
    shape t = [a; p; h] /\
    fresh_above g'.
Proof.
  intros Hs Hf. unfold tf_contrib_layers_bias_add, rank. rewrite Hs.
  cbn [length Nat.leb last].
  unfold bind at 1. rewrite unique_scope_run.
  pose proof (fresh_above_lookup g BiasAddBiases Hf) as Hb.
  unfold default_var_name in Hb. cbn [var_base var_suffix] in Hb.
  unfold bind at 1, get_variable at 1. cbn [variables]. rewrite Hb.
  unfold lift, tf_add, tf_binop. cbn [shape]. rewrite Hs, broadcast_trailing.
  eexists. eexists. split; [reflexivity|]. split; [reflexivity|].
  apply (fresh_above_step g _ "BiasAdd"); [reflexivity| |exact Hf].
  cbn [variables with_variables map fst].
  intros name [<-|Hin]; [right; exists BiasAddBiases|left]; auto.
Qed.

Lemma tf_layers_conv1d_k1_run iv inputs filters b l c g :
  shape inputs = [b; l; c] ->
  fresh_above g ->
  exists t g',
    tf_layers_conv1d_k1 iv inputs filters g = Ok (t, g') /\
    shape t = [b; l; filters] /\
    fresh_above g'.
Proof.
  intros Hs Hf. unfold tf_layers_conv1d_k1. rewrite Hs.
  unfold bind at 1. rewrite unique_scope_run.
  pose proof (fresh_above_lookup g Conv1dKernel Hf) as Hk.
  unfold default_var_name in Hk. cbn [var_base var_suffix] in Hk.
  unfold bind at 1, get_variable at 1. cbn [variables]. rewrite Hk.
  eexists. eexists. split; [reflexivity|]. split; [reflexivity|].
  apply (fresh_above_step g _ "conv1d"); [reflexivity| |exact Hf].
  cbn [variables with_variables map fst].
  intros name [<-|Hin]; [right; exists Conv1dKernel|left]; auto.
Qed.

(** One attention head on a batched table, from any graph whose default
    scopes are still free. *)
Lemma gat_attn_head_run
    initial_value keep_mask input_indices emb_lookup output_size bias_mat
    activation is_training head_id ft_drop coef_drop n d g :
  shape emb_lookup = [1; n; d] ->
  ishape input_indices = [1] ->
  shape bias_mat = [1; n] ->
  (forall x, shape (activation x) = shape x) ->
  (0 <= ft_drop)%Q -> (ft_drop < 1)%Q ->
  (0 <= coef_drop)%Q -> (coef_drop < 1)%Q ->
  fresh_above g ->
  exists ret_ coefs g',
    gat_attn_head initial_value keep_mask input_indices emb_lookup output_size
      bias_mat activation is_training head_id ft_drop coef_drop g
    = Ok ((ret_, coefs), g') /\
    shape ret_ = [1; n; output_size] /\
    shape coefs = [1; n; n] /\
    fresh_above g'.
Proof.
  intros Hemb Hids Hbias Hact Hf0 Hf1 Hc0 Hc1 Hfresh. unfold gat_attn_head.
  destruct (maybe_dropout_run keep_mask (float_nonzero ft_drop) emb_lookup ft_drop
              is_training g Hf0 Hf1) as (emb & g1 & Hrun1 & Hs1 & Hv1 & Hsc1).
  rewrite (bind_Ok_intro _ _ _ _ _ Hrun1). rewrite Hemb in Hs1.
  pose proof (fresh_above_same _ _ Hv1 Hsc1 Hfresh) as Hfr1.
  (* hid_emb_lookup *)
  destruct (tf_layers_dense_default_run initial_value emb output_size false g1)
    as (hid & g2 & Hrun2 & Hhid & Hfr2); [unfold rank; rewrite Hs1; simpl; lia|exact Hfr1|].
  rewrite (bind_Ok_intro _ _ _ _ _ Hrun2). rewrite Hs1 in Hhid. cbn in Hhid.
  unfold bind at 1, lift at 1, tf_nn_embedding_lookup at 1. rewrite Hhid, Hids.
  cbn [app length].
  match goal with
  | |- context [tf_layers_dense initial_value ?h 1 None true None] =>
      set (b_hid := h)
  end.
  assert (Hbh : shape b_hid = [1; n; output_size]) by reflexivity.
  clearbody b_hid.
  (* f_1, f_2 *)
  destruct (tf_layers_dense_default_run initial_value b_hid 1 true g2)
    as (f_1 & g3 & Hrun3 & Hf1s & Hfr3); [unfold rank; rewrite Hbh; simpl; lia|exact Hfr2|].
  rewrite (bind_Ok_intro _ _ _ _ _ Hrun3). rewrite Hbh in Hf1s. cbn in Hf1s.
  destruct (tf_layers_dense_default_run initial_value hid 1 true g3)
    as (f_2 & g4 & Hrun4 & Hf2s & Hfr4); [unfold rank; rewrite Hhid; simpl; lia|exact Hfr3|].
  rewrite (bind_Ok_intro _ _ _ _ _ Hrun4). rewrite Hhid in Hf2s. cbn in Hf2s.
  unfold bind at 1, lift at 1, tf_transpose, rank. rewrite Hf2s.
  cbn [length is_permutation Nat.eqb forallb seq existsb andb orb map nth].
  match goal with
  | |- context [tf_add f_1 ?f] => set (f_2t := f)
  end.
  assert (Hf2t : shape f_2t = [1; 1; n]) by reflexivity.
  clearbody f_2t.
  unfold bind at 1, lift at 1.
  destruct (tf_binop_run "add" Rplus f_1 f_2t [1; n; n]) as (logits & Hlog & Hslog).
  { rewrite Hf1s, Hf2t. apply broadcast_column_row. }
  unfold tf_add at 1. rewrite Hlog.
  unfold bind at 1, lift at 1.
  destruct (tf_binop_run "add" Rplus (tf_nn_leaky_relu logits) bias_mat [1; n; n])
    as (masked & Hmask & Hsmask).
  { cbn [shape tf_nn_leaky_relu tf_map]. rewrite Hslog, Hbias. apply broadcast_mask. }
  unfold tf_add at 1. rewrite Hmask.
  unfold bind at 1, lift at 1.
  destruct (tf_nn_softmax_last_run masked) as (soft & Hsoft & Hssoft).
  { unfold rank. rewrite Hsmask. simpl. lia. }
  rewrite Hsoft. rewrite Hsmask in Hssoft.
  destruct (maybe_dropout_run keep_mask (float_nonzero coef_drop) soft coef_drop
              is_training g4 Hc0 Hc1) as (coefs & g5 & Hrun5 & Hs5 & Hv5 & Hsc5).
  rewrite (bind_Ok_intro _ _ _ _ _ Hrun5). rewrite Hssoft in Hs5.
  pose proof (fresh_above_same _ _ Hv5 Hsc5 Hfr4) as Hfr5.
  destruct (maybe_dropout_run keep_mask (float_nonzero ft_drop) hid ft_drop
              is_training g5 Hf0 Hf1) as (hid' & g6 & Hrun6 & Hs6 & Hv6 & Hsc6).
  rewrite (bind_Ok_intro _ _ _ _ _ Hrun6). rewrite Hhid in Hs6.
  pose proof (fresh_above_same _ _ Hv6 Hsc6 Hfr5) as Hfr6.
  unfold bind at 1, lift at 1.
  assert (Hmm : exists vals, tf_matmul coefs hid' false = Ok vals
                             /\ shape vals = [1; n; output_size]).
  { unfold tf_matmul, rank. rewrite Hs5, Hs6. cbn -[Nat.eqb].
    rewrite Nat.eqb_refl. eexists. split; reflexivity. }
  destruct Hmm as (vals & Hvals & Hsvals). rewrite Hvals.
  destruct (tf_contrib_layers_bias_add_run initial_value vals 1 n output_size g6
              Hsvals Hfr6) as (biased & g7 & Hrun7 & Hsb & Hfr7).
  rewrite (bind_Ok_intro _ _ _ _ _ Hrun7).
  eexists. eexists. eexists. split; [reflexivity|].
  split; [rewrite Hact; exact Hsb|]. split; [exact Hs5|exact Hfr7].
Qed.

Lemma gatnet_heads_run
    initial_value keep_mask input_indices embedding_mat bias_mat hid_rep_dim
    is_training ft_drop attn_drop n d heads :
  shape embedding_mat = [1; n; d] ->
  ishape input_indices = [1] ->
  shape bias_mat = [1; n] ->
  (0 <= ft_drop)%Q -> (ft_drop < 1)%Q ->
  (0 <= attn_drop)%Q -> (attn_drop < 1)%Q ->
  forall g, fresh_above g ->
  exists hidden_features attns g',
    gatnet_heads initial_value keep_mask input_indices embedding_mat bias_mat
      hid_rep_dim is_training ft_drop attn_drop heads g
    = Ok ((hidden_features, attns), g') /\
    length hidden_features = length heads /\
    Forall (fun t => shape t = [1; n; hid_rep_dim]) hidden_features /\
    length attns = length heads /\
    Forall (fun t => shape t = [1; n; n]) attns /\
    fresh_above g'.
Proof.
  intros Hemb Hids Hbias Hf0 Hf1 Hc0 Hc1.
  induction heads as [|i rest IH]; intros g Hfresh; cbn [gatnet_heads].
  - exists [], [], g. split; [reflexivity|].
    repeat split; try constructor; exact Hfresh.
  - destruct (gat_attn_head_run initial_value keep_mask input_indices embedding_mat
                hid_rep_dim bias_mat tf_nn_relu is_training i ft_drop attn_drop n d g
                Hemb Hids Hbias (fun x => eq_refl) Hf0 Hf1 Hc0 Hc1 Hfresh)
      as (h & a & g1 & Hrun & Hsh & Hsa & Hfr1).
    destruct (IH g1 Hfr1) as (hs & as_ & g2 & Hrest & Hlh & HFh & Hla & HFa & Hfr2).
    exists (h :: hs), (a :: as_), g2.
    split.
    + rewrite (bind_Ok_intro _ _ _ _ _ Hrun). cbv iota beta.
      rewrite (bind_Ok_intro _ _ _ _ _ Hrest). reflexivity.
    + split; [simpl; congruence|]. split; [constructor; assumption|].
      split; [simpl; congruence|]. split; [constructor; assumption|exact Hfr2].
Qed.

Lemma tf_concat_last_run values a p h :
  values <> [] ->
  Forall (fun t => shape t = [a; p; h]) values ->
  exists r, tf_concat values (-1) = Ok r /\ shape r = [a; p; length values * h].
Proof.
  intros Hne HF. destruct values as [|v0 rest]; [congruence|].
  unfold tf_concat.
  assert (Hs0 : shape v0 = [a; p; h]) by (inversion HF; assumption).
  unfold rank at 1. rewrite Hs0.
  change (norm_axis (-1) (length [a; p; h])) with (Some 2).
  assert (Hall : forallb (fun v => shape_eqb (remove_at 2 (shape v))
                                     (remove_at 2 [a; p; h])
                                   && (rank v =? rank v0)) (v0 :: rest) = true).
  { apply forallb_forall. intros v Hv. rewrite Forall_forall in HF.
    unfold rank. rewrite (HF v Hv), Hs0, shape_eqb_refl. reflexivity. }
  cbv iota beta. rewrite Hall. eexists. split; [reflexivity|]. cbn [shape].
  assert (Hsum : list_sum (map (fun v => nth 2 (shape v) 0) (v0 :: rest))
                 = length (v0 :: rest) * h).
  { clear -HF. induction HF as [|v l Hv _ IH]; [reflexivity|].
    cbn [map length]. unfold list_sum in *. cbn [fold_right].
    rewrite IH, Hv. simpl. reflexivity. }
  rewrite Hsum. reflexivity.
Qed.

(** X17: on a fresh graph [gatnet] can be built with any number of heads
    (at least one) when the embedding table carries a leading batch axis of
    size 1, as in the GAT reference: the default scopes of the layers never
    clash from one head to the next, the result has shape
    (1, n, hid_rep_dim), and one (1, n, n) attention map per head comes
    back. *)
Theorem gatnet_returns_on_batched_table
    initial_value keep_mask name_scope embedding_mat adj_mat input_indices
    hid_rep_dim is_training n_heads ft_drop attn_drop n d :
  shape embedding_mat = [1; n; d] ->
  ishape input_indices = [1] ->
  ishape adj_mat = [1; n] ->
  1 <= n_heads ->
  (0 <= ft_drop)%Q -> (ft_drop < 1)%Q ->
  (0 <= attn_drop)%Q -> (attn_drop < 1)%Q ->
  exists logits attns g',
    gatnet initial_value keep_mask name_scope embedding_mat adj_mat input_indices
      hid_rep_dim is_training n_heads ft_drop attn_drop empty_graph
    = Ok ((logits, attns), g') /\
    shape logits = [1; n; hid_rep_dim] /\
    length attns = n_heads /\
    Forall (fun t => shape t = [1; n; n]) attns.
Proof.
  intros Hemb Hids Hadj Hn Hf0 Hf1 Hc0 Hc1. unfold gatnet.
  destruct (gatnet_bias_mat_run adj_mat empty_graph) as (bias_mat & Hbias & Hsb).
  rewrite (bind_Ok_intro _ _ _ _ _ Hbias). rewrite Hadj in Hsb.
  destruct (gatnet_heads_run initial_value keep_mask input_indices embedding_mat
              bias_mat hid_rep_dim is_training ft_drop attn_drop n d (seq 0 n_heads)
              Hemb Hids Hsb Hf0 Hf1 Hc0 Hc1 empty_graph fresh_above_empty)
    as (hs & attns & g1 & Hrun & Hlh & HFh & Hla & HFa & Hfr1).
  rewrite (bind_Ok_intro _ _ _ _ _ Hrun). cbv iota beta.
  rewrite length_seq in Hlh, Hla.
  destruct (tf_concat_last_run hs 1 n hid_rep_dim) as (h_1 & Hcat & Hsh1).
  { intros ->. simpl in Hlh. lia. }
  { exact HFh. }
  unfold bind at 1, lift at 1. rewrite Hcat.
  destruct (tf_layers_conv1d_k1_run initial_value h_1 hid_rep_dim _ _ _ g1 Hsh1 Hfr1)
    as (logits & g2 & Hconv & Hsl & _).
  rewrite (bind_Ok_intro _ _ _ _ _ Hconv).
  exists logits, attns, g2.
  split; [reflexivity|]. split; [exact Hsl|]. split; [exact Hla|exact HFa].
Qed.

(** Three nodes, two heads, feature dropout 1/5. *)
Lemma gatnet_returns_on_batched_table_witness :
  exists logits attns g',
    gatnet ones_init keep_all "gat" (ones [1; 3; 2]) (iconst [1; 3] 1) (iconst [1] 0)
      4 true 2 (1 # 5) 0 empty_graph
    = Ok ((logits, attns), g') /\
    shape logits = [1; 3; 4] /\
    length attns = 2.
Proof.
  destruct (gatnet_returns_on_batched_table ones_init keep_all "gat" (ones [1; 3; 2])
              (iconst [1; 3] 1) (iconst [1] 0) 4 true 2 (1 # 5) 0 3 2)
    as (logits & attns & g' & Hrun & Hs & Hl & _).
  - reflexivity.
  - reflexivity.
  - reflexivity.
  - lia.
  - discriminate.
  - reflexivity.
  - discriminate.
  - reflexivity.
  - exists logits, attns, g'. auto.
Defined.

(** ** [attentional_fm] reads the first [attr_size] fields *)

Lemma element_wise_prod_list_run_wide uattr_emb b k d a :
  shape uattr_emb = [b; k; d] ->
  a <= k ->
  exists prods,
    element_wise_prod_list uattr_emb (Z.of_nat a) = Ok prods /\
    Forall (fun t => shape t = [b; d]) prods /\
    length prods = n_pairs a.
Proof.
  intros Hs Hak. unfold element_wise_prod_list.
  rewrite <- field_pairs_length.
  apply collect_Ok. intros [i j] Hin.
  apply field_pairs_In in Hin. destruct Hin as (Hi & Hj).
  destruct (slice_axis1_cases uattr_emb b k d i Hs) as [(_ & x & Ex & Hsx)|(Hge & _)];
    [lia| |lia].
  destruct (slice_axis1_cases uattr_emb b k d j Hs) as [(_ & y & Ey & Hsy)|(Hge & _)];
    [lia| |lia].
  rewrite Ex, Ey.
  destruct (tf_binop_same_shape "mul" Rmult x y) as (t & Ht & Hst & _); [congruence|].
  exists t. split; [exact Ht|congruence].
Qed.

(** On a fresh graph the call returns as soon as the input has at least
    [attr_size] fields. *)
Lemma attentional_fm_run_wide
    initial_value keep_mask name_scope input_features emb_dim feat_size
    hid_rep_dim a is_training dropout_keep b k :
  ishape input_features = [b; k] ->
  2 <= a -> a <= k -> 1 <= emb_dim -> 1 <= hid_rep_dim ->
  (forall q, dropout_keep = Some q -> (0 <= q)%Q /\ (q < 1)%Q) ->
  exists afm soft g',
    attentional_fm initial_value keep_mask Python2 name_scope input_features
      emb_dim feat_size hid_rep_dim (Z.of_nat a) is_training dropout_keep
      empty_graph
    = Ok ((afm, tf_squeeze soft), g') /\
    shape soft = [b; n_pairs a; 1].
Proof.
  intros Hin Hk Hak Hd Hh Hrate.
  pose proof (n_pairs_pos a Hk) as HP.
  unfold attentional_fm, get_embeddings, get_variable, bind at 1 2.
  cbn [variables empty_graph lookup with_variables].
  destruct (zero_pad_table
              (Tensor [feat_size; emb_dim]
                 (initial_value (String.append name_scope "/embedding_matrix")
                                [feat_size; emb_dim]))
              feat_size emb_dim eq_refl) as (table & Ht & Hst & _).
  rewrite Ht.
  unfold bind at 1, lift at 1, tf_nn_embedding_lookup. rewrite Hst, Hin.
  cbn [app length].
  unfold bind at 1. cbn [variables with_variables lookup scope_counts n_random].
  rewrite append_eqb_prefix. cbn [String.eqb Ascii.eqb Bool.eqb].
  unfold bind at 1. cbn [variables with_variables lookup scope_counts n_random].
  rewrite !append_eqb_prefix. cbn [String.eqb Ascii.eqb Bool.eqb].
  unfold bind at 1. cbn [variables with_variables lookup scope_counts n_random].
  rewrite !append_eqb_prefix. cbn [String.eqb Ascii.eqb Bool.eqb].
  (* the pairwise products *)
  unfold bind at 1, lift at 1.
  match goal with
  | |- context [element_wise_prod_list ?u _] =>
      destruct (element_wise_prod_list_run_wide u b k emb_dim a eq_refl Hak)
        as (prods & Hprods & HF & Hlen)
  end.
  rewrite Hprods.
  unfold bind at 1, lift at 1.
  destruct (tf_stack_axis1_run prods b emb_dim) as (ewp & Hewp & Hsewp).
  { intros ->. simpl in Hlen. lia. }
  { exact HF. }
  rewrite Hewp. rewrite Hlen in Hsewp.
  unfold bind at 1, lift at 1.
  destruct (tf_reduce_sum_run ewp 2 false) as (inter & Hinter & _).
  { unfold rank. rewrite Hsewp. simpl. lia. }
  change (Z.of_nat 2) with 2%Z in Hinter. rewrite Hinter.
  (* attentional part *)
  rewrite num_interactions_python2.
  unfold bind at 1, lift at 1.
  destruct (tf_reshape_infer ewp (b * n_pairs a) [emb_dim]) as (flat & Hflat & Hsflat).
  { rewrite Hsewp. cbn. ring. }
  { cbn. lia. }
  cbn [map] in Hflat. rewrite Hflat.
  unfold bind at 1, lift at 1.
  match goal with
  | |- context [tf_matmul flat ?w false] =>
      destruct (tf_matmul_2d flat w false (b * n_pairs a) emb_dim hid_rep_dim
                  Hsflat eq_refl) as (prod_W & HprodW & HsprodW & _)
  end.
  rewrite HprodW.
  unfold bind at 1, lift at 1.
  destruct (tf_reshape_infer prod_W b [n_pairs a; hid_rep_dim])
    as (attn_mul & Hmul & Hsmul).
  { rewrite HsprodW. cbn. ring. }
  { cbn. nia. }
  cbn [map] in Hmul. rewrite Hmul.
  unfold bind at 1, lift at 1.
  match goal with
  | |- context [tf_add attn_mul ?bb] =>
      destruct (tf_binop_run "add" Rplus attn_mul bb [b; n_pairs a; hid_rep_dim])
        as (pre & Hpre & Hspre)
  end.
  { rewrite Hsmul. apply broadcast_trailing. }
  unfold tf_add at 1. rewrite Hpre.
  unfold bind at 1, lift at 1.
  match goal with
  | |- context [tf_multiply ?p (tf_nn_relu pre)] =>
      destruct (tf_binop_run "mul" Rmult p (tf_nn_relu pre)
                  [b; n_pairs a; hid_rep_dim]) as (weighted & Hw & Hsw)
  end.
  { cbn [shape tf_nn_relu tf_map]. rewrite Hspre. apply broadcast_leading. }
  unfold tf_multiply at 1. rewrite Hw.
  unfold bind at 1, lift at 1.
  destruct (tf_reduce_sum_run weighted 2 true) as (attn_relu & Hrelu & Hsrelu).
  { unfold rank. rewrite Hsw. simpl. lia. }
  change (Z.of_nat 2) with 2%Z in Hrelu. rewrite Hrelu.
  rewrite Hsw in Hsrelu. cbn in Hsrelu.
  unfold bind at 1, lift at 1.
  destruct (tf_nn_softmax_last_run attn_relu) as (soft & Hsoft & Hssoft).
  { unfold rank. rewrite Hsrelu. simpl. lia. }
  rewrite Hsoft. rewrite Hsrelu in Hssoft.
  unfold bind at 1, lift at 1.
  destruct (tf_binop_run "mul" Rmult soft ewp [b; n_pairs a; emb_dim])
    as (scaled & Hscaled & Hsscaled).
  { rewrite Hssoft, Hsewp. apply broadcast_unit_last. }
  unfold tf_multiply at 1. rewrite Hscaled.
  unfold bind at 1, lift at 1.
  destruct (tf_reduce_sum_run scaled 1 false) as (afm0 & Hafm0 & _).
  { unfold rank. rewrite Hsscaled. simpl. lia. }
  change (Z.of_nat 1) with 1%Z in Hafm0. rewrite Hafm0.
  unfold bind at 1.
  destruct dropout_keep as [q|].
  - destruct (Hrate q eq_refl) as (H0 & H1).
    unfold truthy_float. destruct (negb (Qeq_bool q 0)) eqn:Hq.
    + unfold tf_layers_dropout. rewrite (valid_rate_check q H0 H1).
      apply negb_true_iff in Hq. rewrite Hq.
      eexists. eexists. eexists. split; [reflexivity|exact Hssoft].
    + eexists. eexists. eexists. split; [reflexivity|exact Hssoft].
  - eexists. eexists. eexists. split; [reflexivity|exact Hssoft].
Qed.

Lemma tf_nn_embedding_lookup_rank2 params ids v d b k u :
  shape params = [v; d] ->
  ishape ids = [b; k] ->
  tf_nn_embedding_lookup params ids = Ok u ->
  forall i x c,
    val u [i; x; c]
    = if ((0 <=? ival ids [i; x]) && (ival ids [i; x] <? Z.of_nat v))%Z
      then val params [Z.to_nat (ival ids [i; x]); c]
      else 0%R.
Proof.
  intros Hp Hi H i x c. unfold tf_nn_embedding_lookup in H. rewrite Hp, Hi in H.
  injection H as <-. reflexivity.
Qed.

(** X18: [attentional_fm] reads the first [attr_size] fields of its input
    and nothing else.  On a fresh graph (Python 2, dimensions at least 1,
    no dropout) the call returns for every input with at least
    [attr_size] >= 2 fields, and two inputs that agree on their first
    [attr_size] columns, whatever their further columns and widths, give
    the same feature vectors. *)
Theorem attentional_fm_uses_first_fields
    initial_value keep_mask name_scope input1 input2 emb_dim feat_size
    hid_rep_dim a is_training b k1 k2 :
  ishape input1 = [b; k1] ->
  ishape input2 = [b; k2] ->
  2 <= a -> a <= k1 -> a <= k2 -> 1 <= emb_dim -> 1 <= hid_rep_dim ->
  (forall i x, i < b -> x < a -> ival input1 [i; x] = ival input2 [i; x]) ->
  exists afm1 attn1 g1 afm2 attn2 g2,
    attentional_fm initial_value keep_mask Python2 name_scope input1
      emb_dim feat_size hid_rep_dim (Z.of_nat a) is_training None empty_graph
    = Ok ((afm1, attn1), g1) /\
    attentional_fm initial_value keep_mask Python2 name_scope input2
      emb_dim feat_size hid_rep_dim (Z.of_nat a) is_training None empty_graph
    = Ok ((afm2, attn2), g2) /\
    shape afm1 = [b; emb_dim] /\
    shape afm2 = [b; emb_dim] /\
    forall i c, i < b -> c < emb_dim -> val afm1 [i; c] = val afm2 [i; c].
Proof.
  intros Hin1 Hin2 Ha Hk1 Hk2 Hd Hh Hagree.
  destruct (attentional_fm_run_wide initial_value keep_mask name_scope input1 emb_dim
              feat_size hid_rep_dim a is_training None b k1 Hin1 Ha Hk1 Hd Hh)
    as (afm1 & soft1 & g1 & Hrun1 & _); [intros q Hq; discriminate Hq|].
  destruct (attentional_fm_run_wide initial_value keep_mask name_scope input2 emb_dim
              feat_size hid_rep_dim a is_training None b k2 Hin2 Ha Hk2 Hd Hh)
    as (afm2 & soft2 & g2 & Hrun2 & _); [intros q Hq; discriminate Hq|].
  destruct (attentional_fm_output_of_run _ _ _ _ _ _ _ _ _ _ _ _ _ _ _ _ Hrun1 Hin1)
    as (table & gt & u1 & Hemb1 & Hlook1 & Hs1 & Hv1).
  destruct (attentional_fm_output_of_run _ _ _ _ _ _ _ _ _ _ _ _ _ _ _ _ Hrun2 Hin2)
    as (table2 & gt2 & u2 & Hemb2 & Hlook2 & Hs2 & Hv2).
  rewrite Hemb1 in Hemb2. inversion Hemb2; subst table2 gt2; clear Hemb2.
  pose proof (get_embeddings_shape_of_run _ _ _ _ _ _ _ _ Hemb1) as Hst.
  exists afm1, (tf_squeeze soft1), g1, afm2, (tf_squeeze soft2), g2.
  split; [exact Hrun1|]. split; [exact Hrun2|].
  split; [exact Hs1|]. split; [exact Hs2|].
  intros i c Hi Hc. rewrite (Hv1 i c Hi Hc), (Hv2 i c Hi Hc).
  apply sumR_ext. intros p Hp.
  assert (Hpair : In (nth p (field_pairs (Z.of_nat a)) (0%Z, 0%Z))
                     (field_pairs (Z.of_nat a))) by (apply nth_In; exact Hp).
  destruct (nth p (field_pairs (Z.of_nat a)) (0%Z, 0%Z)) as [x y].
  apply field_pairs_In_iff in Hpair. cbn [fst snd].
  rewrite !(tf_nn_embedding_lookup_rank2 _ _ _ _ _ _ _ Hst Hin1 Hlook1).
  rewrite !(tf_nn_embedding_lookup_rank2 _ _ _ _ _ _ _ Hst Hin2 Hlook2).
  rewrite !(Hagree i) by lia. reflexivity.
Qed.

(** Inputs with three and with five fields, of which two are read. *)
Lemma attentional_fm_uses_first_fields_witness :
  exists afm1 attn1 g1 afm2 attn2 g2,
    attentional_fm ones_init keep_all Python2 "afm" (iconst [2; 3] 1)
      4 5 3 2 true None empty_graph = Ok ((afm1, attn1), g1) /\
    attentional_fm ones_init keep_all Python2 "afm" (iconst [2; 5] 1)
      4 5 3 2 true None empty_graph = Ok ((afm2, attn2), g2) /\
    val afm1 [1%nat; 3%nat] = val afm2 [1%nat; 3%nat].
Proof.
  destruct (attentional_fm_uses_first_fields ones_init keep_all "afm"
              (iconst [2; 3] 1) (iconst [2; 5] 1) 4 5 3 2 true 2 3 5)
    as (afm1 & a1 & g1 & afm2 & a2 & g2 & H1 & H2 & _ & _ & Hv).
  - reflexivity.
  - reflexivity.
  - lia.
  - lia.
  - lia.
  - lia.
  - lia.
  - intros i x _ _. reflexivity.
  - exists afm1, a1, g1, afm2, a2, g2.
    split; [exact H1|]. split; [exact H2|]. apply Hv; lia.
Defined.
